(** * BlockVerse session server: a shallow embedding of [server.js] and of
    its variant with a [Map] registry, and of the word-game server

    The server keeps two process-wide tables, [rooms] and [clients], and
    reacts to four kinds of events per WebSocket: [connection], [message],
    [close] and [error].  Every handler runs to completion, so the server is
    a deterministic transition function on the pair of tables once the
    sources of nondeterminism ([Math.random], [Date.now], [uuidv4]) are
    supplied by the environment of the event.

    Conventions of the embedding.
    - A JavaScript object used as a dictionary is a [gmap string _] of its
      own properties; the key of a property access [o[k]] is the string
      [k] is converted to.  Where a key chosen by a client is looked up
      ([rooms[msg.roomId]]), a key that is not an own property but names a
      property of [Object.prototype] yields that inherited value.  The
      order in which a dictionary is enumerated is not part of the model:
      where the code enumerates one ([Object.values(rooms)]), the
      statements speak of its elements, not of their order.
    - JavaScript numbers are rationals ([Q]) for positions and random
      draws, and integers ([Z]) for block coordinates and timestamps.
    - Fields of inbound messages carry values of their protocol type; a
      field the code tests for presence is an [option].
    - An uncaught [TypeError] is the result [Throw]; nothing is observed
      after it.
    - The regular-expression scan of [simulateLua] is not expanded: the
      [script_output] reply records the two strings it is computed from. *)

From Stdlib Require Import ZArith QArith Qround Lqa String Ascii List.
From Stdlib Require Import Sorting.Sorted Sorting.Permutation.
From stdpp Require Import base option list gmap strings.
Import ListNotations.

Open Scope string_scope.
Open Scope list_scope.
Open Scope Z_scope.

(** ** JavaScript values used by the server *)

(** [o[k]] with a nullable key: [null] is converted to the string ["null"]. *)
Definition prop_key (k : option string) : string :=
  match k with
  | Some s => s
  | None => "null"
  end.

(** The property names every plain object inherits from
    [Object.prototype].  Each of them is a function, or for ["__proto__"]
    the prototype object itself: a truthy value without a [players]
    property. *)
Definition Object_prototype_keys : list string :=
  ["constructor"; "__defineGetter__"; "__defineSetter__"; "hasOwnProperty";
   "__lookupGetter__"; "__lookupSetter__"; "isPrototypeOf";
   "propertyIsEnumerable"; "toString"; "valueOf"; "__proto__";
   "toLocaleString"].

Definition inherited (k : string) : bool :=
  bool_decide (k ∈ Object_prototype_keys).

(** Truthiness of a nullable string: [null], [undefined] and [""] are falsy. *)
Definition truthy (v : option string) : bool :=
  match v with
  | Some EmptyString => false
  | Some _ => true
  | None => false
  end.

(** [a || b] on strings. *)
Definition or_else (a : option string) (b : string) : string :=
  match a with
  | Some EmptyString => b
  | Some s => s
  | None => b
  end.

(** [String(v)] for an optional string field. *)
Definition String_of (v : option string) : string :=
  match v with
  | Some s => s
  | None => "undefined"
  end.

(** [s.slice(0, n)]. *)
Definition slice0 (n : nat) (s : string) : string := substring 0 n s.

(** [arr.slice(-n)]: the last [n] elements. *)
Definition slice_last {A} (n : nat) (l : list A) : list A :=
  drop (length l - n) l.

(** [arr.shift()] applied for its effect. *)
Definition shift {A} (l : list A) : list A := tail l.

Definition hex_digit (d : Z) : ascii :=
  match d with
  | 0 => "0" | 1 => "1" | 2 => "2" | 3 => "3" | 4 => "4" | 5 => "5"
  | 6 => "6" | 7 => "7" | 8 => "8" | 9 => "9" | 10 => "a" | 11 => "b"
  | 12 => "c" | 13 => "d" | 14 => "e" | _ => "f"
  end%char.

Fixpoint hex_digits (fuel : nat) (n : Z) (acc : string) : string :=
  match fuel with
  | O => acc
  | S fuel' =>
      let acc' := String (hex_digit (n mod 16)) acc in
      if n / 16 =? 0 then acc' else hex_digits fuel' (n / 16) acc'
  end.

(** [n.toString(16)] for an integer [n]. *)
Definition toString16 (n : Z) : string :=
  if n <? 0
  then String "-"%char (hex_digits (Z.to_nat (Z.log2 (- n)) + 1) (- n) "")
  else hex_digits (Z.to_nat (Z.log2 n) + 1) n "".

Fixpoint repeat_char (n : nat) (c : ascii) : string :=
  match n with
  | O => ""
  | S n' => String c (repeat_char n' c)
  end.

(** [s.padStart(n, c)]. *)
Definition padStart (n : nat) (c : ascii) (s : string) : string :=
  repeat_char (n - String.length s) c +:+ s.

(** [Math.floor]. *)
Definition Math_floor (q : Q) : Z := Qfloor q.

(** ** Data model *)

Record Block := mkBlock {
  b_x : Z;
  b_y : Z;
  b_z : Z;
  b_type : string;
}.

Record ChatEntry := mkChat {
  c_sender : string;
  c_color : string;
  c_text : string;
  c_ts : Z;
}.

Record PlayerState := mkPlayer {
  p_id : string;
  p_name : string;
  p_color : string;
  p_x : Q;
  p_y : Q;
  p_z : Q;
  p_rotY : Q;
  p_hp : option Z;
  p_joinedAt : option Z;
}.

(** The value of [clients[ws]]. *)
Record ClientInfo := mkInfo {
  playerId : string;
  roomId : option string;
  name : string;
}.

(** [mapData] is [Some l] for an array and [None] for any other value
    ([save_map] of [server.js] stores whatever the message carries).  The
    fields [p_hp], [p_joinedAt], [scripts] and [created] exist in
    [server.js] only and are [None] in the variant that lacks them. *)
Record Room := mkRoom {
  r_id : string;
  r_name : string;
  maxPlayers : nat;
  players : gmap string PlayerState;
  mapData : option (list Block);
  scripts : option (gmap string string);
  chatHistory : list ChatEntry;
  created : option Z;
}.

Inductive ReadyState := OPEN | CLOSING | CLOSED.

(** A WebSocket object: its identity, the [playerId] constant captured by
    the closures of its handlers, and its [readyState]. *)
Record Sock := mkSock {
  ws_of : nat;
  sock_playerId : string;
  readyState : ReadyState;
}.

Record RoomSummary := mkSummary {
  rs_id : string;
  rs_name : string;
  rs_playerCount : nat;
  rs_maxPlayers : nat;
}.

(** Inbound messages, by their [type] field. *)
Inductive Msg :=
| join_room (mroomId : string) (mname mcolor : option string)
| move (mx my mz mrotY : Q)
| chat (mtext : option string)
| place_block (bx by_ bz : Z) (blockType : string)
| script_run (code : option string)
| save_map (mmapData : option (list Block))
| ping
| other_type.

(** What [JSON.parse(raw)] yields: an exception, the value [null], or a
    value whose [type] can be read. *)
Inductive Payload :=
| unparseable
| json_null
| parsed (m : Msg).

Inductive OutMsg :=
| welcome (pid : string) (rs : list RoomSummary)
| room_joined (rid rname pid : string) (ps : gmap string PlayerState)
    (md : option (list Block)) (hist : list ChatEntry)
| player_joined (player : option PlayerState)
| player_moved (pid : string) (x y z rotY : Q)
| player_left (pid : string)
| chat_out (message : ChatEntry)
| block_update (x y z : Z) (blockType : string)
| map_reload (md : option (list Block))
| error_out (text : string)
| info_out (text : string)
| pong (ts : Z)
| script_output (code playerName : string).

(** A frame written to a socket: the receiving socket and the message. *)
Definition Sent : Type := nat * OutMsg.

(** The environment of one handler invocation: the successive results of
    [Math.random()] and the reading of [Date.now()]. *)
Record Env := mkEnv {
  random : nat -> Q;
  now : Z;
}.

Inductive Result (A : Type) :=
| Ok (a : A)
| Throw (e : string).
Arguments Ok {A} a.
Arguments Throw {A} e.

Definition is_open (k : Sock) : bool :=
  match readyState k with
  | OPEN => true
  | _ => false
  end.

Definition set_ready (st : ReadyState) (w : nat) (l : list Sock) : list Sock :=
  map (fun k => if Nat.eqb (ws_of k) w
                then mkSock (ws_of k) (sock_playerId k) st else k) l.

Definition find_sock (w : nat) (l : list Sock) : option Sock :=
  List.find (fun k => Nat.eqb (ws_of k) w) l.

Definition summary (r : Room) : RoomSummary :=
  mkSummary (r_id r) (r_name r) (size (players r)) (maxPlayers r).

Definition same_pos (x y z : Z) (b : Block) : bool :=
  (b_x b =? x) && (b_y b =? y) && (b_z b =? z).

Definition set_players (r : Room) (ps : gmap string PlayerState) : Room :=
  mkRoom (r_id r) (r_name r) (maxPlayers r) ps (mapData r) (scripts r)
         (chatHistory r) (created r).

Definition set_mapData (r : Room) (md : option (list Block)) : Room :=
  mkRoom (r_id r) (r_name r) (maxPlayers r) (players r) md (scripts r)
         (chatHistory r) (created r).

Definition set_chatHistory (r : Room) (h : list ChatEntry) : Room :=
  mkRoom (r_id r) (r_name r) (maxPlayers r) (players r) (mapData r)
         (scripts r) h (created r).

Definition set_position (p : PlayerState) (x y z rotY : Q) : PlayerState :=
  mkPlayer (p_id p) (p_name p) (p_color p) x y z rotY (p_hp p) (p_joinedAt p).

(** [room.players[pid]?.color || '#fff']. *)
Definition chat_color (room : Room) (pid : string) : string :=
  or_else (p_color <$> players room !! pid) "#fff".

(** [push] followed by the trim of [case 'chat']. *)
Definition push_trim (h : list ChatEntry) (m : ChatEntry) : list ChatEntry :=
  let h' := h ++ [m] in
  if (100 <? length h')%nat then shift h' else h'.

(** The two statements of [case 'place_block'] that rewrite the map. *)
Definition place (l : list Block) (x y z : Z) (blockType : string) : list Block :=
  let l' := List.filter (fun b => negb (same_pos x y z b)) l in
  if bool_decide (blockType = "air") then l' else l' ++ [mkBlock x y z blockType].


(** The number of entries of a map at a coordinate. *)
Definition count_at (x y z : Z) (l : list Block) : nat :=
  length (List.filter (same_pos x y z) l).



(** [(Math.random() - 0.5) * 10]. *)
Definition spawn (r : Q) : Q := ((r - (1 # 2)) * 10)%Q.

(** The events the server reacts to; [t] is the reading of [Date.now()]
    in the handler of [close] and [error]. *)
Inductive Event :=
| connection (ws : nat) (uuid : string)
| message (ws : nat) (raw : Payload) (e : Env)
| close (ws : nat) (t : Z)
| error (ws : nat) (t : Z).

Definition event_socket (ev : Event) : nat :=
  match ev with
  | connection ws _ | message ws _ _ | close ws _ | error ws _ => ws
  end.

Definition room_names : list string :=
  ["Main World"; "PvP Arena"; "Builder Zone"; "Roleplay City"].

Definition room_ids : list string :=
  ["room_1"; "room_2"; "room_3"; "room_4"].

(** The environment used in the concrete runs below: every random draw
    is 0.5 and the clock reads 1000. *)
Definition half : nat -> Q := fun _ => (1 # 2)%Q.

Definition env0 : Env := mkEnv half 1000.

(** The [n]-th result of [uuidv4()] in the concrete runs. *)
Definition uuid (n : nat) : string :=
  padStart 2 "0" (toString16 (Z.of_nat n))
  +:+ "c0ffee-0000-4000-8000-000000000000".

(** The name a player gets when [join_room] carries none. *)
Definition default_name (n : nat) : string := "Player_" +:+ slice0 6 (uuid n).

Definition join1 : Payload := parsed (join_room "room_1" None None).

(** Two sockets connect, then each joins ["room_1"]. *)
Definition both_join : list Event :=
  [connection 1 (uuid 1); connection 2 (uuid 2);
   message 1 join1 env0; message 2 join1 env0].

(** Two sockets connect and only the first joins ["room_1"]. *)
Definition one_joins : list Event :=
  [connection 1 (uuid 1); connection 2 (uuid 2); message 1 join1 env0].

(** The player ids carried by the [player_left] and [room_joined] frames
    of an output. *)
Definition left_ids (out : list Sent) : list string :=
  omap (fun o => match o.2 with player_left pid => Some pid | _ => None end) out.

Definition joined_ids (out : list Sent) : list string :=
  omap (fun o => match o.2 with
                 | room_joined _ _ pid _ _ _ => Some pid
                 | _ => None
                 end) out.

(** ** [server.js] *)

Module ServerJs.

(** The two tables of [server.js] and the set [wss.clients] of the socket
    server, in insertion order.  A socket stays in the list after it has
    closed; [broadcast] and [sendTo] skip every socket that is not [OPEN]. *)
Record Server := mkServer {
  rooms : gmap string Room;
  clients : gmap string ClientInfo;
  wss_clients : list Sock;
}.

(** [clients] is a plain object ([const clients = {}]) indexed by socket
    objects.  A property key is a string: [clients[ws]] converts [ws] with
    [String(ws)], that is [Object.prototype.toString], whose result does
    not depend on which socket it is applied to.  (The comment of the [Map]
    variant spells the key "[object WebSocket]"; only its being the same
    for all sockets matters below.) *)
Definition ws_key (ws : nat) : string := "[object Object]".

Definition decoTypes : list string :=
  ["sand"; "snow"; "lava"; "metal"; "glass"; "leaf"].

(** [rnd k] is the result of the [k]-th call of [Math.random()]. *)
Definition generateDefaultMap (rnd : nat -> Q) : list Block :=
  (x ← seqZ (-20) 40; z ← seqZ (-20) 40; [mkBlock x 0 z "grass"]) ++
  (x ← seqZ (-4) 9; z ← seqZ (-4) 9; [mkBlock x 1 z "stone"]) ++
  (i ← seqZ (-3) 7;
     [mkBlock i 2 (-4) "brick"; mkBlock i 2 4 "brick";
      mkBlock (-4) 2 i "brick"; mkBlock 4 2 i "brick"]) ++
  (y ← seqZ 1 6;
     [mkBlock 8 y 8 "wood"; mkBlock 9 y 8 "wood";
      mkBlock 8 y 9 "wood"; mkBlock 9 y 9 "wood"]) ++
  (i ← seq 0 30;
     let rx := Math_floor (rnd (3 * i)%nat * 30 - 15)%Q in
     let rz := Math_floor (rnd (3 * i + 1)%nat * 30 - 15)%Q in
     let type :=
       nth (Z.to_nat (Math_floor (rnd (3 * i + 2)%nat * 6)%Q)) decoTypes
         "undefined" in
     [mkBlock rx 1 rz type]).

Definition createRoom (id nm : string) (maxP : nat) (rnd : nat -> Q) (t : Z)
  : Room :=
  {| r_id := id; r_name := nm; maxPlayers := maxP; players := ∅;
     mapData := Some (generateDefaultMap rnd); scripts := Some ∅;
     chatHistory := []; created := Some t |}.

(** The seeding loop: the [i]-th room consumes the draws [90 i .. 90 i + 89]. *)
Definition seed_rooms (rnd : nat -> Q) (t : Z) : gmap string Room :=
  list_to_map
    (imap (fun i '(id, nm) =>
             (id, createRoom id nm 20 (fun k => rnd (90 * i + k)%nat) t))
          (zip room_ids room_names)).

Definition init (rnd : nat -> Q) (t : Z) : Server :=
  {| rooms := seed_rooms rnd t; clients := ∅; wss_clients := [] |}.

Definition room_list (s : Server) : list RoomSummary :=
  (fun kv => summary (snd kv)) <$> map_to_list (rooms s).

(** *** Broadcast helpers *)

Definition registered_in (s : Server) (rid : option string) (k : Sock) : bool :=
  match clients s !! ws_key (ws_of k) with
  | Some info => bool_decide (roomId info = rid)
  | None => false
  end.

Definition excluded (excludeWs : option nat) (k : Sock) : bool :=
  match excludeWs with
  | Some w => Nat.eqb (ws_of k) w
  | None => false
  end.

Definition receives (s : Server) (rid : option string)
    (excludeWs : option nat) (k : Sock) : bool :=
  is_open k && registered_in s rid k && negb (excluded excludeWs k).

Definition broadcast (s : Server) (rid : option string) (msg : OutMsg)
    (excludeWs : option nat) : list Sent :=
  match rooms s !! prop_key rid with
  | None => []
  | Some _ =>
      map (fun k => (ws_of k, msg))
          (List.filter (receives s rid excludeWs) (wss_clients s))
  end.

Definition sendTo (s : Server) (ws : nat) (msg : OutMsg) : list Sent :=
  match find_sock ws (wss_clients s) with
  | Some k => if is_open k then [(ws, msg)] else []
  | None => []
  end.

Definition set_rooms (s : Server) (rs : gmap string Room) : Server :=
  mkServer rs (clients s) (wss_clients s).

Definition set_clients (s : Server) (cs : gmap string ClientInfo) : Server :=
  mkServer (rooms s) cs (wss_clients s).

(** *** Leave room helper *)

Definition left_msg (nm : string) (t : Z) : ChatEntry :=
  mkChat "System" "#ff6b35" (nm +:+ " left the game.") t.

Definition leaveRoom (s : Server) (ws : nat) (t : Z) : Server * list Sent :=
  match clients s !! ws_key ws with
  | None => (set_clients s (delete (ws_key ws) (clients s)), [])
  | Some info =>
      if negb (truthy (roomId info))
      then (set_clients s (delete (ws_key ws) (clients s)), [])
      else
        let '(s1, out) :=
          match rooms s !! prop_key (roomId info) with
          | Some room =>
              match players room !! or_else (Some (playerId info)) "" with
              | Some _ =>
                  let sysMsg := left_msg (name info) t in
                  let room' :=
                    set_chatHistory
                      (set_players room (delete (playerId info) (players room)))
                      (chatHistory room ++ [sysMsg]) in
                  let s1 :=
                    set_rooms s (<[prop_key (roomId info) := room']> (rooms s)) in
                  (s1, broadcast s1 (roomId info) (player_left (playerId info)) None
                       ++ broadcast s1 (roomId info) (chat_out sysMsg) None)
              | None => (s, [])
              end
          | None => (s, [])
          end in
        (set_clients s1 (delete (ws_key ws) (clients s1)), out)
  end.

(** *** WebSocket handlers *)

(** The object bound to [const room = rooms[k]], read in a later state:
    [rooms] never loses a key, so the table still holds it under [k]. *)
Definition deref (s : Server) (k : string) (room : Room) : Room :=
  default room (rooms s !! k).

Definition joined_msg (nm : string) (t : Z) : ChatEntry :=
  mkChat "System" "#00e5ff" (nm +:+ " joined the game!") t.

Definition random_color (r : Q) : string :=
  "#" +:+ padStart 6 "0" (toString16 (Math_floor (r * 16777215)%Q)).

(** [case 'join_room'].  [info] is the object read from [clients[ws]] when
    the handler started; [leaveRoom] removes it from the table, after which
    the two assignments to its fields are no longer visible there.  For an
    inherited key [room] is truthy and [Object.keys(room.players)] is
    [Object.keys(undefined)], which raises. *)
Definition case_join_room (s : Server) (ws : nat) (pid : string)
    (info : option ClientInfo) (rid : string) (mname mcolor : option string)
    (e : Env) : Result (Server * list Sent) :=
  match rooms s !! rid with
  | None =>
      if inherited rid
      then Throw "TypeError: Cannot convert undefined or null to object"
      else Ok (s, sendTo s ws (error_out "Room not found"))
  | Some room =>
      if (maxPlayers room <=? size (players room))%nat
      then Ok (s, sendTo s ws (error_out "Room is full"))
      else
        match info with
        | None => Throw "TypeError: Cannot read properties of undefined"
        | Some info =>
            let leaves := truthy (roomId info) in
            let '(s1, out1) :=
              if leaves then leaveRoom s ws (now e) else (s, []) in
            let spawnX := spawn (random e 0%nat) in
            let spawnZ := spawn (random e 1%nat) in
            let playerName := or_else mname ("Player_" +:+ slice0 6 pid) in
            let playerColor := or_else mcolor (random_color (random e 2%nat)) in
            let s2 :=
              if leaves then s1
              else set_clients s1
                     (<[ws_key ws := mkInfo (playerId info) (Some rid) playerName]>
                        (clients s1)) in
            let room1 := deref s2 rid room in
            let player :=
              mkPlayer pid playerName playerColor spawnX 2 spawnZ 0 (Some 100)
                (Some (now e)) in
            let room2 := set_players room1 (<[pid := player]> (players room1)) in
            let s3 := set_rooms s2 (<[rid := room2]> (rooms s2)) in
            let out2 :=
              sendTo s3 ws
                (room_joined rid (r_name room2) pid (players room2)
                   (mapData room2) (slice_last 30 (chatHistory room2))) in
            let out3 :=
              broadcast s3 (Some rid) (player_joined (players room2 !! pid))
                (Some ws) in
            let sysMsg := joined_msg playerName (now e) in
            let room3 := set_chatHistory room2 (chatHistory room2 ++ [sysMsg]) in
            let s4 := set_rooms s3 (<[rid := room3]> (rooms s3)) in
            let out4 := broadcast s4 (Some rid) (chat_out sysMsg) None in
            Ok (s4, out1 ++ out2 ++ out3 ++ out4)
        end
  end.

(** [case 'move']. *)
Definition case_move (s : Server) (ws : nat) (pid : string)
    (info : option ClientInfo) (x y z rotY : Q) : Result (Server * list Sent) :=
  match info with
  | None => Throw "TypeError: Cannot read properties of undefined"
  | Some info =>
      match rooms s !! prop_key (roomId info) with
      | None => Ok (s, [])
      | Some room =>
          match players room !! pid with
          | None => Ok (s, [])
          | Some p =>
              let room' :=
                set_players room
                  (<[pid := set_position p x y z rotY]> (players room)) in
              let s1 := set_rooms s (<[prop_key (roomId info) := room']> (rooms s)) in
              Ok (s1, broadcast s1 (roomId info) (player_moved pid x y z rotY)
                        (Some ws))
          end
      end
  end.

(** [case 'chat']. *)
Definition case_chat (s : Server) (ws : nat) (pid : string)
    (info : option ClientInfo) (mtext : option string) (e : Env)
  : Result (Server * list Sent) :=
  match info with
  | None => Throw "TypeError: Cannot read properties of undefined"
  | Some info =>
      match rooms s !! prop_key (roomId info) with
      | None => Ok (s, [])
      | Some room =>
          let chatMsg :=
            mkChat (name info) (chat_color room pid)
                   (slice0 200 (String_of mtext)) (now e) in
          let room' := set_chatHistory room (push_trim (chatHistory room) chatMsg) in
          let s1 := set_rooms s (<[prop_key (roomId info) := room']> (rooms s)) in
          Ok (s1, broadcast s1 (roomId info) (chat_out chatMsg) None)
      end
  end.

(** [case 'place_block']. *)
Definition case_place_block (s : Server) (ws : nat)
    (info : option ClientInfo) (x y z : Z) (blockType : string)
  : Result (Server * list Sent) :=
  match info with
  | None => Throw "TypeError: Cannot read properties of undefined"
  | Some info =>
      match rooms s !! prop_key (roomId info) with
      | None => Ok (s, [])
      | Some room =>
          match mapData room with
          | None => Throw "TypeError: room.mapData.filter is not a function"
          | Some l =>
              let room' := set_mapData room (Some (place l x y z blockType)) in
              let s1 := set_rooms s (<[prop_key (roomId info) := room']> (rooms s)) in
              Ok (s1, broadcast s1 (roomId info) (block_update x y z blockType)
                        None)
          end
      end
  end.

(** [case 'script_run']. *)
Definition case_script_run (s : Server) (ws : nat)
    (info : option ClientInfo) (code : option string)
  : Result (Server * list Sent) :=
  match info with
  | None => Throw "TypeError: Cannot read properties of undefined"
  | Some info =>
      match rooms s !! prop_key (roomId info) with
      | None => Ok (s, [])
      | Some room =>
          match code with
          | None => Throw "TypeError: Cannot read properties of undefined"
          | Some c => Ok (s, sendTo s ws (script_output c (name info)))
          end
      end
  end.

(** [case 'save_map']. *)
Definition case_save_map (s : Server) (ws : nat)
    (info : option ClientInfo) (md : option (list Block))
  : Result (Server * list Sent) :=
  match info with
  | None => Throw "TypeError: Cannot read properties of undefined"
  | Some info =>
      match rooms s !! prop_key (roomId info) with
      | None => Ok (s, [])
      | Some room =>
          let room' := set_mapData room md in
          let s1 := set_rooms s (<[prop_key (roomId info) := room']> (rooms s)) in
          Ok (s1, broadcast s1 (roomId info) (map_reload md) None
                    ++ sendTo s1 ws
                         (info_out "Map saved and synced to all players!"))
      end
  end.

(** [ws.on('message', ...)] of the socket [ws], whose closure holds [pid]. *)
Definition on_message (s : Server) (ws : nat) (pid : string) (raw : Payload)
    (e : Env) : Result (Server * list Sent) :=
  match raw with
  | unparseable => Ok (s, [])
  | json_null => Throw "TypeError: Cannot read properties of null"
  | parsed m =>
      let info := clients s !! ws_key ws in
      match m with
      | join_room rid mname mcolor => case_join_room s ws pid info rid mname mcolor e
      | move x y z rotY => case_move s ws pid info x y z rotY
      | chat mtext => case_chat s ws pid info mtext e
      | place_block x y z blockType => case_place_block s ws info x y z blockType
      | script_run code => case_script_run s ws info code
      | save_map md => case_save_map s ws info md
      | ping => Ok (s, sendTo s ws (pong (now e)))
      | other_type => Ok (s, [])
      end
  end.

(** [wss.on('connection', ...)] for a new socket [ws]; [uuid] is the result
    of [uuidv4()]. *)
Definition on_connection (s : Server) (ws : nat) (uuid : string)
  : Server * list Sent :=
  let s1 :=
    mkServer (rooms s)
      (<[ws_key ws := mkInfo uuid None "Player"]> (clients s))
      (wss_clients s ++ [mkSock ws uuid OPEN]) in
  (s1, sendTo s1 ws (welcome uuid (room_list s1))).

(** *** Events *)

Definition set_sockets (s : Server) (l : list Sock) : Server :=
  mkServer (rooms s) (clients s) l.

(** One event.  Events of a socket that does not exist, and a second
    [connection] of an existing one, do not occur and are skipped.  When
    [close] or [error] is emitted the socket has already left the [OPEN]
    state. *)
Definition step (s : Server) (ev : Event) : Result (Server * list Sent) :=
  match ev with
  | connection ws uuid =>
      match find_sock ws (wss_clients s) with
      | Some _ => Ok (s, [])
      | None => Ok (on_connection s ws uuid)
      end
  | message ws raw e =>
      match find_sock ws (wss_clients s) with
      | Some k => on_message s ws (sock_playerId k) raw e
      | None => Ok (s, [])
      end
  | close ws t =>
      match find_sock ws (wss_clients s) with
      | Some _ => Ok (leaveRoom (set_sockets s (set_ready CLOSED ws (wss_clients s))) ws t)
      | None => Ok (s, [])
      end
  | error ws t =>
      match find_sock ws (wss_clients s) with
      | Some k =>
          let st := match readyState k with OPEN => CLOSING | st => st end in
          Ok (leaveRoom (set_sockets s (set_ready st ws (wss_clients s))) ws t)
      | None => Ok (s, [])
      end
  end.

(** A sequence of events, with everything sent along the way. *)
Fixpoint run (s : Server) (evs : list Event) : Result (Server * list Sent) :=
  match evs with
  | [] => Ok (s, [])
  | ev :: evs' =>
      match step s ev with
      | Throw x => Throw x
      | Ok (s1, out1) =>
          match run s1 evs' with
          | Throw x => Throw x
          | Ok (s2, out2) => Ok (s2, out1 ++ out2)
          end
      end
  end.

(** *** Vocabulary of the statements *)

(** The session the registry resolves a socket to. *)
Definition session (s : Server) (ws : nat) : option ClientInfo :=
  clients s !! ws_key ws.

(** No room holds more players than its capacity. *)
Definition capacity_ok (s : Server) : Prop :=
  forall rid room, rooms s !! rid = Some room ->
    (size (players room) <= maxPlayers room)%nat.

(** The roster is the seeded one. *)
Definition roster_ok (s : Server) : Prop :=
  forall rid, is_Some (rooms s !! rid) <-> In rid room_ids.

Definition inv (s : Server) : Prop := capacity_ok s /\ roster_ok s.

(** A session names no room or a room of the roster; the lookups
    [rooms[info.roomId]] therefore never reach an inherited property. *)
Definition sessions_ok (s : Server) : Prop :=
  forall k info rid,
    clients s !! k = Some info -> roomId info = Some rid -> In rid room_ids.

(** The registry resolves socket [w] to a session that names room [rid]. *)
Definition registered (s : Server) (w : nat) (rid : string) : Prop :=
  exists info, session s w = Some info /\ roomId info = Some rid.

(** Socket [w] is one of [wss.clients] and is [OPEN]. *)
Definition open_socket (s : Server) (w : nat) : Prop :=
  exists k, In k (wss_clients s) /\ ws_of k = w /\ is_open k = true.

(** The sockets a broadcast to room [rid] reaches when nobody is excluded. *)
Definition recipients (s : Server) (rid : string) : list nat :=
  map ws_of (List.filter (receives s (Some rid) None) (wss_clients s)).

(** The states the server can be in. *)
Definition reachable (s : Server) : Prop :=
  exists rnd t evs out, run (init rnd t) evs = Ok (s, out).

(** *** Concrete runs *)

Definition state_of (r : Result (Server * list Sent)) : Server :=
  match r with
  | Ok (s, _) => s
  | Throw _ => init half 0
  end.

Definition sent_of (r : Result (Server * list Sent)) : list Sent :=
  match r with
  | Ok (_, out) => out
  | Throw _ => []
  end.

(** [n] sockets connect one after the other and each joins ["room_1"]. *)
Definition fill (n : nat) : list Event :=
  w ← seq 1 n; [connection w (uuid w); message w join1 env0].

Definition full_state : Server := state_of (run (init half 0) (fill 20)).

(** Two connections, both in ["room_1"]. *)
Definition pair_state : Server := state_of (run (init half 0) (fill 2)).

(** One connection, in ["room_1"]. *)
Definition solo_state : Server := state_of (run (init half 0) (fill 1)).

(** One connection joins and chats 99 times; then a second one joins. *)
Definition chat_flood : list Event :=
  fill 1 ++ repeat (message 1 (parsed (chat (Some "hi"))) env0) 99
         ++ [connection 2 (uuid 2); message 2 join1 env0].

(** Two connections are open and the first has joined ["room_1"]. *)
Definition ghost_state : Server := state_of (run (init half 0) one_joins).





Definition fresh_state : Server :=
  state_of (run (init half 0) [connection 1 (uuid 1)]).

(** [room1] is [room] after some players left it. *)
Definition shrunk (room room1 : Room) : Prop :=
  maxPlayers room1 = maxPlayers room /\
  (size (players room1) <= size (players room))%nat.

(** *** Further vocabulary *)






(** What no handler changes in a room. *)
Definition same_meta (room room' : Room) : Prop :=
  r_id room' = r_id room /\ r_name room' = r_name room /\
  maxPlayers room' = maxPlayers room /\ scripts room' = scripts room /\
  created room' = created room.

(** [s'] has the rooms of [s], under the same keys. *)
Definition rooms_frame (s s' : Server) : Prop :=
  forall rid,
    match rooms s !! rid with
    | Some room =>
        exists room', rooms s' !! rid = Some room' /\ same_meta room room'
    | None => rooms s' !! rid = None
    end.

(** The seeding loop gives room [rid] the name [nm]. *)
Definition seeded (rid nm : string) : Prop :=
  In (rid, nm) (zip room_ids room_names).

(** Two connections have joined ["room_1"] one after the other; the
    second join has emptied the registry. *)
Definition lost_state : Server := state_of (run (init half 0) both_join).

End ServerJs.

(** ** The variant of the server whose [clients] table is a [Map] *)

Module ServerMap.

Record Server := mkServer {
  rooms : gmap string Room;
  clients : gmap nat ClientInfo;
  wss_clients : list Sock;
}.

Definition decos : list string :=
  ["sand"; "snow"; "lava"; "metal"; "glass"; "leaf"].

Definition buildDefaultMap (rnd : nat -> Q) : list Block :=
  (x ← seqZ (-20) 40; z ← seqZ (-20) 40; [mkBlock x 0 z "grass"]) ++
  (x ← seqZ (-4) 9; z ← seqZ (-4) 9; [mkBlock x 1 z "stone"]) ++
  (i ← seqZ (-3) 7;
     [mkBlock i 2 (-4) "brick"; mkBlock i 2 4 "brick";
      mkBlock (-4) 2 i "brick"; mkBlock 4 2 i "brick"]) ++
  (y ← seqZ 1 6;
     [mkBlock 8 y 8 "wood"; mkBlock 9 y 8 "wood";
      mkBlock 8 y 9 "wood"; mkBlock 9 y 9 "wood"]) ++
  (i ← seq 0 30;
     [mkBlock (Math_floor (rnd (2 * i)%nat * 30 - 15)%Q) 1
              (Math_floor (rnd (2 * i + 1)%nat * 30 - 15)%Q)
              (nth (i mod 6)%nat decos "undefined")]).

Definition makeRoom (id nm : string) (maxP : nat) (rnd : nat -> Q) : Room :=
  {| r_id := id; r_name := nm; maxPlayers := maxP; players := ∅;
     mapData := Some (buildDefaultMap rnd); scripts := None;
     chatHistory := []; created := None |}.

Definition seed_rooms (rnd : nat -> Q) : gmap string Room :=
  list_to_map
    (imap (fun i '(id, nm) =>
             (id, makeRoom id nm 20 (fun k => rnd (60 * i + k)%nat)))
          (zip room_ids room_names)).

Definition init (rnd : nat -> Q) : Server :=
  {| rooms := seed_rooms rnd; clients := ∅; wss_clients := [] |}.

Definition room_list (s : Server) : list RoomSummary :=
  (fun kv => summary (snd kv)) <$> map_to_list (rooms s).

Definition receives (s : Server) (rid : option string) (skipWs : option nat)
    (k : Sock) : bool :=
  negb (match skipWs with Some w => Nat.eqb (ws_of k) w | None => false end)
  && is_open k
  && match clients s !! ws_of k with
     | Some info => bool_decide (roomId info = rid)
     | None => false
     end.

Definition broadcast (s : Server) (rid : option string) (msg : OutMsg)
    (skipWs : option nat) : list Sent :=
  map (fun k => (ws_of k, msg))
      (List.filter (receives s rid skipWs) (wss_clients s)).

Definition sendTo (s : Server) (ws : nat) (msg : OutMsg) : list Sent :=
  match find_sock ws (wss_clients s) with
  | Some k => if is_open k then [(ws, msg)] else []
  | None => []
  end.

Definition set_rooms (s : Server) (rs : gmap string Room) : Server :=
  mkServer rs (clients s) (wss_clients s).

Definition set_clients (s : Server) (cs : gmap nat ClientInfo) : Server :=
  mkServer (rooms s) cs (wss_clients s).

Definition set_sockets (s : Server) (l : list Sock) : Server :=
  mkServer (rooms s) (clients s) l.

Definition left_msg (nm : string) (t : Z) : ChatEntry :=
  mkChat "System" "#ff6b35" (nm +:+ " left.") t.

(** [doLeave(ws, info)]; [info] is the object stored in [clients] under
    [ws], so the final assignment [info.roomId = null] is an update of
    that entry. *)
Definition doLeave (s : Server) (ws : nat) (info : option ClientInfo) (t : Z)
  : Server * list Sent :=
  match info with
  | None => (s, [])
  | Some info =>
      if negb (truthy (roomId info)) then (s, [])
      else
        match rooms s !! prop_key (roomId info) with
        | None => (s, [])
        | Some room =>
            let sysMsg := left_msg (name info) t in
            let room' :=
              set_chatHistory
                (set_players room (delete (playerId info) (players room)))
                (chatHistory room ++ [sysMsg]) in
            let s1 := set_rooms s (<[prop_key (roomId info) := room']> (rooms s)) in
            let out :=
              broadcast s1 (Some (r_id room)) (player_left (playerId info)) None
              ++ broadcast s1 (Some (r_id room)) (chat_out sysMsg) None in
            (set_clients s1
               (<[ws := mkInfo (playerId info) None (name info)]> (clients s1)),
             out)
        end
  end.

Definition joined_msg (nm : string) (t : Z) : ChatEntry :=
  mkChat "System" "#00e5ff" (nm +:+ " joined!") t.

(** The object bound to [const room = rooms[k]], read in a later state. *)
Definition deref (s : Server) (k : string) (room : Room) : Room :=
  default room (rooms s !! k).

(** [case 'join_room']. *)
Definition case_join_room (s : Server) (ws : nat) (info : ClientInfo)
    (rid : string) (mname mcolor : option string) (e : Env)
  : Result (Server * list Sent) :=
  match rooms s !! rid with
  | None =>
      if inherited rid
      then Throw "TypeError: Cannot convert undefined or null to object"
      else Ok (s, sendTo s ws (error_out "Room not found"))
  | Some room =>
      if (maxPlayers room <=? size (players room))%nat
      then Ok (s, sendTo s ws (error_out "Room full"))
      else
        let '(s1, out1) :=
          if truthy (roomId info) then doLeave s ws (Some info) (now e)
          else (s, []) in
        let nm := slice0 24 (or_else mname "Player") in
        let color := or_else mcolor "#00e5ff" in
        let s2 :=
          set_clients s1 (<[ws := mkInfo (playerId info) (Some rid) nm]> (clients s1)) in
        let room1 := deref s2 rid room in
        let player :=
          mkPlayer (playerId info) nm color (spawn (random e 0%nat)) 2
                   (spawn (random e 1%nat)) 0 None None in
        let room2 :=
          set_players room1 (<[playerId info := player]> (players room1)) in
        let s3 := set_rooms s2 (<[rid := room2]> (rooms s2)) in
        let out2 :=
          sendTo s3 ws
            (room_joined (r_id room2) (r_name room2) (playerId info)
               (players room2) (mapData room2)
               (slice_last 40 (chatHistory room2))) in
        let out3 :=
          broadcast s3 (Some (r_id room2))
            (player_joined (players room2 !! playerId info)) (Some ws) in
        let sysMsg := joined_msg nm (now e) in
        let room3 := set_chatHistory room2 (chatHistory room2 ++ [sysMsg]) in
        let s4 := set_rooms s3 (<[rid := room3]> (rooms s3)) in
        let out4 := broadcast s4 (Some (r_id room3)) (chat_out sysMsg) None in
        Ok (s4, out1 ++ out2 ++ out3 ++ out4)
  end.

(** [case 'move']; [+msg.x || 0] is the identity on a number. *)
Definition case_move (s : Server) (ws : nat) (info : ClientInfo)
    (x y z rotY : Q) : Result (Server * list Sent) :=
  if negb (truthy (roomId info)) then Ok (s, [])
  else
    match rooms s !! prop_key (roomId info) with
    | None => Ok (s, [])
    | Some room =>
        match players room !! playerId info with
        | None => Ok (s, [])
        | Some p =>
            let room' :=
              set_players room
                (<[playerId info := set_position p x y z rotY]> (players room)) in
            let s1 := set_rooms s (<[prop_key (roomId info) := room']> (rooms s)) in
            Ok (s1, broadcast s1 (roomId info)
                      (player_moved (playerId info) x y z rotY) (Some ws))
        end
    end.

(** [case 'chat']. *)
Definition case_chat (s : Server) (ws : nat) (info : ClientInfo)
    (mtext : option string) (e : Env) : Result (Server * list Sent) :=
  if negb (truthy (roomId info)) then Ok (s, [])
  else
    match rooms s !! prop_key (roomId info) with
    | None => Throw "TypeError: Cannot read properties of undefined"
    | Some room =>
        let chatMsg :=
          mkChat (name info) (chat_color room (playerId info))
                 (slice0 200 (or_else mtext "")) (now e) in
        let room' := set_chatHistory room (push_trim (chatHistory room) chatMsg) in
        let s1 := set_rooms s (<[prop_key (roomId info) := room']> (rooms s)) in
        Ok (s1, broadcast s1 (roomId info) (chat_out chatMsg) None)
    end.

(** [case 'place_block']. *)
Definition case_place_block (s : Server) (ws : nat) (info : ClientInfo)
    (x y z : Z) (blockType : string) : Result (Server * list Sent) :=
  if negb (truthy (roomId info)) then Ok (s, [])
  else
    match rooms s !! prop_key (roomId info) with
    | None => Throw "TypeError: Cannot read properties of undefined"
    | Some room =>
        match mapData room with
        | None => Throw "TypeError: room.mapData.filter is not a function"
        | Some l =>
            let room' := set_mapData room (Some (place l x y z blockType)) in
            let s1 := set_rooms s (<[prop_key (roomId info) := room']> (rooms s)) in
            Ok (s1, broadcast s1 (roomId info) (block_update x y z blockType) None)
        end
    end.

(** [case 'save_map']; [Array.isArray] holds of [Some _] only. *)
Definition case_save_map (s : Server) (ws : nat) (info : ClientInfo)
    (md : option (list Block)) : Result (Server * list Sent) :=
  if negb (truthy (roomId info)) || negb (bool_decide (is_Some md))
  then Ok (s, [])
  else
    match rooms s !! prop_key (roomId info) with
    | None => Throw "TypeError: Cannot set properties of undefined"
    | Some room =>
        let s1 :=
          set_rooms s (<[prop_key (roomId info) := set_mapData room md]> (rooms s)) in
        Ok (s1, broadcast s1 (roomId info) (map_reload md) None
                  ++ sendTo s1 ws (info_out "Map synced to all players!"))
    end.

(** [ws.on('message', ...)]. *)
Definition on_message (s : Server) (ws : nat) (raw : Payload) (e : Env)
  : Result (Server * list Sent) :=
  match raw with
  | unparseable => Ok (s, [])
  | json_null =>
      match clients s !! ws with
      | None => Ok (s, [])
      | Some _ => Throw "TypeError: Cannot read properties of null"
      end
  | parsed m =>
      match clients s !! ws with
      | None => Ok (s, [])
      | Some info =>
          match m with
          | join_room rid mname mcolor => case_join_room s ws info rid mname mcolor e
          | move x y z rotY => case_move s ws info x y z rotY
          | chat mtext => case_chat s ws info mtext e
          | place_block x y z blockType => case_place_block s ws info x y z blockType
          | save_map md => case_save_map s ws info md
          | script_run code =>
              Ok (s, sendTo s ws (script_output (or_else code "") (name info)))
          | ping => Ok (s, sendTo s ws (pong (now e)))
          | other_type => Ok (s, [])
          end
      end
  end.

(** [wss.on('connection', ...)]. *)
Definition on_connection (s : Server) (ws : nat) (uuid : string)
  : Server * list Sent :=
  let s1 :=
    mkServer (rooms s) (<[ws := mkInfo uuid None "Player"]> (clients s))
             (wss_clients s ++ [mkSock ws uuid OPEN]) in
  (s1, sendTo s1 ws (welcome uuid (room_list s1))).

(** [ws.on('close', ...)]. *)
Definition on_close (s : Server) (ws : nat) (t : Z) : Server * list Sent :=
  let '(s1, out) := doLeave s ws (clients s !! ws) t in
  (set_clients s1 (delete ws (clients s1)), out).

(** One event; [ws.on('error', ...)] only logs. *)
Definition step (s : Server) (ev : Event) : Result (Server * list Sent) :=
  match ev with
  | connection ws uuid =>
      match find_sock ws (wss_clients s) with
      | Some _ => Ok (s, [])
      | None => Ok (on_connection s ws uuid)
      end
  | message ws raw e =>
      match find_sock ws (wss_clients s) with
      | Some _ => on_message s ws raw e
      | None => Ok (s, [])
      end
  | close ws t =>
      match find_sock ws (wss_clients s) with
      | Some _ => Ok (on_close (set_sockets s (set_ready CLOSED ws (wss_clients s))) ws t)
      | None => Ok (s, [])
      end
  | error ws t =>
      match find_sock ws (wss_clients s) with
      | Some k =>
          let st := match readyState k with OPEN => CLOSING | st => st end in
          Ok (set_sockets s (set_ready st ws (wss_clients s)), [])
      | None => Ok (s, [])
      end
  end.

Fixpoint run (s : Server) (evs : list Event) : Result (Server * list Sent) :=
  match evs with
  | [] => Ok (s, [])
  | ev :: evs' =>
      match step s ev with
      | Throw x => Throw x
      | Ok (s1, out1) =>
          match run s1 evs' with
          | Throw x => Throw x
          | Ok (s2, out2) => Ok (s2, out1 ++ out2)
          end
      end
  end.

(** The sockets a broadcast to room [rid] reaches when nobody is skipped. *)
Definition recipients (s : Server) (rid : string) : list nat :=
  map ws_of (List.filter (receives s (Some rid) None) (wss_clients s)).

Definition state_of (r : Result (Server * list Sent)) : Server :=
  match r with
  | Ok (s, _) => s
  | Throw _ => init half
  end.

(** *** Vocabulary of the statements *)

(** The results of [uuidv4()] over a sequence of events. *)
Definition connection_ids (evs : list Event) : list string :=
  omap (fun ev => match ev with connection _ u => Some u | _ => None end) evs.

(** The registry and the rooms agree: sessions have distinct player ids
    and belong to connected sockets, a session that names a room has its
    player in that room, every player of a room is the player of a session
    that names the room, and the rooms are the seeded ones, within their
    capacity and with an array for a map. *)
Record consistent (s : Server) : Prop := {
  ids_inj : forall w1 w2 i1 i2,
    clients s !! w1 = Some i1 -> clients s !! w2 = Some i2 ->
    playerId i1 = playerId i2 -> w1 = w2;
  sessions_placed : forall ws info rid,
    clients s !! ws = Some info -> roomId info = Some rid ->
    exists room, rooms s !! rid = Some room /\
                 is_Some (players room !! playerId info);
  players_owned : forall rid room pid,
    rooms s !! rid = Some room -> is_Some (players room !! pid) ->
    exists ws info, clients s !! ws = Some info /\ playerId info = pid /\
                    roomId info = Some rid;
  rooms_wf : forall rid room,
    rooms s !! rid = Some room ->
    r_id room = rid /\ In rid room_ids /\
    (size (players room) <= maxPlayers room)%nat /\ is_Some (mapData room);
  roster_full : forall rid, In rid room_ids -> is_Some (rooms s !! rid);
  sessions_connected : forall ws,
    is_Some (clients s !! ws) -> is_Some (find_sock ws (wss_clients s));
}.

Definition sent_of (r : Result (Server * list Sent)) : list Sent :=
  match r with
  | Ok (_, out) => out
  | Throw _ => []
  end.

(** Two connections, both in ["room_1"]. *)
Definition pair_state : Server := state_of (run (init half) both_join).

(** Two connections, the first in ["room_1"], the second in no room. *)
Definition lone_state : Server := state_of (run (init half) one_joins).

End ServerMap.

(** ** The word-game server of [part_000]

    A socket.io server with two tables of rooms, [battleRooms] and
    [raceRooms], keyed by generated room ids.  Each handler is a function
    of the tables, the id of the socket it is attached to and the fields
    of the payload; what it emits is the list of its calls of [emit],
    [join] and [leave], in order.

    - A table is a [gmap] of its own properties.  A key chosen by a client
      that is no own property but names a property of [Object.prototype]
      reaches that inherited object, which has none of the fields of a
      room: the handler then raises where it reads a field of an undefined
      field, and returns where it only tests one.  [battle:win] writes
      [winner] to the inherited object, which is no part of the tables:
      its outcome is [Beyond].
    - [room.players] of a race room is an association list in insertion
      order, the order [Object.entries] enumerates the socket ids in (a
      socket id is no array index).
    - [Array.prototype.sort] is stable; with a comparator that is a
      consistent ordering its result is the one of a stable insertion
      sort.
    - The [disconnect] handler, which walks both tables in their
      enumeration order, is not part of the model. *)

Module WordGame.

Definition chars : string := "ABCDEFGHJKLMNPQRSTUVWXYZ23456789".

(** [id += chars[i]]: what indexing appends, ["undefined"] out of range. *)
Definition char_at (i : Z) : string :=
  if i <? 0 then "undefined"
  else match String.get (Z.to_nat i) chars with
       | Some c => String c ""
       | None => "undefined"
       end.

(** The loop of [makeId] from iteration [i], with [n] iterations to go;
    [rnd i] is the draw of iteration [i]. *)
Fixpoint makeId_from (rnd : nat -> Q) (i n : nat) (id : string) : string :=
  match n with
  | O => id
  | S n' =>
      makeId_from rnd (S i) n'
        (id +:+ char_at (Math_floor (rnd i * 32)%Q))
  end.

Definition makeId (rnd : nat -> Q) (len : nat) : string :=
  makeId_from rnd 0 len "".

Record BattlePlayer := mkBattlePlayer {
  bp_id : string;
  bp_name : string;
  bp_word : option string;
}.

Record BattleRoom := mkBattleRoom {
  p1 : BattlePlayer;
  p2 : option BattlePlayer;
  b_winner : option string;
  b_lang : string;
}.

Record RacePlayer := mkRacePlayer {
  rp_name : string;
  rp_won : bool;
  rp_guesses : Z;
}.

Record RaceWinner := mkRaceWinner {
  w_id : string;
  w_name : string;
  w_guesses : Z;
}.

Record RaceRoom := mkRaceRoom {
  solution : string;
  r_lang : string;
  r_winner : option RaceWinner;
  hostId : string;
  r_players : list (string * RacePlayer);
}.

Record Tables := mkTables {
  battleRooms : gmap string BattleRoom;
  raceRooms : gmap string RaceRoom;
}.

(** An element of the array [getPlayerList] returns: [{ id, ...p }]. *)
Record Entry := mkEntry {
  e_id : string;
  e_name : string;
  e_won : bool;
  e_guesses : Z;
}.

Inductive Emit :=
| battle_created (roomId role : string)
| battle_error (text : string)
| battle_joined (roomId role lang : string)
| battle_opponent_joined (nm : string)
| battle_enter_word
| battle_word_locked
| battle_start (yourWord guessWord : option string) (opponentName : string)
| battle_result (winnerId : string) (winnerName : option string)
| battle_opponent_left
| race_created (roomId : string)
| race_error (text : string)
| race_joined (sol lang : string)
| race_players (l : list Entry)
| race_winner (w : RaceWinner)
| race_restarted (sol lang : string).

(** [socket.emit], [io.to(id).emit] for a socket id and for a room id,
    [socket.join] and [socket.leave]. *)
Inductive Action :=
| to_self (e : Emit)
| to_socket (id : string) (e : Emit)
| to_room (roomId : string) (e : Emit)
| socket_join (roomId : string)
| socket_leave (roomId : string).

Inductive Outcome :=
| Done (s : Tables) (acts : list Action)
| Raise (e : string)
| Beyond.

(** *** Objects used as ordered dictionaries *)

Definition obj_get {A} (k : string) (l : list (string * A)) : option A :=
  snd <$> List.find (fun kv => String.eqb (fst kv) k) l.

Fixpoint obj_set {A} (k : string) (v : A) (l : list (string * A))
  : list (string * A) :=
  match l with
  | [] => [(k, v)]
  | kv :: l' =>
      if String.eqb (fst kv) k then (k, v) :: l' else kv :: obj_set k v l'
  end.

Definition obj_delete {A} (k : string) (l : list (string * A))
  : list (string * A) :=
  List.filter (fun kv => negb (String.eqb (fst kv) k)) l.

(** *** [getPlayerList] *)

Definition entry_of (kv : string * RacePlayer) : Entry :=
  mkEntry (fst kv) (rp_name (snd kv)) (rp_won (snd kv)) (rp_guesses (snd kv)).

(** [g || 99]. *)
Definition or_99 (g : Z) : Z := if g =? 0 then 99 else g.

(** The comparator passed to [sort]. *)
Definition compare (a b : Entry) : Z :=
  if e_won a && negb (e_won b) then -1
  else if negb (e_won a) && e_won b then 1
  else or_99 (e_guesses a) - or_99 (e_guesses b).

Fixpoint insert_sorted (x : Entry) (l : list Entry) : list Entry :=
  match l with
  | [] => [x]
  | y :: l' => if compare x y <=? 0 then x :: l else y :: insert_sorted x l'
  end.

Definition sort (l : list Entry) : list Entry := fold_right insert_sorted [] l.

Definition getPlayerList (room : RaceRoom) : list Entry :=
  sort (map entry_of (r_players room)).

(** *** Battle mode *)

Definition set_battle (s : Tables) (m : gmap string BattleRoom) : Tables :=
  mkTables m (raceRooms s).

Definition set_race (s : Tables) (m : gmap string RaceRoom) : Tables :=
  mkTables (battleRooms s) m.

Definition set_word (p : BattlePlayer) (w : option string) : BattlePlayer :=
  mkBattlePlayer (bp_id p) (bp_name p) w.

(** The messages of the [TypeError]s the handlers can raise. *)
Definition read_undefined : string :=
  "TypeError: Cannot read properties of undefined".

Definition write_undefined : string :=
  "TypeError: Cannot set properties of undefined".

Definition write_null : string :=
  "TypeError: Cannot set properties of null".

(** [socket.on("battle:create")]; [rnd] are the draws of [makeId(5)]. *)
Definition battle_create (s : Tables) (sid nm lang : string) (rnd : nat -> Q)
  : Outcome :=
  let roomId := makeId rnd 5 in
  let room := mkBattleRoom (mkBattlePlayer sid nm None) None None lang in
  Done (set_battle s (<[roomId := room]> (battleRooms s)))
       [socket_join roomId; to_self (battle_created roomId "p1")].

(** [socket.on("battle:join")]. *)
Definition battle_join (s : Tables) (sid roomId nm : string) : Outcome :=
  match battleRooms s !! roomId with
  | None =>
      if inherited roomId then Raise read_undefined
      else Done s [to_self (battle_error "Room tidak ditemukan!")]
  | Some room =>
      match p2 room with
      | Some _ => Done s [to_self (battle_error "Room sudah penuh!")]
      | None =>
          let room' :=
            mkBattleRoom (p1 room) (Some (mkBattlePlayer sid nm None))
              (b_winner room) (b_lang room) in
          Done (set_battle s (<[roomId := room']> (battleRooms s)))
               [socket_join roomId;
                to_self (battle_joined roomId "p2" (b_lang room));
                to_socket (bp_id (p1 room)) (battle_opponent_joined nm);
                to_room roomId battle_enter_word]
      end
  end.

(** [socket.on("battle:set_word")]. *)
Definition battle_set_word (s : Tables) (sid roomId : string)
    (word : option string) : Outcome :=
  match battleRooms s !! roomId with
  | None =>
      if inherited roomId then Done s [to_self battle_word_locked]
      else Done s []
  | Some room =>
      let room' :=
        if String.eqb (bp_id (p1 room)) sid
        then mkBattleRoom (set_word (p1 room) word) (p2 room) (b_winner room)
               (b_lang room)
        else match p2 room with
             | Some q =>
                 if String.eqb (bp_id q) sid
                 then mkBattleRoom (p1 room) (Some (set_word q word))
                        (b_winner room) (b_lang room)
                 else room
             | None => room
             end in
      let started :=
        match p2 room' with
        | Some q =>
            if truthy (bp_word (p1 room')) && truthy (bp_word q)
            then [to_socket (bp_id (p1 room'))
                    (battle_start (bp_word (p1 room')) (bp_word q) (bp_name q));
                  to_socket (bp_id q)
                    (battle_start (bp_word q) (bp_word (p1 room'))
                       (bp_name (p1 room')))]
            else []
        | None => []
        end in
      Done (set_battle s (<[roomId := room']> (battleRooms s)))
           (to_self battle_word_locked :: started)
  end.

(** [socket.on("battle:win")]. *)
Definition battle_win (s : Tables) (sid roomId : string) : Outcome :=
  match battleRooms s !! roomId with
  | None => if inherited roomId then Beyond else Done s []
  | Some room =>
      if truthy (b_winner room) then Done s []
      else
        let room' := mkBattleRoom (p1 room) (p2 room) (Some sid) (b_lang room) in
        let winnerName :=
          if String.eqb (bp_id (p1 room)) sid then Some (bp_name (p1 room))
          else bp_name <$> p2 room in
        Done (set_battle s (<[roomId := room']> (battleRooms s)))
             [to_room roomId (battle_result sid winnerName)]
  end.

(** [socket.on("battle:restart")]. *)
Definition battle_restart (s : Tables) (sid roomId : string) : Outcome :=
  match battleRooms s !! roomId with
  | None => if inherited roomId then Raise write_undefined else Done s []
  | Some room =>
      match p2 room with
      | None => Raise write_null
      | Some q =>
          let room' :=
            mkBattleRoom (set_word (p1 room) None) (Some (set_word q None))
              None (b_lang room) in
          Done (set_battle s (<[roomId := room']> (battleRooms s)))
               [to_room roomId battle_enter_word]
      end
  end.

(** [socket.on("battle:leave")]. *)
Definition battle_leave (s : Tables) (sid roomId : string) : Outcome :=
  match battleRooms s !! roomId with
  | None =>
      if inherited roomId
      then Done s [to_room roomId battle_opponent_left; socket_leave roomId]
      else Done s [socket_leave roomId]
  | Some _ =>
      Done (set_battle s (delete roomId (battleRooms s)))
           [to_room roomId battle_opponent_left; socket_leave roomId]
  end.

(** *** Race mode *)

Definition set_players (room : RaceRoom) (ps : list (string * RacePlayer))
  : RaceRoom :=
  mkRaceRoom (solution room) (r_lang room) (r_winner room) (hostId room) ps.

(** [socket.on("race:create")]; [rnd] are the draws of [makeId(4)]. *)
Definition race_create (s : Tables) (sid nm lang sol : string)
    (rnd : nat -> Q) : Outcome :=
  let roomId := makeId rnd 4 in
  let room := mkRaceRoom sol lang None sid [(sid, mkRacePlayer nm false 0)] in
  Done (set_race s (<[roomId := room]> (raceRooms s)))
       [socket_join roomId; to_self (race_created roomId)].

(** [socket.on("race:join")]. *)
Definition race_join (s : Tables) (sid roomId nm : string) : Outcome :=
  match raceRooms s !! roomId with
  | None =>
      if inherited roomId then Raise write_undefined
      else Done s [to_self (race_error "Room tidak ditemukan!")]
  | Some room =>
      let room' :=
        set_players room (obj_set sid (mkRacePlayer nm false 0) (r_players room)) in
      Done (set_race s (<[roomId := room']> (raceRooms s)))
           [socket_join roomId;
            to_self (race_joined (solution room) (r_lang room));
            to_room roomId (race_players (getPlayerList room'))]
  end.

(** [socket.on("race:guess")]. *)
Definition race_guess (s : Tables) (sid roomId : string) : Outcome :=
  match raceRooms s !! roomId with
  | None => if inherited roomId then Raise read_undefined else Done s []
  | Some room =>
      match obj_get sid (r_players room) with
      | None => Done s []
      | Some p =>
          let room' :=
            set_players room
              (obj_set sid (mkRacePlayer (rp_name p) (rp_won p) (rp_guesses p + 1))
                 (r_players room)) in
          Done (set_race s (<[roomId := room']> (raceRooms s)))
               [to_room roomId (race_players (getPlayerList room'))]
      end
  end.

(** [socket.on("race:win")]. *)
Definition race_win (s : Tables) (sid roomId : string) (guesses : Z)
  : Outcome :=
  match raceRooms s !! roomId with
  | None => if inherited roomId then Raise read_undefined else Done s []
  | Some room =>
      match r_winner room with
      | Some _ => Done s []
      | None =>
          match obj_get sid (r_players room) with
          | None => Raise write_undefined
          | Some p =>
              let w := mkRaceWinner sid (rp_name p) guesses in
              let room' :=
                mkRaceRoom (solution room) (r_lang room) (Some w) (hostId room)
                  (obj_set sid (mkRacePlayer (rp_name p) true guesses)
                     (r_players room)) in
              Done (set_race s (<[roomId := room']> (raceRooms s)))
                   [to_room roomId (race_players (getPlayerList room'));
                    to_room roomId (race_winner w)]
          end
      end
  end.

(** [socket.on("race:restart")]. *)
Definition race_restart (s : Tables) (sid roomId sol : string) : Outcome :=
  match raceRooms s !! roomId with
  | None => Done s []
  | Some room =>
      if negb (String.eqb (hostId room) sid) then Done s []
      else
        let room' :=
          mkRaceRoom sol (r_lang room) None (hostId room)
            (map (fun kv => (fst kv, mkRacePlayer (rp_name (snd kv)) false 0))
                 (r_players room)) in
        Done (set_race s (<[roomId := room']> (raceRooms s)))
             [to_room roomId (race_restarted sol (r_lang room));
              to_room roomId (race_players (getPlayerList room'))]
  end.

(** [socket.on("race:leave")]. *)
Definition race_leave (s : Tables) (sid roomId : string) : Outcome :=
  match raceRooms s !! roomId with
  | None =>
      if inherited roomId then Raise read_undefined
      else Done s [socket_leave roomId]
  | Some room =>
      match obj_get sid (r_players room) with
      | None => Done s [socket_leave roomId]
      | Some _ =>
          let ps := obj_delete sid (r_players room) in
          match ps with
          | [] =>
              Done (set_race s (delete roomId (raceRooms s)))
                   [socket_leave roomId]
          | _ :: _ =>
              let room' := set_players room ps in
              Done (set_race s (<[roomId := room']> (raceRooms s)))
                   [to_room roomId (race_players (getPlayerList room'));
                    socket_leave roomId]
          end
      end
  end.

(** [socket.on("race:lose")]. *)
Definition race_lose (s : Tables) (sid roomId : string) : Outcome :=
  match raceRooms s !! roomId with
  | None => if inherited roomId then Raise read_undefined else Done s []
  | Some room =>
      match obj_get sid (r_players room) with
      | None => Done s []
      | Some p =>
          let room' :=
            set_players room
              (obj_set sid (mkRacePlayer (rp_name p) false 6) (r_players room)) in
          Done (set_race s (<[roomId := room']> (raceRooms s)))
               [to_room roomId (race_players (getPlayerList room'))]
      end
  end.

(** *** Vocabulary of the statements *)

(** The characters of a string. *)
Definition letters (s : string) : list ascii := list_ascii_of_string s.

(** [a] is listed no later than [b]. *)
Definition ranked (a b : Entry) : Prop := compare a b <= 0.

(** The comparator returns 0 on [a] and [b]. *)
Definition tied (a b : Entry) : bool := compare a b =? 0.

(** The socket ids of [room.players] are pairwise distinct, as the keys
    of an object are. *)
Definition keys_distinct (room : RaceRoom) : Prop :=
  NoDup (map fst (r_players room)).

(** A race room with its host and one more player, under the id
    ["ABCD"], in otherwise empty tables. *)
Definition race_two : RaceRoom :=
  mkRaceRoom "kapal" "id" None "s1"
    [("s1", mkRacePlayer "Ani" false 3); ("s2", mkRacePlayer "Budi" false 0)].

Definition race_tables : Tables := mkTables ∅ {[ "ABCD" := race_two ]}.

(** A battle room that waits for its second player, under ["QRSTU"]. *)
Definition battle_open : BattleRoom :=
  mkBattleRoom (mkBattlePlayer "s1" "Ani" None) None None "id".

Definition battle_tables : Tables := mkTables {[ "QRSTU" := battle_open ]} ∅.

End WordGame.

(** * Properties of [server.js] *)

Module ServerJsProofs.
Import ServerJs.

(** Enter the [message] handler of a socket known to [wss.clients] whose
    registry lookup is known, and open the [case] that is selected. *)
Ltac enter_handler Hk Hs :=
  cbn [step]; rewrite Hk; cbn [on_message]; rewrite Hs;
  unfold case_move, case_chat, case_place_block, case_save_map.

Lemma shrunk_refl room : shrunk room room.
Proof. split; reflexivity. Qed.

Lemma or_else_self s : or_else (Some s) "" = s.
Proof. destruct s; reflexivity. Qed.

(** [leaveRoom] when the session names a room that holds its player. *)
Lemma leaveRoom_member s ws t info room p :
  clients s !! ws_key ws = Some info -> truthy (roomId info) = true ->
  rooms s !! prop_key (roomId info) = Some room ->
  players room !! playerId info = Some p ->
  let sysMsg := left_msg (name info) t in
  let room' :=
    set_chatHistory
      (set_players room (delete (playerId info) (players room)))
      (chatHistory room ++ [sysMsg]) in
  let s1 := set_rooms s (<[prop_key (roomId info) := room']> (rooms s)) in
  leaveRoom s ws t =
    (set_clients s1 (delete (ws_key ws) (clients s)),
     broadcast s1 (roomId info) (player_left (playerId info)) None
     ++ broadcast s1 (roomId info) (chat_out sysMsg) None).
Proof.
  intros Ec Et Er Ep. unfold leaveRoom.
  rewrite Ec, Et, or_else_self. cbn [negb]. by rewrite Er, Ep.
Qed.

(** The ways [leaveRoom] can go. *)
Lemma leaveRoom_cases s ws t :
  (leaveRoom s ws t = (set_clients s (delete (ws_key ws) (clients s)), [])) \/
  (exists info room p,
      clients s !! ws_key ws = Some info /\ truthy (roomId info) = true /\
      rooms s !! prop_key (roomId info) = Some room /\
      players room !! playerId info = Some p /\
      let sysMsg := left_msg (name info) t in
      let room' :=
        set_chatHistory
          (set_players room (delete (playerId info) (players room)))
          (chatHistory room ++ [sysMsg]) in
      let s1 := set_rooms s (<[prop_key (roomId info) := room']> (rooms s)) in
      leaveRoom s ws t =
        (set_clients s1 (delete (ws_key ws) (clients s)),
         broadcast s1 (roomId info) (player_left (playerId info)) None
         ++ broadcast s1 (roomId info) (chat_out sysMsg) None)).
Proof.
  destruct (clients s !! ws_key ws) as [info|] eqn:Ec;
    [|left; unfold leaveRoom; by rewrite Ec].
  destruct (truthy (roomId info)) eqn:Et;
    [|left; unfold leaveRoom; by rewrite Ec, Et].
  destruct (rooms s !! prop_key (roomId info)) as [room|] eqn:Er;
    [|left; unfold leaveRoom; by rewrite Ec, Et, Er].
  destruct (players room !! playerId info) as [p|] eqn:Ep;
    [|left; unfold leaveRoom; by rewrite Ec, Et, or_else_self, Er, Ep].
  right. exists info, room, p. repeat (split; [done|]).
  by apply (leaveRoom_member s ws t info room p).
Qed.

(** [leaveRoom] keeps every key of [rooms] and only removes players. *)
Lemma leaveRoom_rooms s ws t rid :
  match rooms s !! rid with
  | Some room =>
      exists room1, rooms (leaveRoom s ws t).1 !! rid = Some room1 /\
                    shrunk room room1
  | None => rooms (leaveRoom s ws t).1 !! rid = None
  end.
Proof.
  destruct (leaveRoom_cases s ws t) as [->|(info & room & p & Ec & Et & Er & Ep & ->)];
    cbn [fst set_clients set_rooms rooms].
  - destruct (rooms s !! rid) eqn:E; [eexists; split; [done | apply shrunk_refl] | done].
  - destruct (decide (prop_key (roomId info) = rid)) as [<-|Hne].
    + rewrite Er, lookup_insert_eq. eexists; split; [done|].
      split; [done|]. cbn. rewrite map_size_delete, Ep. lia.
    + rewrite lookup_insert_ne by done.
      destruct (rooms s !! rid) eqn:E; [eexists; split; [done | apply shrunk_refl] | done].
Qed.

Lemma leaveRoom_sockets s ws t :
  wss_clients (leaveRoom s ws t).1 = wss_clients s.
Proof.
  by destruct (leaveRoom_cases s ws t) as [->|(info & room & p & _ & _ & _ & _ & ->)].
Qed.

Lemma leaveRoom_clients s ws t :
  clients (leaveRoom s ws t).1 = delete (ws_key ws) (clients s).
Proof.
  by destruct (leaveRoom_cases s ws t) as [->|(info & room & p & _ & _ & _ & _ & ->)].
Qed.

Lemma leaveRoom_capacity s ws t :
  capacity_ok s -> capacity_ok (leaveRoom s ws t).1.
Proof.
  intros H rid room1 E1.
  pose proof (leaveRoom_rooms s ws t rid) as L.
  destruct (rooms s !! rid) as [room|] eqn:E; [|congruence].
  destruct L as (r & Er & Hmax & Hsz). rewrite E1 in Er. injection Er as <-.
  specialize (H _ _ E). lia.
Qed.

Lemma leaveRoom_roster s ws t :
  roster_ok s -> roster_ok (leaveRoom s ws t).1.
Proof.
  intros H rid. etrans; [|apply H].
  pose proof (leaveRoom_rooms s ws t rid) as L.
  destruct (rooms s !! rid) as [room|] eqn:E.
  - destruct L as (r & -> & _). split; eauto.
  - rewrite L. done.
Qed.

(** *** Invariants of the transition function *)

Lemma update_room_capacity s k room room' :
  capacity_ok s -> rooms s !! k = Some room ->
  (size (players room') <= maxPlayers room')%nat ->
  capacity_ok (set_rooms s (<[k := room']> (rooms s))).
Proof.
  intros H E Hle rid r. cbn. rewrite lookup_insert.
  case_decide; [intros [= <-]; done | apply H].
Qed.

Lemma update_room_roster s k room' :
  roster_ok s -> is_Some (rooms s !! k) ->
  roster_ok (set_rooms s (<[k := room']> (rooms s))).
Proof.
  intros H E rid. cbn. rewrite lookup_insert_is_Some'.
  split; [intros [<-|]; by apply H | intros; right; by apply H].
Qed.

Lemma update_room_inv s k room room' :
  inv s -> rooms s !! k = Some room ->
  (size (players room') <= maxPlayers room')%nat ->
  inv (set_rooms s (<[k := room']> (rooms s))).
Proof.
  intros [H1 H2] E Hle. split;
    [by eapply update_room_capacity | by eapply update_room_roster].
Qed.

Lemma leaveRoom_inv s ws t : inv s -> inv (leaveRoom s ws t).1.
Proof.
  intros [H1 H2]. split; [by apply leaveRoom_capacity | by apply leaveRoom_roster].
Qed.

Lemma set_clients_inv s cs : inv s -> inv (set_clients s cs).
Proof. done. Qed.

Lemma set_sockets_inv s l : inv s -> inv (set_sockets s l).
Proof. done. Qed.

Lemma case_join_room_inv s ws pid info rid mname mcolor e s' out :
  inv s -> case_join_room s ws pid info rid mname mcolor e = Ok (s', out) ->
  inv s'.
Proof.
  intros Hi. unfold case_join_room.
  destruct (rooms s !! rid) as [room|] eqn:Er;
    [|destruct (inherited rid); [done | by intros [= <- _]]].
  destruct (maxPlayers room <=? size (players room))%nat eqn:Hfull;
    [by intros [= <- _]|].
  apply Nat.leb_gt in Hfull.
  destruct info as [info|]; [|done].
  set (s1o := if truthy (roomId info) then leaveRoom s ws (now e) else (s, [])).
  assert (Hi1 : inv s1o.1).
  { subst s1o. destruct (truthy (roomId info)); [by apply leaveRoom_inv | done]. }
  assert (Hr1 : exists room1, rooms s1o.1 !! rid = Some room1 /\ shrunk room room1).
  { subst s1o. destruct (truthy (roomId info)).
    - pose proof (leaveRoom_rooms s ws (now e) rid) as L. by rewrite Er in L.
    - exists room. split; [done | apply shrunk_refl]. }
  destruct s1o as [s1 out1]. cbn [fst] in *.
  destruct Hr1 as (room1 & Er1 & Hmax & Hsz).
  set (s2 := if truthy (roomId info) then s1 else set_clients s1 _).
  assert (Hrooms2 : rooms s2 = rooms s1) by (subst s2; by destruct (truthy _)).
  assert (Hi2 : inv s2) by (subst s2; by destruct (truthy _)).
  intros [= <- _].
  assert (Er2 : rooms s2 !! rid = Some room1) by (by rewrite Hrooms2).
  unfold deref. rewrite Er2. cbn [default from_option id].
  assert (Hsz2 : forall p, (size (<[pid := p]> (players room1)) <= maxPlayers room1)%nat).
  { intros p. pose proof (map_size_insert pid p (players room1)) as Hs.
    destruct (players room1 !! pid); cbn in Hs; lia. }
  match goal with
  | |- inv (set_rooms ?s3 (<[_ := ?r3]> _)) =>
      apply (update_room_inv s3 rid (set_players room1 (players r3)) r3)
  end.
  - match goal with
    | |- inv (set_rooms _ (<[_ := ?r2]> _)) =>
        apply (update_room_inv s2 rid room1 r2)
    end; [exact Hi2 | exact Er2 | apply Hsz2].
  - cbn. apply lookup_insert_eq.
  - apply Hsz2.
Qed.

Lemma case_move_inv s ws pid info x y z rotY s' out :
  inv s -> case_move s ws pid info x y z rotY = Ok (s', out) -> inv s'.
Proof.
  intros Hi. unfold case_move.
  destruct info as [info|]; [|done].
  destruct (rooms s !! prop_key (roomId info)) as [room|] eqn:Er;
    [|by intros [= <- _]].
  destruct (players room !! pid) as [p|] eqn:Ep; [|by intros [= <- _]].
  intros [= <- _]. eapply update_room_inv; [done..|].
  cbn. rewrite map_size_insert_Some by eauto. by apply Hi in Er.
Qed.

Lemma case_chat_inv s ws pid info mtext e s' out :
  inv s -> case_chat s ws pid info mtext e = Ok (s', out) -> inv s'.
Proof.
  intros Hi. unfold case_chat.
  destruct info as [info|]; [|done].
  destruct (rooms s !! prop_key (roomId info)) as [room|] eqn:Er;
    [|by intros [= <- _]].
  intros [= <- _]. eapply update_room_inv; [done..|].
  cbn. by apply Hi in Er.
Qed.

Lemma case_place_block_inv s ws info x y z bt s' out :
  inv s -> case_place_block s ws info x y z bt = Ok (s', out) -> inv s'.
Proof.
  intros Hi. unfold case_place_block.
  destruct info as [info|]; [|done].
  destruct (rooms s !! prop_key (roomId info)) as [room|] eqn:Er;
    [|by intros [= <- _]].
  destruct (mapData room) as [l|]; [|done].
  intros [= <- _]. eapply update_room_inv; [done..|].
  cbn. by apply Hi in Er.
Qed.

Lemma case_script_run_inv s ws info code s' out :
  inv s -> case_script_run s ws info code = Ok (s', out) -> inv s'.
Proof.
  intros Hi. unfold case_script_run.
  destruct info as [info|]; [|done].
  destruct (rooms s !! prop_key (roomId info)) as [room|];
    [|by intros [= <- _]].
  destruct code; [by intros [= <- _] | done].
Qed.

Lemma case_save_map_inv s ws info md s' out :
  inv s -> case_save_map s ws info md = Ok (s', out) -> inv s'.
Proof.
  intros Hi. unfold case_save_map.
  destruct info as [info|]; [|done].
  destruct (rooms s !! prop_key (roomId info)) as [room|] eqn:Er;
    [|by intros [= <- _]].
  intros [= <- _]. eapply update_room_inv; [done..|].
  cbn. by apply Hi in Er.
Qed.

Lemma on_message_inv s ws pid raw e s' out :
  inv s -> on_message s ws pid raw e = Ok (s', out) -> inv s'.
Proof.
  intros Hi. destruct raw as [| |m]; cbn; [by intros [= <- _] | done |].
  destruct m; eauto using case_join_room_inv, case_move_inv, case_chat_inv,
    case_place_block_inv, case_script_run_inv, case_save_map_inv;
    by intros [= <- _].
Qed.

Lemma step_inv s ev s' out : inv s -> step s ev = Ok (s', out) -> inv s'.
Proof.
  intros Hi. destruct ev as [ws uuid|ws raw e|ws t|ws t]; cbn;
    destruct (find_sock ws (wss_clients s)) as [k|];
    try (by intros [= <- _]).
  - by eapply on_message_inv.
  - intros [= E]. rewrite (surjective_pairing (leaveRoom _ _ _)) in E.
    injection E as <- _. by apply leaveRoom_inv.
  - intros [= E]. rewrite (surjective_pairing (leaveRoom _ _ _)) in E.
    injection E as <- _. by apply leaveRoom_inv.
Qed.

Lemma run_inv evs : forall s s' out,
  inv s -> run s evs = Ok (s', out) -> inv s'.
Proof.
  induction evs as [|ev evs IH]; intros s s' out Hi; cbn.
  - by intros [= <- _].
  - destruct (step s ev) as [[s1 out1]|] eqn:Es; [|done].
    destruct (run s1 evs) as [[s2 out2]|] eqn:Er; [|done].
    intros [= <- _]. eapply IH; [|done]. by eapply step_inv.
Qed.

Lemma seed_rooms_unfold rnd t :
  seed_rooms rnd t =
    <["room_1" := createRoom "room_1" "Main World" 20 (fun k => rnd (90 * 0 + k)%nat) t]>
   (<["room_2" := createRoom "room_2" "PvP Arena" 20 (fun k => rnd (90 * 1 + k)%nat) t]>
   (<["room_3" := createRoom "room_3" "Builder Zone" 20 (fun k => rnd (90 * 2 + k)%nat) t]>
   (<["room_4" := createRoom "room_4" "Roleplay City" 20 (fun k => rnd (90 * 3 + k)%nat) t]>
      ∅))).
Proof. reflexivity. Qed.

Lemma init_inv rnd t : inv (init rnd t).
Proof.
  split.
  - intros rid room. cbn [init rooms]. rewrite seed_rooms_unfold.
    rewrite !lookup_insert, lookup_empty.
    repeat case_decide; try done; intros [= <-]; cbn; rewrite map_size_empty; lia.
  - intros rid. cbn [init rooms]. rewrite seed_rooms_unfold.
    rewrite !lookup_insert_is_Some', lookup_empty. cbn.
    split; [intros [?|[?|[?|[?|[? ?]]]]]; try done; auto | ].
    intros [?|[?|[?|[?|[]]]]]; auto.
Qed.

Lemma leaveRoom_sessions s ws t :
  sessions_ok s -> sessions_ok (leaveRoom s ws t).1.
Proof.
  intros H k info rid. rewrite leaveRoom_clients.
  intros [_ Hc]%lookup_delete_Some Hr. by eapply H.
Qed.

Lemma case_join_room_sessions s ws pid info rid mname mcolor e s' out :
  roster_ok s -> sessions_ok s ->
  case_join_room s ws pid info rid mname mcolor e = Ok (s', out) ->
  sessions_ok s'.
Proof.
  intros Hro Hs. unfold case_join_room.
  destruct (rooms s !! rid) as [room|] eqn:Er;
    [|destruct (inherited rid); [done | by intros [= <- _]]].
  destruct (maxPlayers room <=? size (players room))%nat;
    [by intros [= <- _]|].
  destruct info as [info|]; [|done].
  destruct (truthy (roomId info)).
  - pose proof (leaveRoom_sessions s ws (now e) Hs) as Hl.
    destruct (leaveRoom s ws (now e)) as [s1 out1]. by intros [= <- _].
  - intros [= <- _] k i r. cbn. rewrite lookup_insert.
    case_decide; [|by apply Hs]. intros [= <-] [= <-]. apply Hro. eauto.
Qed.

Lemma step_sessions s ev s' out :
  roster_ok s -> sessions_ok s -> step s ev = Ok (s', out) -> sessions_ok s'.
Proof.
  intros Hro Hs. destruct ev as [ws uuid|ws raw e|ws t|ws t]; cbn;
    destruct (find_sock ws (wss_clients s)) as [k|];
    try (by intros [= <- _]).
  - intros [= <- _] k i r. cbn. rewrite lookup_insert.
    case_decide; [by intros [= <-] | by apply Hs].
  - destruct raw as [| |m]; cbn; [by intros [= <- _] | done |].
    destruct m; try (by intros [= <- _]).
    + by apply case_join_room_sessions.
    + unfold case_move. destruct (clients s !! ws_key ws) as [info|]; [|done].
      destruct (rooms s !! prop_key (roomId info)) as [room|];
        [|by intros [= <- _]].
      destruct (players room !! sock_playerId k); by intros [= <- _].
    + unfold case_chat. destruct (clients s !! ws_key ws) as [info|]; [|done].
      destruct (rooms s !! prop_key (roomId info)) as [room|];
        by intros [= <- _].
    + unfold case_place_block.
      destruct (clients s !! ws_key ws) as [info|]; [|done].
      destruct (rooms s !! prop_key (roomId info)) as [room|];
        [|by intros [= <- _]].
      destruct (mapData room); [by intros [= <- _] | done].
    + unfold case_script_run.
      destruct (clients s !! ws_key ws) as [info|]; [|done].
      destruct (rooms s !! prop_key (roomId info)) as [room|];
        [|by intros [= <- _]].
      destruct code; [by intros [= <- _] | done].
    + unfold case_save_map.
      destruct (clients s !! ws_key ws) as [info|]; [|done].
      destruct (rooms s !! prop_key (roomId info)) as [room|];
        by intros [= <- _].
  - intros [= E]. rewrite (surjective_pairing (leaveRoom _ _ _)) in E.
    injection E as <- _. by apply leaveRoom_sessions.
  - intros [= E]. rewrite (surjective_pairing (leaveRoom _ _ _)) in E.
    injection E as <- _. by apply leaveRoom_sessions.
Qed.

Lemma run_sessions evs : forall s s' out,
  inv s -> sessions_ok s -> run s evs = Ok (s', out) -> sessions_ok s'.
Proof.
  induction evs as [|ev evs IH]; intros s s' out Hi Hs; cbn.
  - by intros [= <- _].
  - destruct (step s ev) as [[s1 out1]|] eqn:Es; [|done].
    destruct (run s1 evs) as [[s2 out2]|] eqn:Er; [|done].
    intros [= <- _]. eapply IH; [by eapply step_inv | |done].
    eapply step_sessions; [apply Hi | done..].
Qed.

(** In every state the server reaches, a session names no room or a room
    of the roster. *)
Lemma reachable_sessions s : reachable s -> sessions_ok s.
Proof.
  intros (rnd & t & evs & out & Hrun).
  eapply run_sessions; [apply init_inv | | done].
  intros k info rid. cbn. by rewrite lookup_empty.
Qed.

Lemma reachable_inv s : reachable s -> inv s.
Proof.
  intros (rnd & t & evs & out & Hrun). eapply run_inv; [apply init_inv | done].
Qed.

(** *** Replies *)

Lemma sendTo_open s ws k msg :
  find_sock ws (wss_clients s) = Some k -> is_open k = true ->
  sendTo s ws msg = [(ws, msg)].
Proof. intros Hk Ho. unfold sendTo. by rewrite Hk, Ho. Qed.

Lemma join_room_not_found s ws pid info rid mname mcolor e :
  rooms s !! rid = None -> inherited rid = false ->
  case_join_room s ws pid info rid mname mcolor e =
    Ok (s, sendTo s ws (error_out "Room not found")).
Proof. intros Hr Hi. unfold case_join_room. by rewrite Hr, Hi. Qed.

Lemma join_room_full s ws pid info rid room mname mcolor e :
  rooms s !! rid = Some room ->
  (maxPlayers room <= size (players room))%nat ->
  case_join_room s ws pid info rid mname mcolor e =
    Ok (s, sendTo s ws (error_out "Room is full")).
Proof.
  intros Hr Hfull. unfold case_join_room. rewrite Hr.
  apply Nat.leb_le in Hfull. by rewrite Hfull.
Qed.

Lemma step_join_full s ws k rid room mname mcolor e :
  find_sock ws (wss_clients s) = Some k -> is_open k = true ->
  rooms s !! rid = Some room ->
  (maxPlayers room <= size (players room))%nat ->
  step s (message ws (parsed (join_room rid mname mcolor)) e) =
    Ok (s, [(ws, error_out "Room is full")]).
Proof.
  intros Hk Ho Hr Hfull. cbn. rewrite Hk. cbn.
  erewrite join_room_full by done. by erewrite sendTo_open.
Qed.

(** C5.  In every state the server reaches, no room holds more players
    than its [maxPlayers]; and a [join_room] for a room that is at capacity
    changes nothing at all and answers the requester with an [error]. *)
Theorem capacity_never_exceeded :
  (forall rnd t evs s out,
      run (init rnd t) evs = Ok (s, out) -> capacity_ok s) /\
  (forall s ws k rid room mname mcolor e,
      find_sock ws (wss_clients s) = Some k -> is_open k = true ->
      rooms s !! rid = Some room ->
      (maxPlayers room <= size (players room))%nat ->
      step s (message ws (parsed (join_room rid mname mcolor)) e) =
        Ok (s, [(ws, error_out "Room is full")])).
Proof.
  split.
  - intros rnd t evs s out Hrun.
    by eapply run_inv; [apply init_inv | done].
  - intros. by eapply step_join_full.
Qed.

Lemma capacity_never_exceeded_witness :
  capacity_ok full_state /\
  step full_state (message 20 join1 env0) =
    Ok (full_state, [(20%nat, error_out "Room is full")]).
Proof.
  split.
  - apply (proj1 capacity_never_exceeded half 0 (fill 20) full_state
             (sent_of (run (init half 0) (fill 20)))).
    vm_compute. reflexivity.
  - eapply (proj2 capacity_never_exceeded full_state 20%nat
              (mkSock 20 (uuid 20) OPEN) "room_1").
    + vm_compute. reflexivity.
    + reflexivity.
    + vm_compute. reflexivity.
    + apply Nat.leb_le. vm_compute. reflexivity.
Defined.

(** X4.  Where the two error returns of [case 'join_room'] are taken, the reply
    goes to the requester alone and the whole server state (sessions,
    rooms, sockets) is left as it was. *)
Lemma join_errors_change_nothing s ws k rid mname mcolor e :
  find_sock ws (wss_clients s) = Some k -> is_open k = true ->
  (rooms s !! rid = None -> inherited rid = false ->
   step s (message ws (parsed (join_room rid mname mcolor)) e) =
     Ok (s, [(ws, error_out "Room not found")])) /\
  (forall room,
      rooms s !! rid = Some room ->
      (maxPlayers room <= size (players room))%nat ->
      step s (message ws (parsed (join_room rid mname mcolor)) e) =
        Ok (s, [(ws, error_out "Room is full")])).
Proof.
  intros Hk Ho. split.
  - intros Hr Hi. cbn. rewrite Hk. cbn.
    rewrite join_room_not_found by done. by erewrite sendTo_open.
  - intros room Hr Hfull. by eapply step_join_full.
Qed.

(** C8 fails on the code for the room ids that name a property every
    object inherits: [rooms["constructor"]] is the function [Object], the
    test [!room] lets it pass, and [Object.keys(room.players)] raises.  No
    room is named "constructor", yet the request is not answered with
    "Room not found": the handler ends in an uncaught [TypeError]. *)
Theorem join_inherited_key_throws :
  rooms fresh_state !! "constructor" = None /\
  step fresh_state (message 1 (parsed (join_room "constructor" None None)) env0) =
    Throw "TypeError: Cannot convert undefined or null to object".
Proof. split; vm_compute; reflexivity. Qed.

(** C10.  A connection whose session names room [rid], and whose player
    occupies a slot of it, asks to join [rid] again while [rid] is at
    capacity: the capacity test comes first and counts that slot, so the
    request is refused with "Room is full" and the session, the player and
    the room stay exactly as they were. *)
Theorem rejoin_full_room_refused s ws k info rid room mname mcolor e :
  find_sock ws (wss_clients s) = Some k -> is_open k = true ->
  session s ws = Some info -> roomId info = Some rid ->
  rooms s !! rid = Some room ->
  is_Some (players room !! sock_playerId k) ->
  (maxPlayers room <= size (players room))%nat ->
  exists s',
    step s (message ws (parsed (join_room rid mname mcolor)) e) =
      Ok (s', [(ws, error_out "Room is full")]) /\
    session s' ws = Some info /\ rooms s' !! rid = Some room.
Proof.
  intros Hk Ho Hs Hrid Hr Hp Hfull. exists s.
  split; [by eapply step_join_full | done].
Qed.

Lemma rejoin_full_room_refused_witness :
  exists s',
    step full_state (message 20 join1 env0) =
      Ok (s', [(20%nat, error_out "Room is full")]) /\
    session s' 20 = Some (mkInfo (uuid 20) (Some "room_1") (default_name 20)) /\
    is_Some (rooms s' !! "room_1").
Proof.
  edestruct (rejoin_full_room_refused full_state 20%nat
               (mkSock 20 (uuid 20) OPEN)
               (mkInfo (uuid 20) (Some "room_1") (default_name 20)) "room_1")
    as (s' & H1 & H2 & H3).
  - vm_compute. reflexivity.
  - reflexivity.
  - vm_compute. reflexivity.
  - reflexivity.
  - vm_compute. reflexivity.
  - vm_compute. eexists. reflexivity.
  - apply Nat.leb_le. vm_compute. reflexivity.
  - exists s'. split; [exact H1 | split; [exact H2 | eexists; exact H3]].
Defined.

(** *** Messages that are ignored *)

Lemma roster_no_null s : roster_ok s -> rooms s !! "null" = None.
Proof.
  intros H. destruct (rooms s !! "null") as [r|] eqn:E; [|done].
  assert (Hin : In "null" room_ids) by (apply H; eauto).
  cbn in Hin. intuition discriminate.
Qed.

(** X3.  What the handler ignores.  A payload that does not parse, and one
    whose [type] matches no case, are dropped: nothing is sent and the
    state, the socket included, is unchanged.  A [move], [chat],
    [place_block] or [save_map] is ignored in the same way when the session
    the registry returns for the socket names no room. *)
Lemma ignored_messages s ws k e :
  reachable s -> find_sock ws (wss_clients s) = Some k ->
  step s (message ws unparseable e) = Ok (s, []) /\
  step s (message ws (parsed other_type) e) = Ok (s, []) /\
  (forall info,
      session s ws = Some info -> roomId info = None ->
      (forall x y z rotY,
          step s (message ws (parsed (move x y z rotY)) e) = Ok (s, [])) /\
      (forall mtext,
          step s (message ws (parsed (chat mtext)) e) = Ok (s, [])) /\
      (forall x y z blockType,
          step s (message ws (parsed (place_block x y z blockType)) e) =
            Ok (s, [])) /\
      (forall md,
          step s (message ws (parsed (save_map md)) e) = Ok (s, []))).
Proof.
  intros Hreach Hk.
  assert (Hnull : rooms s !! "null" = None).
  { apply roster_no_null. by apply reachable_inv. }
  split; [by cbn; rewrite Hk|]. split; [by cbn; rewrite Hk|].
  intros info Hs Hrid. unfold session in Hs.
  repeat split; intros; enter_handler Hk Hs;
    rewrite Hrid; cbn [prop_key]; by rewrite Hnull.
Qed.

Example ignored_messages_fresh :
  step fresh_state (message 1 unparseable env0) = Ok (fresh_state, []) /\
  step fresh_state (message 1 (parsed other_type) env0) = Ok (fresh_state, []) /\
  step fresh_state (message 1 (parsed (chat (Some "hi"))) env0) =
    Ok (fresh_state, []).
Proof.
  destruct (ignored_messages fresh_state 1%nat (mkSock 1 (uuid 1) OPEN) env0)
    as (H1 & H2 & H3).
  - exists half, 0, [connection 1 (uuid 1)],
      (sent_of (run (init half 0) [connection 1 (uuid 1)])).
    vm_compute. reflexivity.
  - vm_compute. reflexivity.
  - split; [exact H1 | split; [exact H2 |]].
    apply (H3 (mkInfo (uuid 1) None "Player")); vm_compute; reflexivity.
Defined.

(** C9 fails on the code.  Connection 2 has connected and never joined a
    room, yet the one registry slot names ["room_1"] since connection 1
    joined; a [chat] from connection 2 is not ignored: the line is appended
    to the history of ["room_1"] under the name of connection 1 and is sent
    to both sockets. *)
Theorem unjoined_chat_is_broadcast :
  joined_ids (sent_of (run (init half 0) one_joins)) = [uuid 1] /\
  exists s' room room' entry,
    step ghost_state (message 2 (parsed (chat (Some "hi"))) env0) =
      Ok (s', [(1%nat, chat_out entry); (2%nat, chat_out entry)]) /\
    entry = mkChat (default_name 1) "#fff" "hi" 1000 /\
    rooms ghost_state !! "room_1" = Some room /\
    rooms s' !! "room_1" = Some room' /\
    chatHistory room' = chatHistory room ++ [entry].
Proof.
  split; [vm_compute; reflexivity|].
  eexists _, _, _, _. split; [vm_compute; reflexivity|].
  split; [reflexivity|]. split; [vm_compute; reflexivity|].
  split; vm_compute; reflexivity.
Qed.

(** The payload [null] parses, but reading its [type] raises. *)
Remark json_null_throws s ws k e :
  find_sock ws (wss_clients s) = Some k ->
  exists x, step s (message ws json_null e) = Throw x.
Proof. intros Hk. cbn. rewrite Hk. cbn. eauto. Qed.

(** *** Who receives a broadcast *)

Lemma find_sock_In ws l k :
  find_sock ws l = Some k -> In k l /\ ws_of k = ws.
Proof.
  intros H. apply find_some in H as [H1 H2].
  split; [done | by apply Nat.eqb_eq].
Qed.

Lemma registered_in_true s rid k :
  registered_in s (Some rid) k = true <-> registered s (ws_of k) rid.
Proof.
  unfold registered_in, registered, session.
  destruct (clients s !! ws_key (ws_of k)) as [info|].
  - rewrite bool_decide_eq_true. split; [eauto | by intros (? & [= <-] & ?)].
  - split; [done | by intros (? & ? & _)].
Qed.

Lemma In_broadcast s rid msg excl w m :
  In (w, m) (broadcast s (Some rid) msg excl) <->
  is_Some (rooms s !! rid) /\ m = msg /\ excl <> Some w /\
  open_socket s w /\ registered s w rid.
Proof.
  unfold broadcast. cbn [prop_key].
  destruct (rooms s !! rid) as [room|].
  - rewrite in_map_iff. split.
    + intros (k & [= <- <-] & Hin). apply filter_In in Hin as [Hin Hrecv].
      unfold receives in Hrecv.
      apply andb_true_iff in Hrecv as [Hrecv Hex].
      apply andb_true_iff in Hrecv as [Hop Hreg].
      apply registered_in_true in Hreg. apply negb_true_iff in Hex.
      split; [eauto|]. split; [done|]. split.
      * destruct excl as [w'|]; [|done]. cbn in Hex.
        apply Nat.eqb_neq in Hex. congruence.
      * split; [by exists k | done].
    + intros (_ & -> & Hex & (k & Hin & <- & Hop) & Hreg). exists k.
      split; [done|]. apply filter_In. split; [done|].
      unfold receives. rewrite Hop. apply registered_in_true in Hreg.
      rewrite Hreg. cbn. apply negb_true_iff.
      destruct excl as [w'|]; [|done]. cbn. apply Nat.eqb_neq. congruence.
  - split; [done | by intros ([? ?] & _)].
Qed.

(** The room a broadcast names was just written to [rooms]. *)
Ltac after_update :=
  rewrite In_broadcast; cbn [set_rooms rooms]; rewrite lookup_insert_eq.

(** X2.  The scope of the broadcasts, relative to the registry.  Let the
    session the registry returns for connection [ws] name room [rid].  A
    [move] of its player is sent as [player_moved] to exactly the other
    open connections whose session names [rid], never to [ws] itself.  The
    [chat], [block_update] and [map_reload] broadcasts go to every open
    connection whose session names [rid], the originator included. *)
Lemma broadcast_scope s ws k info rid room e :
  find_sock ws (wss_clients s) = Some k ->
  session s ws = Some info -> roomId info = Some rid ->
  rooms s !! rid = Some room ->
  (forall p x y z rotY,
      players room !! sock_playerId k = Some p ->
      exists s' out,
        step s (message ws (parsed (move x y z rotY)) e) = Ok (s', out) /\
        (forall w m, In (w, m) out <->
           m = player_moved (sock_playerId k) x y z rotY /\ w <> ws /\
           open_socket s w /\ registered s w rid)) /\
  (forall mtext,
      exists s' out entry,
        step s (message ws (parsed (chat mtext)) e) = Ok (s', out) /\
        (forall w m, In (w, m) out <->
           m = chat_out entry /\ open_socket s w /\ registered s w rid) /\
        (is_open k = true -> In (ws, chat_out entry) out)) /\
  (forall x y z blockType l,
      mapData room = Some l ->
      exists s' out,
        step s (message ws (parsed (place_block x y z blockType)) e) =
          Ok (s', out) /\
        (forall w m, In (w, m) out <->
           m = block_update x y z blockType /\
           open_socket s w /\ registered s w rid) /\
        (is_open k = true -> In (ws, block_update x y z blockType) out)) /\
  (forall md,
      exists s' out,
        step s (message ws (parsed (save_map md)) e) = Ok (s', out) /\
        (forall w, In (w, map_reload md) out <->
           open_socket s w /\ registered s w rid) /\
        (is_open k = true -> In (ws, map_reload md) out)).
Proof.
  intros Hk Hs Hrid Hr.
  assert (Hme : is_open k = true -> open_socket s ws /\ registered s ws rid).
  { intros Ho. apply find_sock_In in Hk as [Hin Hws].
    split; [by exists k | by exists info]. }
  unfold session in Hs.
  split; [|split; [|split]].
  - intros p x y z rotY Hp. eexists _, _. split.
    { enter_handler Hk Hs. rewrite Hrid. cbn [prop_key]. rewrite Hr, Hp.
      reflexivity. }
    intros w m. after_update. split.
    + intros (_ & -> & Hne & Ho & Hreg). repeat split; [congruence | done..].
    + intros (-> & Hne & Ho & Hreg). repeat split; [eauto | congruence | done..].
  - intros mtext. eexists _, _, _. split; [|split].
    { enter_handler Hk Hs. rewrite Hrid. cbn [prop_key]. rewrite Hr.
      reflexivity. }
    + intros w m. after_update. split.
      * intros (_ & -> & _ & Ho & Hreg). done.
      * intros (-> & Ho & Hreg). repeat split; [eauto | done..].
    + intros Ho. after_update. destruct (Hme Ho).
      repeat split; [eauto | done..].
  - intros x y z blockType l Hl. eexists _, _. split; [|split].
    { enter_handler Hk Hs. rewrite Hrid. cbn [prop_key]. rewrite Hr, Hl.
      reflexivity. }
    + intros w m. after_update. split.
      * intros (_ & -> & _ & Ho & Hreg). done.
      * intros (-> & Ho & Hreg). repeat split; [eauto | done..].
    + intros Ho. after_update. destruct (Hme Ho).
      repeat split; [eauto | done..].
  - intros md. eexists _, _. split; [|split].
    { enter_handler Hk Hs. rewrite Hrid. cbn [prop_key]. rewrite Hr.
      reflexivity. }
    + intros w. rewrite in_app_iff. after_update. split.
      * intros [(_ & _ & _ & Ho & Hreg)|Hin]; [done|].
        unfold sendTo in Hin. destruct (find_sock _ _) as [k'|]; [|done].
        destruct (is_open k'); [|done]. by destruct Hin as [[=]|[]].
      * intros (Ho & Hreg). left. repeat split; [eauto | done..].
    + intros Ho. apply in_app_iff. left. after_update.
      destruct (Hme Ho). repeat split; [eauto | done..].
Qed.

Example broadcast_scope_pair :
  exists s' out,
    step pair_state (message 2 (parsed (move 1 2 3 0)) env0) = Ok (s', out) /\
    In (1%nat, player_moved (uuid 2) 1 2 3 0) out /\
    ~ In (2%nat, player_moved (uuid 2) 1 2 3 0) out.
Proof.
  edestruct (broadcast_scope pair_state 2%nat (mkSock 2 (uuid 2) OPEN)
               (mkInfo (uuid 2) (Some "room_1") (default_name 2)) "room_1")
    as (Hmove & _).
  - vm_compute. reflexivity.
  - vm_compute. reflexivity.
  - reflexivity.
  - vm_compute. reflexivity.
  - edestruct (Hmove) as (s' & out & Hstep & Hout).
    + vm_compute. reflexivity.
    + exists s', out. split; [exact Hstep|]. split.
      * apply Hout. split; [reflexivity|]. split; [intros [=]|]. split.
        -- exists (mkSock 1 (uuid 1) OPEN).
           split; [vm_compute; auto | split; reflexivity].
        -- exists (mkInfo (uuid 2) (Some "room_1") (default_name 2)).
           split; [vm_compute; reflexivity | reflexivity].
      * intros Hin. apply Hout in Hin. destruct Hin as (_ & Hne & _).
        exact (Hne eq_refl).
Defined.

(** C6 fails on the code.  Two sockets connect and then each joins
    ["room_1"]; both are admitted and both players are in the room.  The
    second join finds the shared registry slot already naming a room, runs
    [leaveRoom], and [leaveRoom] deletes the slot.  The next [move] of
    connection 1 reads an undefined session and raises: no [player_moved]
    reaches connection 2. *)
Theorem move_after_joins_throws :
  exists s out room,
    run (init half 0) both_join = Ok (s, out) /\
    joined_ids out = [uuid 1; uuid 2] /\
    rooms s !! "room_1" = Some room /\
    is_Some (players room !! uuid 1) /\ is_Some (players room !! uuid 2) /\
    session s 1 = None /\
    step s (message 1 (parsed (move 1 2 3 0)) env0) =
      Throw "TypeError: Cannot read properties of undefined".
Proof.
  eexists _, _, _. split; [vm_compute; reflexivity|].
  split; [vm_compute; reflexivity|]. split; [vm_compute; reflexivity|].
  split; [vm_compute; eexists; reflexivity|].
  split; [vm_compute; eexists; reflexivity|].
  split; vm_compute; reflexivity.
Qed.

(** *** Joining the room one is in *)

(** Every socket is looked up under the same key, so without an entry
    under it nobody is registered anywhere. *)
Lemma broadcast_no_session s rid msg excl :
  clients s !! "[object Object]" = None -> broadcast s rid msg excl = [].
Proof.
  intros Hc. unfold broadcast. destruct (rooms s !! prop_key rid); [|done].
  replace (List.filter (receives s rid excl) (wss_clients s)) with (@nil Sock);
    [done|].
  symmetry. induction (wss_clients s) as [|k l IH]; [done|].
  cbn. unfold receives at 1, registered_in, ws_key. rewrite Hc.
  by rewrite andb_false_r.
Qed.

Lemma broadcast_recipients s rid msg :
  is_Some (rooms s !! rid) ->
  broadcast s (Some rid) msg None = map (fun w => (w, msg)) (recipients s rid).
Proof.
  intros [room Hr]. unfold broadcast, recipients. cbn [prop_key].
  rewrite Hr. by rewrite map_map.
Qed.

Lemma In_recipients s rid w :
  In w (recipients s rid) <-> open_socket s w /\ registered s w rid.
Proof.
  unfold recipients. rewrite in_map_iff. split.
  - intros (k & <- & Hin). apply filter_In in Hin as [Hin Hrecv].
    unfold receives in Hrecv. rewrite andb_true_r in Hrecv.
    apply andb_true_iff in Hrecv as [Hop Hreg].
    apply registered_in_true in Hreg. split; [by exists k | done].
  - intros ((k & Hin & <- & Hop) & Hreg). exists k. split; [done|].
    apply filter_In. split; [done|]. unfold receives.
    apply registered_in_true in Hreg. by rewrite Hop, Hreg.
Qed.

Lemma truthy_nonempty rid : rid <> "" -> truthy (Some rid) = true.
Proof. by destruct rid. Qed.

(** C2 (amended).  A connection whose session carries its own player id
    and names room [rid], with its player in [rid], joins [rid] again and
    is admitted.  What is sent is, in this order: [player_left] with that
    player id and the system line about the departure, each to every open
    connection registered in [rid] (the connection itself among them),
    and then the [room_joined] reply, which carries the same player id
    (ids are drawn once, when the socket connects) and a player whose
    position is computed from the random draws of this very request. *)
Theorem rejoin_same_room s ws k info rid room mname mcolor e :
  find_sock ws (wss_clients s) = Some k -> is_open k = true ->
  session s ws = Some info -> roomId info = Some rid -> rid <> "" ->
  playerId info = sock_playerId k ->
  rooms s !! rid = Some room ->
  is_Some (players room !! sock_playerId k) ->
  (size (players room) < maxPlayers room)%nat ->
  exists s' ps md hist p,
    step s (message ws (parsed (join_room rid mname mcolor)) e) =
      Ok (s', map (fun w => (w, player_left (sock_playerId k))) (recipients s rid)
              ++ map (fun w => (w, chat_out (left_msg (name info) (now e))))
                     (recipients s rid)
              ++ [(ws, room_joined rid (r_name room) (sock_playerId k) ps md hist)]) /\
    In ws (recipients s rid) /\
    ps !! sock_playerId k = Some p /\
    p_x p = spawn (random e 0%nat) /\ p_y p = 2%Q /\
    p_z p = spawn (random e 1%nat).
Proof.
  intros Hk Ho Hs Hrid Hne Hpid Hr [p0 Hp] Hfree.
  assert (Hin : In ws (recipients s rid)).
  { apply In_recipients. apply find_sock_In in Hk as [Hin Hws].
    split; [by exists k | by exists info]. }
  unfold session in Hs.
  cbn [step]. rewrite Hk. cbn [on_message]. rewrite Hs.
  unfold case_join_room. rewrite Hr.
  apply Nat.leb_gt in Hfree. rewrite Hfree.
  assert (Ht : truthy (roomId info) = true) by (rewrite Hrid; by apply truthy_nonempty).
  rewrite Ht.
  rewrite (leaveRoom_member s ws (now e) info room p0 Hs Ht);
    [|by rewrite Hrid|by rewrite Hpid].
  cbv zeta. rewrite Hrid. cbn [prop_key].
  unfold deref. cbn [set_clients set_rooms rooms clients wss_clients].
  rewrite lookup_insert_eq. cbn [default from_option id].
  rewrite (broadcast_no_session _ (Some rid) (player_joined _))
    by (cbn [set_clients set_rooms clients]; apply lookup_delete_eq).
  rewrite (broadcast_no_session _ (Some rid) (chat_out (joined_msg _ _)))
    by (cbn [set_clients set_rooms clients]; apply lookup_delete_eq).
  rewrite !broadcast_recipients by (cbn; rewrite lookup_insert_eq; eauto).
  erewrite sendTo_open by (cbn; done).
  rewrite !app_nil_r, <- app_assoc, Hpid.
  eexists _, _, _, _, _. split; [reflexivity|].
  split; [exact Hin|]. cbn. rewrite lookup_insert_eq. done.
Qed.

Lemma rejoin_same_room_witness :
  exists s' ps md hist p,
    step solo_state (message 1 join1 env0) =
      Ok (s', [(1%nat, player_left (uuid 1));
               (1%nat, chat_out (left_msg (default_name 1) 1000));
               (1%nat, room_joined "room_1" "Main World" (uuid 1) ps md hist)]) /\
    ps !! uuid 1 = Some p /\ p_x p = spawn (1 # 2) /\ p_z p = spawn (1 # 2).
Proof.
  edestruct (rejoin_same_room solo_state 1%nat (mkSock 1 (uuid 1) OPEN)
               (mkInfo (uuid 1) (Some "room_1") (default_name 1)) "room_1")
    as (s' & ps & md & hist & p & Hstep & _ & Hps & Hx & _ & Hz).
  - vm_compute. reflexivity.
  - reflexivity.
  - vm_compute. reflexivity.
  - reflexivity.
  - intros [=].
  - reflexivity.
  - vm_compute. reflexivity.
  - vm_compute. eexists. reflexivity.
  - apply Nat.ltb_lt. vm_compute. reflexivity.
  - replace (recipients solo_state "room_1") with [1%nat] in Hstep
      by (vm_compute; reflexivity).
    exists s', ps, md, hist, p.
    split; [exact Hstep | split; [exact Hps | split; [exact Hx | exact Hz]]].
Defined.

(** C2 as stated fails: when the only connection of ["room_1"] joins it
    again, the [room_joined] reply carries the player id that the
    preceding [player_left] announced as gone. *)
Lemma rejoin_keeps_player_id :
  exists s' out,
    step solo_state (message 1 join1 env0) = Ok (s', out) /\
    left_ids out = [uuid 1] /\ joined_ids out = [uuid 1].
Proof.
  eexists _, _. split; [vm_compute; reflexivity|].
  split; vm_compute; reflexivity.
Qed.

(** *** The chat history *)



(** C3 fails on the code: only [case 'chat'] trims.  The system line of a
    join is pushed without the trim, so after one join and 99 chat lines
    the join of a second connection leaves 101 entries in the history of
    ["room_1"]. *)
Theorem history_exceeds_bound :
  exists s out room,
    run (init half 0) chat_flood = Ok (s, out) /\
    rooms s !! "room_1" = Some room /\
    length (chatHistory room) = 101%nat.
Proof.
  eexists _, _, _. split; [vm_compute; reflexivity|].
  split; vm_compute; reflexivity.
Qed.

(** *** The registry *)

(** C1 fails on the code: [clients] is a plain object, every socket is
    converted to the same key, and the registry resolves connection 1 to
    the session that was created for connection 2. *)
Theorem registry_aliases_connections :
  (forall s w1 w2, session s w1 = session s w2) /\
  exists s out,
    run (init half 0) [connection 1 (uuid 1); connection 2 (uuid 2)] =
      Ok (s, out) /\
    session s 1 = Some (mkInfo (uuid 2) None "Player").
Proof.
  split; [done|].
  eexists _, _. split; vm_compute; reflexivity.
Qed.

(** *** Disconnection *)

(** [leaveRoom] removes the registry entry, so a second call that follows
    at once finds no session and is silent: [close] and [error] fired back
    to back announce a departure once. *)
Lemma leaveRoom_twice_silent s ws t t' :
  let s1 := (leaveRoom s ws t).1 in
  leaveRoom s1 ws t' = (set_clients s1 (delete (ws_key ws) (clients s1)), []).
Proof.
  cbn zeta. unfold leaveRoom at 1.
  by rewrite leaveRoom_clients, lookup_delete_eq.
Qed.

(** Once the entry is gone, any message that reads the session raises. *)
Remark message_without_session_throws s ws k mtext e :
  find_sock ws (wss_clients s) = Some k -> session s ws = None ->
  exists x, step s (message ws (parsed (chat mtext)) e) = Throw x.
Proof.
  intros Hk Hs. cbn. rewrite Hk. cbn. unfold session in Hs. rewrite Hs.
  cbn. eauto.
Qed.


(** With a single connection: after it has joined the room it is in once
    more, its registry entry is gone, and its [close] removes nobody. *)
Remark close_after_rejoin_leaves_player :
  exists s out s' room',
    run (init half 0) (fill 1 ++ [message 1 join1 env0]) = Ok (s, out) /\
    step s (close 1 2000) = Ok (s', []) /\
    rooms s' !! "room_1" = Some room' /\
    is_Some (players room' !! uuid 1).
Proof.
  eexists _, _, _, _. split; [vm_compute; reflexivity|].
  split; [vm_compute; reflexivity|].
  split; [vm_compute; reflexivity | vm_compute; eexists; reflexivity].
Qed.

(** C7 fails on the code.  Connection 1 is in ["room_1"] (its session
    names the room and its player is in the player set), but the shared
    registry slot carries the player id of connection 2; when connection 1
    closes, [leaveRoom] looks for that other id, finds nothing to remove,
    and sends nothing: the room still counts one player. *)
Theorem close_leaves_player_behind :
  session ghost_state 1 = Some (mkInfo (uuid 2) (Some "room_1") (default_name 1)) /\
  (exists room, rooms ghost_state !! "room_1" = Some room /\
                size (players room) = 1%nat /\
                is_Some (players room !! uuid 1)) /\
  exists s' room',
    step ghost_state (close 1 2000) = Ok (s', []) /\
    rooms s' !! "room_1" = Some room' /\
    size (players room') = 1%nat /\ is_Some (players room' !! uuid 1).
Proof.
  split; [vm_compute; reflexivity|]. split.
  - eexists. split; [vm_compute; reflexivity|].
    split; [vm_compute; reflexivity | vm_compute; eexists; reflexivity].
  - eexists _, _. split; [vm_compute; reflexivity|].
    split; [vm_compute; reflexivity|].
    split; [vm_compute; reflexivity | vm_compute; eexists; reflexivity].
Qed.

(** *** The block map *)

Lemma same_pos_eq x y z b :
  same_pos x y z b = true <-> b_x b = x /\ b_y b = y /\ b_z b = z.
Proof.
  unfold same_pos. rewrite !andb_true_iff, !Z.eqb_eq. tauto.
Qed.

Lemma same_pos_place x y z t : same_pos x y z (mkBlock x y z t) = true.
Proof. apply same_pos_eq. done. Qed.














(** The seeded map itself can hold several blocks at one coordinate: a
    decoration whose draws are 0.5 lands on the platform block (0,1,0). *)
Remark default_map_overlaps :
  (2 <= count_at 0 1 0 (generateDefaultMap half))%nat.
Proof. apply Nat.leb_le. vm_compute. reflexivity. Qed.

End ServerJsProofs.

(** * Properties of the [Map] variant

    The variant keys [clients] by the socket itself, and is the reference
    for what [server.js] misses. *)

Module ServerMapProofs.
Import ServerMap.

Lemma doLeave_other_session s ws info t w :
  w <> ws -> clients (doLeave s ws info t).1 !! w = clients s !! w.
Proof.
  intros Hne. unfold doLeave. destruct info as [info|]; [|done].
  destruct (truthy (roomId info)); cbn [negb]; [|done].
  destruct (rooms s !! prop_key (roomId info)) as [room|]; [|done].
  cbn. by rewrite lookup_insert_ne.
Qed.

(** X22.  An event of one socket never touches the session of another one. *)
Lemma map_sessions_separate s ev s' out w :
  step s ev = Ok (s', out) -> w <> event_socket ev ->
  clients s' !! w = clients s !! w.
Proof.
  destruct ev as [ws uuid|ws raw e|ws t|ws t]; cbn [step event_socket];
    destruct (find_sock ws (wss_clients s)) as [k|];
    try (by intros [= <- _]); intros Hstep Hne.
  - injection Hstep as <- _. cbn. by rewrite lookup_insert_ne.
  - unfold on_message in Hstep.
    destruct raw as [| |m]; [by injection Hstep as <- _ | |].
    { destruct (clients s !! ws); [done | by injection Hstep as <- _]. }
    destruct (clients s !! ws) as [info|]; [|by injection Hstep as <- _].
    destruct m; try (by injection Hstep as <- _).
    + unfold case_join_room in Hstep.
      destruct (rooms s !! mroomId) as [room|];
        [|destruct (inherited mroomId); [done | by injection Hstep as <- _]].
      destruct (maxPlayers room <=? size (players room))%nat;
        [by injection Hstep as <- _|].
      pose proof (doLeave_other_session s ws (Some info) (now e) w Hne) as Hl.
      destruct (truthy (roomId info)).
      * destruct (doLeave s ws (Some info) (now e)) as [s1 out1].
        injection Hstep as <- _. cbn in *. by rewrite lookup_insert_ne.
      * injection Hstep as <- _. cbn. by rewrite lookup_insert_ne.
    + unfold case_move in Hstep.
      destruct (truthy (roomId info)); cbn [negb] in Hstep;
        [|by injection Hstep as <- _].
      destruct (rooms s !! prop_key (roomId info)) as [room|];
        [|by injection Hstep as <- _].
      destruct (players room !! playerId info);
        by injection Hstep as <- _.
    + unfold case_chat in Hstep.
      destruct (truthy (roomId info)); cbn [negb] in Hstep;
        [|by injection Hstep as <- _].
      destruct (rooms s !! prop_key (roomId info)) as [room|]; [|done].
      by injection Hstep as <- _.
    + unfold case_place_block in Hstep.
      destruct (truthy (roomId info)); cbn [negb] in Hstep;
        [|by injection Hstep as <- _].
      destruct (rooms s !! prop_key (roomId info)) as [room|]; [|done].
      destruct (mapData room); [|done]. by injection Hstep as <- _.
    + unfold case_save_map in Hstep.
      destruct (negb (truthy (roomId info)) || negb (bool_decide (is_Some mmapData)));
        [by injection Hstep as <- _|].
      destruct (rooms s !! prop_key (roomId info)) as [room|]; [|done].
      by injection Hstep as <- _.
  - injection Hstep as Hstep. unfold on_close in Hstep.
    pose proof (doLeave_other_session
                  (set_sockets s (set_ready CLOSED ws (wss_clients s))) ws
                  (clients s !! ws) t w Hne) as Hl.
    cbn [set_sockets clients] in Hstep.
    destruct (doLeave _ ws (clients s !! ws) t) as [s1 out1].
    injection Hstep as <- _. cbn in *. by rewrite lookup_delete_ne.
Qed.

(** A full room is refused with the text "Room full" in this variant. *)
Lemma map_join_full s ws k info rid room mname mcolor e :
  find_sock ws (wss_clients s) = Some k -> is_open k = true ->
  clients s !! ws = Some info -> rooms s !! rid = Some room ->
  (maxPlayers room <= size (players room))%nat ->
  step s (message ws (parsed (join_room rid mname mcolor)) e) =
    Ok (s, [(ws, error_out "Room full")]).
Proof.
  intros Hk Ho Hc Hr Hfull. cbn. rewrite Hk. cbn. rewrite Hc.
  unfold case_join_room. rewrite Hr. apply Nat.leb_le in Hfull.
  rewrite Hfull. unfold sendTo. by rewrite Hk, Ho.
Qed.

Lemma set_ready_closed ws l k :
  In k (set_ready CLOSED ws l) -> ws_of k = ws -> is_open k = false.
Proof.
  unfold set_ready. rewrite in_map_iff. intros (k0 & <- & _) Hws.
  destruct (Nat.eqb (ws_of k0) ws) eqn:E; [done|].
  apply Nat.eqb_neq in E. done.
Qed.

(** X23.  In this variant a socket that closes while its session names a room
    takes its own player out of that room, and the two announcements go to
    the open sockets registered in the room, the closed one not among
    them. *)
Lemma map_close_in_room s ws k info rid room p t :
  find_sock ws (wss_clients s) = Some k ->
  clients s !! ws = Some info -> roomId info = Some rid -> rid <> "" ->
  rooms s !! rid = Some room -> r_id room = rid ->
  players room !! playerId info = Some p ->
  let R := recipients (set_sockets s (set_ready CLOSED ws (wss_clients s))) rid in
  exists s' room',
    step s (close ws t) =
      Ok (s', map (fun w => (w, player_left (playerId info))) R
              ++ map (fun w => (w, chat_out (left_msg (name info) t))) R) /\
    rooms s' !! rid = Some room' /\
    S (size (players room')) = size (players room) /\
    players room' !! playerId info = None /\
    clients s' !! ws = None /\ ~ In ws R.
Proof.
  intros Hk Hc Hrid Hne Hr Hid Hp R.
  assert (Ht : truthy (roomId info) = true) by (rewrite Hrid; by destruct rid).
  eexists _, _. split; [|split; [|split; [|split; [|split]]]].
  - cbn [step]. rewrite Hk. unfold on_close, doLeave.
    cbn [set_sockets clients rooms]. rewrite Hc, Ht. cbn [negb].
    rewrite Hrid. cbn [prop_key]. rewrite Hr, Hid.
    unfold broadcast, R, recipients. rewrite !map_map. reflexivity.
  - cbn. apply lookup_insert_eq.
  - cbn. rewrite map_size_delete, Hp.
    assert (size (players room) <> 0%nat); [|lia].
    apply map_size_ne_0_lookup. eauto.
  - cbn. apply lookup_delete_eq.
  - cbn. apply lookup_delete_eq.
  - unfold R, recipients. rewrite in_map_iff. intros (k' & Hws & Hin).
    apply filter_In in Hin as [Hin Hrecv]. cbn [set_sockets wss_clients] in Hin.
    apply set_ready_closed in Hin; [|done].
    unfold receives in Hrecv. rewrite Hin in Hrecv. done.
Qed.

(** The [error] handler of this variant only logs. *)
Lemma map_error_silent s ws t :
  exists s', step s (error ws t) = Ok (s', []) /\
             rooms s' = rooms s /\ clients s' = clients s.
Proof.
  cbn. destruct (find_sock ws (wss_clients s)); eauto.
Qed.

(** X24.  A [move], [chat], [place_block] or [save_map] from a socket whose
    session names no room is ignored by this variant. *)
Lemma map_unjoined_ignored s ws k info e :
  find_sock ws (wss_clients s) = Some k ->
  clients s !! ws = Some info -> roomId info = None ->
  (forall x y z rotY,
      step s (message ws (parsed (move x y z rotY)) e) = Ok (s, [])) /\
  (forall mtext,
      step s (message ws (parsed (chat mtext)) e) = Ok (s, [])) /\
  (forall x y z blockType,
      step s (message ws (parsed (place_block x y z blockType)) e) =
        Ok (s, [])) /\
  (forall md,
      step s (message ws (parsed (save_map md)) e) = Ok (s, [])).
Proof.
  intros Hk Hc Hrid.
  repeat split; intros; cbn [step]; rewrite Hk; cbn [on_message]; rewrite Hc;
    unfold case_move, case_chat, case_place_block, case_save_map;
    by rewrite Hrid.
Qed.

(** The runs on which [server.js] goes wrong, in this variant: after two
    sockets have connected and both joined, a [move] of the first reaches
    the second and only it; and while only the first has joined, a [chat]
    of the second is ignored. *)
Example map_move_after_joins :
  exists s',
    step (state_of (run (init half) both_join))
         (message 1 (parsed (move 1 2 3 0)) env0) =
      Ok (s', [(2%nat, player_moved (uuid 1) 1 2 3 0)]).
Proof. eexists. vm_compute. reflexivity. Qed.

Example map_unjoined_chat :
  step (state_of (run (init half) one_joins))
       (message 2 (parsed (chat (Some "hi"))) env0) =
    Ok (state_of (run (init half) one_joins), []).
Proof. vm_compute. reflexivity. Qed.

Example map_close_after_join :
  exists s' room',
    step (state_of (run (init half) one_joins)) (close 1 2000) = Ok (s', []) /\
    rooms s' !! "room_1" = Some room' /\ players room' = ∅.
Proof.
  eexists _, _. split; [vm_compute; reflexivity|].
  split; vm_compute; reflexivity.
Qed.

End ServerMapProofs.

(** * Further properties of [server.js] *)

Module ServerJsExtras.
Import ServerJs ServerJsProofs.

(** X1.  [broadcast(roomId, msg, excludeWs)] writes [msg] to socket [w] exactly
    when the room exists, [w] is one of [wss.clients] and [OPEN], the
    registry resolves [w] to a session whose [roomId] is the one given, and
    [w] is not the excluded socket.  Nothing but [msg] is written, and
    nothing at all when the room does not exist. *)
Theorem broadcast_delivery s rid msg excl w m :
  In (w, m) (broadcast s rid msg excl) <->
  is_Some (rooms s !! prop_key rid) /\ m = msg /\ excl <> Some w /\
  open_socket s w /\
  (exists info, session s w = Some info /\ roomId info = rid).
Proof.
  unfold broadcast. destruct (rooms s !! prop_key rid) as [room|].
  - rewrite in_map_iff. split.
    + intros (k & [= <- <-] & Hin). apply filter_In in Hin as [Hin Hrecv].
      unfold receives in Hrecv.
      apply andb_true_iff in Hrecv as [Hrecv Hex].
      apply andb_true_iff in Hrecv as [Hop Hreg].
      apply negb_true_iff in Hex.
      split; [eauto|]. split; [done|]. split.
      * destruct excl as [w'|]; [|done]. cbn in Hex.
        apply Nat.eqb_neq in Hex. congruence.
      * split; [by exists k|]. unfold registered_in in Hreg. unfold session.
        destruct (clients s !! ws_key (ws_of k)) as [info|]; [|done].
        apply bool_decide_eq_true in Hreg. eauto.
    + intros (_ & -> & Hex & (k & Hin & <- & Hop) & (info & Hs & Hrid)).
      exists k. split; [done|]. apply filter_In. split; [done|].
      unfold receives, registered_in. unfold session in Hs.
      rewrite Hop, Hs. rewrite bool_decide_eq_true_2 by done. cbn.
      apply negb_true_iff.
      destruct excl as [w'|]; [|done]. cbn. apply Nat.eqb_neq. congruence.
  - split; [done | by intros ([? ?] & _)].
Qed.

Lemma leaveRoom_no_session s ws t :
  clients s !! ws_key ws = None ->
  (leaveRoom s ws t).2 = [] /\ rooms (leaveRoom s ws t).1 = rooms s /\
  clients (leaveRoom s ws t).1 = clients s.
Proof.
  intros H. unfold leaveRoom. rewrite H. cbn. repeat split.
  by apply delete_id.
Qed.

Lemma disconnect_silent s ws t :
  clients s !! ws_key ws = None ->
  forall ev, ev = close ws t \/ ev = error ws t ->
  exists s2, step s ev = Ok (s2, []) /\ rooms s2 = rooms s /\ clients s2 = clients s.
Proof.
  intros Hc ev Hev.
  assert (forall l, exists s2, Ok (leaveRoom (set_sockets s l) ws t) = Ok (s2, [])
            /\ rooms s2 = rooms s /\ clients s2 = clients s) as Hl.
  { intros l. destruct (leaveRoom_no_session (set_sockets s l) ws t Hc)
      as (H1 & H2 & H3).
    exists (leaveRoom (set_sockets s l) ws t).1. split; [|done].
    rewrite <- H1. by rewrite <- surjective_pairing. }
  destruct Hev as [-> | ->]; cbn [step];
    (destruct (find_sock ws (wss_clients s)); [apply Hl | by exists s]).
Qed.

(** X12.  After [close] or [error] of a socket has been handled, a [close] or
    [error] of the same socket that follows at once sends nothing and
    changes neither the rooms nor the registry: a departure is announced at
    most once. *)
Theorem disconnect_events_once s ws t t' s1 out1 :
  step s (close ws t) = Ok (s1, out1) \/ step s (error ws t) = Ok (s1, out1) ->
  (exists s2, step s1 (error ws t') = Ok (s2, []) /\
              rooms s2 = rooms s1 /\ clients s2 = clients s1) /\
  (exists s2, step s1 (close ws t') = Ok (s2, []) /\
              rooms s2 = rooms s1 /\ clients s2 = clients s1).
Proof.
  intros H.
  assert (Hs1 : clients s1 !! ws_key ws = None \/
                find_sock ws (wss_clients s1) = None).
  { destruct H as [H|H]; cbn [step] in H;
      destruct (find_sock ws (wss_clients s)) as [k|] eqn:Hk;
      try (right; by injection H as <- _); left;
      injection H as H; apply (f_equal fst) in H; cbn in H; subst s1;
      rewrite leaveRoom_clients; apply lookup_delete_eq. }
  destruct Hs1 as [Hc|Hk].
  - split; eapply disconnect_silent; eauto.
  - split; exists s1; cbn [step]; by rewrite Hk.
Qed.


Lemma truthy_Some v : truthy v = true -> exists r, v = Some r /\ r <> "".
Proof. destruct v as [[|a r]|]; [done| |done]. intros _. by eexists. Qed.





(** X7.  A [move] from a socket whose session names a room that holds the
    socket's player rewrites the four coordinates of that player and
    nothing else: its id, name, colour, hp and join time, the other players,
    the player count, the history, the map, the other rooms and the
    registry are as before. *)
Theorem move_effect s ws k info rid room p x y z rotY e :
  find_sock ws (wss_clients s) = Some k ->
  session s ws = Some info -> roomId info = Some rid ->
  rooms s !! rid = Some room ->
  players room !! sock_playerId k = Some p ->
  exists s' out room' p',
    step s (message ws (parsed (move x y z rotY)) e) = Ok (s', out) /\
    rooms s' !! rid = Some room' /\
    players room' !! sock_playerId k = Some p' /\
    p_x p' = x /\ p_y p' = y /\ p_z p' = z /\ p_rotY p' = rotY /\
    p_id p' = p_id p /\ p_name p' = p_name p /\ p_color p' = p_color p /\
    p_hp p' = p_hp p /\ p_joinedAt p' = p_joinedAt p /\
    (forall q, q <> sock_playerId k -> players room' !! q = players room !! q) /\
    size (players room') = size (players room) /\
    chatHistory room' = chatHistory room /\ mapData room' = mapData room /\
    clients s' = clients s /\ wss_clients s' = wss_clients s /\
    (forall r, r <> rid -> rooms s' !! r = rooms s !! r).
Proof.
  intros Hk Hs Hrid Hr Hp. unfold session in Hs.
  eexists _, _, _, _. split.
  { enter_handler Hk Hs. rewrite Hrid. cbn [prop_key]. rewrite Hr, Hp.
    reflexivity. }
  cbn [set_rooms rooms clients wss_clients].
  split; [apply lookup_insert_eq|]. cbn [set_players players chatHistory mapData].
  split; [apply lookup_insert_eq|]. cbn. repeat (split; [done|]).
  split; [intros q Hq; by rewrite lookup_insert_ne|].
  split.
  { pose proof (map_size_insert (sock_playerId k) (set_position p x y z rotY)
                  (players room)) as Hsz.
    rewrite Hp in Hsz. exact Hsz. }
  repeat (split; [done|]). intros r Hne. by rewrite lookup_insert_ne.
Qed.

(** X9.  [save_map] stores whatever [msg.mapData] holds, sends [map_reload] to
    the open sockets registered in the room and then the confirmation to
    the sender, and changes nothing else.  When the stored value is not an
    array, every later [place_block] in that room raises on
    [room.mapData.filter]. *)
Theorem save_map_effect s ws k info rid room md e :
  find_sock ws (wss_clients s) = Some k ->
  session s ws = Some info -> roomId info = Some rid ->
  rooms s !! rid = Some room ->
  exists s' room',
    step s (message ws (parsed (save_map md)) e) =
      Ok (s', map (fun w => (w, map_reload md)) (recipients s rid)
              ++ (if is_open k
                  then [(ws, info_out "Map saved and synced to all players!")]
                  else [])) /\
    rooms s' !! rid = Some room' /\ mapData room' = md /\
    players room' = players room /\ chatHistory room' = chatHistory room /\
    clients s' = clients s /\
    (forall r, r <> rid -> rooms s' !! r = rooms s !! r) /\
    (md = None ->
     forall x y z blockType e',
       step s' (message ws (parsed (place_block x y z blockType)) e') =
         Throw "TypeError: room.mapData.filter is not a function").
Proof.
  intros Hk Hs Hrid Hr. unfold session in Hs.
  eexists _, _. split.
  { enter_handler Hk Hs. rewrite Hrid. cbn [prop_key]. rewrite Hr.
    rewrite broadcast_recipients by (cbn; rewrite lookup_insert_eq; eauto).
    unfold sendTo. cbn [set_rooms wss_clients]. rewrite Hk. reflexivity. }
  cbn [set_rooms rooms clients wss_clients].
  split; [apply lookup_insert_eq|]. repeat (split; [done|]).
  split; [intros r Hne; by rewrite lookup_insert_ne|].
  intros -> x y z bt e'. cbn [step set_rooms wss_clients]. rewrite Hk.
  cbn [on_message set_rooms clients]. rewrite Hs. unfold case_place_block.
  rewrite Hrid. cbn [prop_key set_rooms rooms]. by rewrite lookup_insert_eq.
Qed.

Lemma filter_negb_idem x y z (l : list Block) :
  List.filter (fun b => negb (same_pos x y z b))
    (List.filter (fun b => negb (same_pos x y z b)) l) =
  List.filter (fun b => negb (same_pos x y z b)) l.
Proof.
  induction l as [|b l IH]; [done|]. cbn.
  destruct (same_pos x y z b) eqn:E; cbn; [done|]. by rewrite E, IH.
Qed.

Lemma filter_negb_all x y z (l : list Block) :
  count_at x y z l = 0%nat ->
  List.filter (fun b => negb (same_pos x y z b)) l = l.
Proof.
  unfold count_at. induction l as [|b l IH]; [done|]. cbn.
  destruct (same_pos x y z b) eqn:E; cbn; [done|]. intros H. by rewrite IH.
Qed.

(** X10.  The map update of [place_block]: placing the same block twice is
    the same as placing it once; placing a block and then "air" at its
    coordinate is the same as placing "air" alone; and when the coordinate
    was free, placing a block and then "air" gives back the original map,
    in its original order. *)
Theorem place_then_clear l x y z t :
  place (place l x y z t) x y z t = place l x y z t /\
  place (place l x y z t) x y z "air" = place l x y z "air" /\
  (count_at x y z l = 0%nat -> place (place l x y z t) x y z "air" = l).
Proof.
  assert (H : List.filter (fun b => negb (same_pos x y z b)) (place l x y z t) =
              List.filter (fun b => negb (same_pos x y z b)) l).
  { unfold place. case_bool_decide.
    - apply filter_negb_idem.
    - rewrite List.filter_app, filter_negb_idem. cbn.
      rewrite same_pos_place. cbn. apply app_nil_r. }
  split; [|split].
  - unfold place at 1. rewrite H. reflexivity.
  - unfold place at 1. rewrite H. reflexivity.
  - intros Hc. unfold place at 1. rewrite H. cbn.
    by apply filter_negb_all.
Qed.



















Lemma same_meta_refl room : same_meta room room.
Proof. by repeat split. Qed.

Lemma same_meta_trans a b c : same_meta a b -> same_meta b c -> same_meta a c.
Proof.
  intros (?&?&?&?&?) (?&?&?&?&?). repeat split; congruence.
Qed.

Lemma rooms_frame_eq s s' : rooms s' = rooms s -> rooms_frame s s'.
Proof.
  intros H rid. rewrite H. destruct (rooms s !! rid) as [room|]; [|done].
  exists room. split; [done | apply same_meta_refl].
Qed.

Lemma rooms_frame_trans s1 s2 s3 :
  rooms_frame s1 s2 -> rooms_frame s2 s3 -> rooms_frame s1 s3.
Proof.
  intros H12 H23 rid. specialize (H12 rid). specialize (H23 rid).
  destruct (rooms s1 !! rid) as [r1|].
  - destruct H12 as (r2 & E2 & M12). rewrite E2 in H23.
    destruct H23 as (r3 & E3 & M23). exists r3. split; [done|].
    by eapply same_meta_trans.
  - by rewrite H12 in H23.
Qed.

Lemma rooms_frame_update s s' k room room' :
  rooms s !! k = Some room -> same_meta room room' ->
  rooms s' = <[k := room']> (rooms s) -> rooms_frame s s'.
Proof.
  intros Hr Hm Hs' rid. rewrite Hs'. destruct (decide (rid = k)) as [->|Hne].
  - rewrite Hr, lookup_insert_eq. eauto.
  - rewrite lookup_insert_ne by done.
    destruct (rooms s !! rid) as [r|]; [|done].
    exists r. split; [done | apply same_meta_refl].
Qed.

Lemma leaveRoom_frame s ws t : rooms_frame s (leaveRoom s ws t).1.
Proof.
  destruct (leaveRoom_cases s ws t)
    as [->|(info & room & p & _ & _ & Hr & _ & ->)].
  - by apply rooms_frame_eq.
  - eapply rooms_frame_update; [exact Hr| |reflexivity]. by repeat split.
Qed.

(** The normal return of [case 'join_room']. *)
Lemma case_join_room_ok s ws pid info rid mname mcolor e room :
  rooms s !! rid = Some room ->
  (size (players room) < maxPlayers room)%nat ->
  let leaves := truthy (roomId info) in
  let s1 := if leaves then (leaveRoom s ws (now e)).1 else s in
  let out1 := if leaves then (leaveRoom s ws (now e)).2 else [] in
  let nm := or_else mname ("Player_" +:+ slice0 6 pid) in
  let player :=
    mkPlayer pid nm (or_else mcolor (random_color (random e 2%nat)))
      (spawn (random e 0%nat)) 2 (spawn (random e 1%nat)) 0 (Some 100)
      (Some (now e)) in
  exists room1,
    rooms s1 !! rid = Some room1 /\
    let room2 := set_players room1 (<[pid := player]> (players room1)) in
    let room3 :=
      set_chatHistory room2 (chatHistory room1 ++ [joined_msg nm (now e)]) in
    let cs :=
      if leaves then clients s1
      else <[ws_key ws := mkInfo (playerId info) (Some rid) nm]> (clients s1) in
    let s3 := mkServer (<[rid := room2]> (rooms s1)) cs (wss_clients s) in
    let s4 := mkServer (<[rid := room3]> (rooms s1)) cs (wss_clients s) in
    case_join_room s ws pid (Some info) rid mname mcolor e =
      Ok (s4,
          out1
          ++ sendTo s3 ws
               (room_joined rid (r_name room1) pid (players room2)
                  (mapData room1) (slice_last 30 (chatHistory room1)))
          ++ broadcast s3 (Some rid) (player_joined (Some player)) (Some ws)
          ++ broadcast s4 (Some rid) (chat_out (joined_msg nm (now e))) None).
Proof.
  intros Hr Hfree. cbv zeta. unfold case_join_room. rewrite Hr.
  apply Nat.leb_gt in Hfree. rewrite Hfree.
  destruct (truthy (roomId info)) eqn:Ht.
  - pose proof (leaveRoom_frame s ws (now e) rid) as Hf. rewrite Hr in Hf.
    destruct Hf as (room1 & Hr1 & _).
    pose proof (leaveRoom_sockets s ws (now e)) as Hw.
    destruct (leaveRoom s ws (now e)) as [s1 out1]. cbn [fst snd] in *.
    exists room1. split; [done|]. unfold deref, set_rooms. rewrite Hr1.
    cbn [default from_option id rooms clients wss_clients players set_players].
    rewrite lookup_insert_eq, insert_insert_eq, Hw. reflexivity.
  - exists room. split; [done|]. unfold deref, set_rooms, set_clients.
    cbn [rooms clients wss_clients]. rewrite Hr.
    cbn [default from_option id players set_players].
    rewrite lookup_insert_eq, insert_insert_eq. reflexivity.
Qed.

Lemma step_rooms_frame s ev s' out :
  step s ev = Ok (s', out) -> rooms_frame s s'.
Proof.
  destruct ev as [ws uuid|ws raw e|ws t|ws t]; cbn [step];
    destruct (find_sock ws (wss_clients s)) as [k|];
    try (intros [= <- _]; by apply rooms_frame_eq).
  - unfold on_message. destruct raw as [| |m];
      [intros [= <- _]; by apply rooms_frame_eq | done |].
    destruct m.
    + destruct (rooms s !! mroomId) as [room|] eqn:Er.
      2:{ unfold case_join_room. rewrite Er. destruct (inherited mroomId);
            [done | intros [= <- _]; by apply rooms_frame_eq]. }
      destruct (Nat.ltb_spec (size (players room)) (maxPlayers room)) as [Hlt|Hge].
      2:{ rewrite (join_room_full _ _ _ _ _ room) by done.
          intros [= <- _]. by apply rooms_frame_eq. }
      destruct (clients s !! ws_key ws) as [info|].
      2:{ unfold case_join_room. rewrite Er.
          apply Nat.leb_gt in Hlt. by rewrite Hlt. }
      destruct (case_join_room_ok s ws (sock_playerId k) info mroomId mname
                  mcolor e room Er Hlt) as (room1 & Hr1 & Hj).
      cbv zeta in Hj. rewrite Hj. intros [= <- _].
      eapply rooms_frame_trans.
      2:{ eapply rooms_frame_update; [exact Hr1 | | reflexivity].
          by repeat split. }
      destruct (truthy (roomId info));
        [apply leaveRoom_frame | by apply rooms_frame_eq].
    + unfold case_move. destruct (clients s !! ws_key ws) as [info|]; [|done].
      destruct (rooms s !! prop_key (roomId info)) as [room|] eqn:Er;
        [|intros [= <- _]; by apply rooms_frame_eq].
      destruct (players room !! sock_playerId k);
        [|intros [= <- _]; by apply rooms_frame_eq].
      intros [= <- _]. eapply rooms_frame_update; [exact Er| |reflexivity].
      by repeat split.
    + unfold case_chat. destruct (clients s !! ws_key ws) as [info|]; [|done].
      destruct (rooms s !! prop_key (roomId info)) as [room|] eqn:Er;
        [|intros [= <- _]; by apply rooms_frame_eq].
      intros [= <- _]. eapply rooms_frame_update; [exact Er| |reflexivity].
      by repeat split.
    + unfold case_place_block.
      destruct (clients s !! ws_key ws) as [info|]; [|done].
      destruct (rooms s !! prop_key (roomId info)) as [room|] eqn:Er;
        [|intros [= <- _]; by apply rooms_frame_eq].
      destruct (mapData room); [|done].
      intros [= <- _]. eapply rooms_frame_update; [exact Er| |reflexivity].
      by repeat split.
    + unfold case_script_run.
      destruct (clients s !! ws_key ws) as [info|]; [|done].
      destruct (rooms s !! prop_key (roomId info)) as [room|];
        [|intros [= <- _]; by apply rooms_frame_eq].
      destruct code; [|done]. intros [= <- _]. by apply rooms_frame_eq.
    + unfold case_save_map.
      destruct (clients s !! ws_key ws) as [info|]; [|done].
      destruct (rooms s !! prop_key (roomId info)) as [room|] eqn:Er;
        [|intros [= <- _]; by apply rooms_frame_eq].
      intros [= <- _]. eapply rooms_frame_update; [exact Er| |reflexivity].
      by repeat split.
    + intros [= <- _]. by apply rooms_frame_eq.
    + intros [= <- _]. by apply rooms_frame_eq.
  - intros [= H]. apply (f_equal fst) in H. cbn in H. subst s'.
    eapply rooms_frame_trans; [|apply leaveRoom_frame]. by apply rooms_frame_eq.
  - intros [= H]. apply (f_equal fst) in H. cbn in H. subst s'.
    eapply rooms_frame_trans; [|apply leaveRoom_frame]. by apply rooms_frame_eq.
Qed.

Lemma run_rooms_frame evs : forall s s' out,
  run s evs = Ok (s', out) -> rooms_frame s s'.
Proof.
  induction evs as [|ev evs IH]; intros s s' out; cbn [run].
  - intros [= <- _]. by apply rooms_frame_eq.
  - destruct (step s ev) as [[s1 out1]|] eqn:E1; [|done].
    destruct (run s1 evs) as [[s2 out2]|] eqn:E2; [|done].
    intros [= <- _]. eapply rooms_frame_trans.
    + by eapply step_rooms_frame.
    + by eapply IH.
Qed.

Lemma init_rooms rnd t rid room :
  rooms (init rnd t) !! rid = Some room ->
  r_id room = rid /\ seeded rid (r_name room) /\ maxPlayers room = 20%nat /\
  created room = Some t /\ scripts room = Some ∅ /\ players room = ∅ /\
  chatHistory room = [].
Proof.
  cbn [init rooms]. rewrite seed_rooms_unfold. unfold seeded.
  repeat (rewrite lookup_insert; case_decide;
          [subst rid; intros [= <-]; cbn; repeat split; auto 10|]).
  by rewrite lookup_empty.
Qed.

(** X17.  In every state [server.js] reaches, the rooms are the four seeded
    ones: a key holds a room exactly when it is one of ["room_1"] to
    ["room_4"], and the room under a key still has that key as its id, its
    seeded name, capacity 20, its creation time and its empty script
    table.  No handler creates, deletes or renames a room. *)
Theorem roster_is_permanent rnd t evs s out :
  run (init rnd t) evs = Ok (s, out) ->
  forall rid,
    (is_Some (rooms s !! rid) <-> In rid room_ids) /\
    forall room,
      rooms s !! rid = Some room ->
      r_id room = rid /\ seeded rid (r_name room) /\
      maxPlayers room = 20%nat /\ created room = Some t /\
      scripts room = Some ∅.
Proof.
  intros Hrun rid. pose proof (run_rooms_frame _ _ _ _ Hrun rid) as Hf.
  pose proof (proj2 (init_inv rnd t) rid) as Hroster.
  destruct (rooms (init rnd t) !! rid) as [room0|] eqn:E0.
  - destruct Hf as (room' & Hr' & Hid & Hnm & Hmax & Hsc & Hcr).
    destruct (init_rooms _ _ _ _ E0) as (I1 & I2 & I3 & I4 & I5 & _).
    split.
    + split; [intros _; apply Hroster; eauto | eauto].
    + intros room Hr. assert (room = room') as -> by congruence.
      rewrite Hid, Hnm, Hmax, Hsc, Hcr. done.
  - rewrite Hf. split; [|done]. split; [by intros [? ?]|].
    intros Hin. apply Hroster in Hin. by destruct Hin.
Qed.

Lemma roster_is_permanent_witness :
  (is_Some (rooms pair_state !! "room_2") <-> In "room_2" room_ids) /\
  forall room,
    rooms pair_state !! "room_2" = Some room ->
    r_id room = "room_2" /\ seeded "room_2" (r_name room) /\
    maxPlayers room = 20%nat /\ created room = Some 0 /\
    scripts room = Some ∅.
Proof.
  apply (roster_is_permanent half 0 (fill 2) pair_state
           (sent_of (run (init half 0) (fill 2)))).
  vm_compute. reflexivity.
Defined.


Lemma leaveRoom_clients_frame s ws t k :
  k <> "[object Object]" ->
  clients (leaveRoom s ws t).1 !! k = clients s !! k.
Proof. intros Hk. rewrite leaveRoom_clients. by apply lookup_delete_ne. Qed.

Lemma step_clients_frame s ev s' out k :
  step s ev = Ok (s', out) -> k <> "[object Object]" ->
  clients s' !! k = clients s !! k.
Proof.
  intros Hstep Hk. revert Hstep.
  destruct ev as [ws uuid|ws raw e|ws t|ws t]; cbn [step];
    destruct (find_sock ws (wss_clients s)) as [sk|];
    try (by intros [= <- _]).
  - intros [= <- _]. cbn. by apply lookup_insert_ne.
  - unfold on_message. destruct raw as [| |m]; [by intros [= <- _] | done |].
    destruct m; try (by intros [= <- _]).
    + destruct (rooms s !! mroomId) as [room|] eqn:Er.
      2:{ unfold case_join_room. rewrite Er. destruct (inherited mroomId);
            [done | by intros [= <- _]]. }
      destruct (Nat.ltb_spec (size (players room)) (maxPlayers room)) as [Hlt|Hge].
      2:{ rewrite (join_room_full _ _ _ _ _ room) by done. by intros [= <- _]. }
      destruct (clients s !! ws_key ws) as [info|].
      2:{ unfold case_join_room. rewrite Er.
          apply Nat.leb_gt in Hlt. by rewrite Hlt. }
      destruct (case_join_room_ok s ws (sock_playerId sk) info mroomId mname
                  mcolor e room Er Hlt) as (room1 & Hr1 & Hj).
      cbv zeta in Hj. rewrite Hj. intros [= <- _]. cbn [clients].
      destruct (truthy (roomId info)).
      * by apply leaveRoom_clients_frame.
      * by apply lookup_insert_ne.
    + unfold case_move. destruct (clients s !! ws_key ws) as [info|]; [|done].
      destruct (rooms s !! prop_key (roomId info)) as [room|];
        [|by intros [= <- _]].
      destruct (players room !! sock_playerId sk); by intros [= <- _].
    + unfold case_chat. destruct (clients s !! ws_key ws) as [info|]; [|done].
      destruct (rooms s !! prop_key (roomId info)) as [room|];
        by intros [= <- _].
    + unfold case_place_block.
      destruct (clients s !! ws_key ws) as [info|]; [|done].
      destruct (rooms s !! prop_key (roomId info)) as [room|];
        [|by intros [= <- _]].
      destruct (mapData room); [|done]. by intros [= <- _].
    + unfold case_script_run.
      destruct (clients s !! ws_key ws) as [info|]; [|done].
      destruct (rooms s !! prop_key (roomId info)) as [room|];
        [|by intros [= <- _]].
      destruct code; [|done]. by intros [= <- _].
    + unfold case_save_map.
      destruct (clients s !! ws_key ws) as [info|]; [|done].
      destruct (rooms s !! prop_key (roomId info)) as [room|];
        by intros [= <- _].
  - intros [= H]. apply (f_equal fst) in H. cbn in H. subst s'.
    by rewrite leaveRoom_clients_frame.
  - intros [= H]. apply (f_equal fst) in H. cbn in H. subst s'.
    by rewrite leaveRoom_clients_frame.
Qed.

Lemma run_clients_frame evs : forall s s' out k,
  run s evs = Ok (s', out) -> k <> "[object Object]" ->
  clients s' !! k = clients s !! k.
Proof.
  induction evs as [|ev evs IH]; intros s s' out k; cbn [run].
  - by intros [= <- _].
  - destruct (step s ev) as [[s1 out1]|] eqn:E1; [|done].
    destruct (run s1 evs) as [[s2 out2]|] eqn:E2; [|done].
    intros [= <- _] Hk. rewrite (IH _ _ _ _ E2 Hk).
    by eapply step_clients_frame.
Qed.

(** X18.  In every state [server.js] reaches, the registry [clients] has at
    most one entry, under the key every socket is converted to, and the
    session stored there names no room or one of the four seeded rooms. *)
Theorem registry_single_slot rnd t evs s out :
  run (init rnd t) evs = Ok (s, out) ->
  (size (clients s) <= 1)%nat /\
  forall k info,
    clients s !! k = Some info ->
    k = "[object Object]" /\
    (roomId info = None \/
     exists rid, roomId info = Some rid /\ In rid room_ids).
Proof.
  intros Hrun.
  assert (Hdom : forall k, k <> "[object Object]" -> clients s !! k = None).
  { intros k Hk. by rewrite (run_clients_frame _ _ _ _ _ Hrun Hk). }
  assert (Hses : sessions_ok s).
  { eapply run_sessions; [apply init_inv| |exact Hrun]. by intros k info rid. }
  split.
  - destruct (clients s !! "[object Object]") as [i|] eqn:E.
    + assert (clients s = {[ "[object Object]" := i ]}) as ->.
      { apply map_eq. intros k. destruct (decide (k = "[object Object]")) as [->|Hk].
        - by rewrite lookup_singleton_eq.
        - rewrite lookup_singleton_ne by done. by apply Hdom. }
      by rewrite map_size_singleton.
    + assert (clients s = ∅) as ->.
      { apply map_eq. intros k. rewrite lookup_empty.
        destruct (decide (k = "[object Object]")) as [->|Hk]; [done|].
        by apply Hdom. }
      rewrite map_size_empty. lia.
  - intros k info Hc. split.
    + destruct (decide (k = "[object Object]")) as [->|Hk]; [done|].
      rewrite Hdom in Hc by done. done.
    + destruct (roomId info) as [rid|] eqn:Hrid; [|by left].
      right. exists rid. split; [done|]. by eapply Hses.
Qed.

Lemma registry_single_slot_witness :
  (size (clients pair_state) <= 1)%nat /\
  forall k info,
    clients pair_state !! k = Some info ->
    k = "[object Object]" /\
    (roomId info = None \/
     exists rid, roomId info = Some rid /\ In rid room_ids).
Proof.
  apply (registry_single_slot half 0 (fill 2) pair_state
           (sent_of (run (init half 0) (fill 2)))).
  vm_compute. reflexivity.
Defined.

Lemma find_sock_snoc ws l k :
  find_sock ws l = None -> ws_of k = ws -> find_sock ws (l ++ [k]) = Some k.
Proof.
  intros Hn Hk. unfold find_sock in *. induction l as [|a l IH]; cbn in *.
  - subst ws. by rewrite Nat.eqb_refl.
  - destruct (Nat.eqb (ws_of a) ws); [done | by apply IH].
Qed.

(** X14.  A new connection is registered under its fresh player id with no
    room and the name "Player", joins [wss.clients] as an [OPEN] socket and
    is sent one [welcome] carrying that id and one summary per room, each
    with the room's id, name, current player count and capacity.  The rooms
    are not changed. *)
Theorem connection_effect s ws uuid :
  find_sock ws (wss_clients s) = None ->
  exists s' summaries,
    step s (connection ws uuid) = Ok (s', [(ws, welcome uuid summaries)]) /\
    session s' ws = Some (mkInfo uuid None "Player") /\
    rooms s' = rooms s /\
    wss_clients s' = wss_clients s ++ [mkSock ws uuid OPEN] /\
    length summaries = size (rooms s) /\
    forall x,
      In x summaries <->
      exists rid room,
        rooms s !! rid = Some room /\
        x = mkSummary (r_id room) (r_name room) (size (players room))
              (maxPlayers room).
Proof.
  intros Hk. exists (on_connection s ws uuid).1, (room_list s).
  split; [|split; [|split; [|split; [|split]]]].
  - cbn [step]. rewrite Hk. unfold on_connection, sendTo.
    cbn [wss_clients]. rewrite (find_sock_snoc ws _ (mkSock ws uuid OPEN) Hk eq_refl).
    reflexivity.
  - unfold session. cbn. apply lookup_insert_eq.
  - reflexivity.
  - reflexivity.
  - unfold room_list. by rewrite length_fmap, length_map_to_list.
  - intros x. unfold room_list. rewrite <- list_elem_of_In, list_elem_of_fmap.
    split.
    + intros ([rid room] & -> & Hin). apply elem_of_map_to_list in Hin.
      by exists rid, room.
    + intros (rid & room & Hr & ->). exists (rid, room). split; [done|].
      by apply elem_of_map_to_list.
Qed.

Lemma connection_effect_witness :
  exists s' summaries,
    step (init half 0) (connection 1 (uuid 1)) =
      Ok (s', [(1%nat, welcome (uuid 1) summaries)]) /\
    session s' 1 = Some (mkInfo (uuid 1) None "Player") /\
    length summaries = 4%nat /\
    In (mkSummary "room_2" "PvP Arena" 0 20) summaries.
Proof.
  destruct (connection_effect (init half 0) 1%nat (uuid 1) eq_refl)
    as (s' & summaries & H1 & H2 & _ & _ & H5 & H6).
  exists s', summaries. split; [exact H1 | split; [exact H2 | split]].
  - rewrite H5. vm_compute. reflexivity.
  - apply H6. exists "room_2". eexists. split; [vm_compute; reflexivity|].
    reflexivity.
Defined.


Lemma broadcast_excluding s rid msg ws :
  is_Some (rooms s !! rid) ->
  broadcast s (Some rid) msg (Some ws) =
    map (fun w => (w, msg))
        (List.filter (fun w => negb (Nat.eqb w ws)) (recipients s rid)).
Proof.
  intros [room Hr]. unfold broadcast, recipients. cbn [prop_key]. rewrite Hr.
  induction (wss_clients s) as [|a l IH]; [done|]. cbn [List.filter].
  assert (Hrec : receives s (Some rid) (Some ws) a =
                 receives s (Some rid) None a && negb (Nat.eqb (ws_of a) ws)).
  { unfold receives. cbn. by rewrite andb_true_r. }
  rewrite Hrec. destruct (receives s (Some rid) None a);
    cbn [andb map List.filter]; [|exact IH].
  destruct (negb (Nat.eqb (ws_of a) ws)); cbn [map]; [by rewrite IH | exact IH].
Qed.

Lemma slice_last_length {A} n (l : list A) :
  length (slice_last n l) = Nat.min n (length l).
Proof. unfold slice_last. rewrite length_drop. lia. Qed.

(** X5.  A [join_room] that is admitted while the session names no room: the
    requester gets [room_joined] first, carrying the roster with the new
    player in it and the last 30 lines of the history as it was before the
    join; then [player_joined] goes to the other open sockets registered in
    the room and the "joined the game!" line to all of them, the requester
    included.  The player is stored under the socket's player id with the
    requested name and colour or their defaults, at height 2 with 100 hp;
    the history grows by the system line only, the map is untouched, the
    capacity is respected and the session now names the room. *)
Theorem join_fresh_effect s ws k info rid room mname mcolor e :
  find_sock ws (wss_clients s) = Some k -> is_open k = true ->
  session s ws = Some info -> truthy (roomId info) = false ->
  rooms s !! rid = Some room ->
  (size (players room) < maxPlayers room)%nat ->
  exists s' room' player,
    step s (message ws (parsed (join_room rid mname mcolor)) e) =
      Ok (s',
          (ws, room_joined rid (r_name room) (sock_playerId k) (players room')
                 (mapData room) (slice_last 30 (chatHistory room)))
          :: map (fun w => (w, player_joined (Some player)))
                 (List.filter (fun w => negb (Nat.eqb w ws)) (recipients s' rid))
          ++ map (fun w => (w, chat_out (joined_msg (p_name player) (now e))))
                 (recipients s' rid)) /\
    In ws (recipients s' rid) /\
    rooms s' !! rid = Some room' /\
    players room' = <[sock_playerId k := player]> (players room) /\
    (size (players room') <= maxPlayers room)%nat /\
    p_id player = sock_playerId k /\
    p_name player = or_else mname ("Player_" +:+ slice0 6 (sock_playerId k)) /\
    p_color player = or_else mcolor (random_color (random e 2%nat)) /\
    p_x player = spawn (random e 0%nat) /\ p_y player = 2%Q /\
    p_z player = spawn (random e 1%nat) /\ p_rotY player = 0%Q /\
    p_hp player = Some 100 /\ p_joinedAt player = Some (now e) /\
    chatHistory room' =
      chatHistory room ++ [joined_msg (p_name player) (now e)] /\
    mapData room' = mapData room /\
    session s' ws = Some (mkInfo (playerId info) (Some rid) (p_name player)) /\
    (length (slice_last 30 (chatHistory room)) <= 30)%nat /\
    slice_last 30 (chatHistory room) `suffix_of` chatHistory room.
Proof.
  intros Hk Ho Hs Ht Hr Hfree. unfold session in Hs.
  destruct (case_join_room_ok s ws (sock_playerId k) info rid mname mcolor e
              room Hr Hfree) as (room1 & Hr1 & Hj).
  cbv zeta in Hj. rewrite Ht in Hr1, Hj. assert (room1 = room) as -> by congruence.
  set (nm := or_else mname ("Player_" +:+ slice0 6 (sock_playerId k))) in *.
  set (player :=
         mkPlayer (sock_playerId k) nm
           (or_else mcolor (random_color (random e 2%nat)))
           (spawn (random e 0%nat)) 2 (spawn (random e 1%nat)) 0 (Some 100)
           (Some (now e))) in *.
  set (room' :=
         set_chatHistory
           (set_players room (<[sock_playerId k := player]> (players room)))
           (chatHistory room ++ [joined_msg nm (now e)])) in *.
  exists (mkServer (<[rid := room']> (rooms s))
            (<[ws_key ws := mkInfo (playerId info) (Some rid) nm]> (clients s))
            (wss_clients s)), room', player.
  split.
  { cbn [step]. rewrite Hk. cbn [on_message]. rewrite Hs, Hj.
    rewrite broadcast_excluding by (cbn; rewrite lookup_insert_eq; eauto).
    rewrite broadcast_recipients by (cbn; rewrite lookup_insert_eq; eauto).
    erewrite sendTo_open by (cbn; done). reflexivity. }
  split.
  { apply In_recipients. apply find_sock_In in Hk as [Hin Hws]. split.
    - by exists k.
    - eexists. unfold session. cbn. rewrite lookup_insert_eq. done. }
  split; [cbn [rooms]; apply lookup_insert_eq|].
  split; [reflexivity|]. split.
  { change (players room') with (<[sock_playerId k := player]> (players room)).
    pose proof (map_size_insert (sock_playerId k) player (players room)) as Hsz.
    destruct (players room !! sock_playerId k); cbn in Hsz; lia. }
  repeat (split; [reflexivity|]).
  split; [unfold session; cbn [clients]; by rewrite lookup_insert_eq|].
  split; [rewrite slice_last_length; lia | apply suffix_drop].
Qed.

Lemma join_fresh_effect_witness :
  exists s' room' player,
    rooms s' !! "room_1" = Some room' /\
    players room' !! uuid 1 = Some player /\
    p_name player = default_name 1 /\
    session s' 1 =
      Some (mkInfo (uuid 1) (Some "room_1") (default_name 1)).
Proof.
  edestruct (join_fresh_effect fresh_state 1%nat (mkSock 1 (uuid 1) OPEN)
               (mkInfo (uuid 1) None "Player") "room_1")
    with (mname := @None string) (mcolor := @None string) (e := env0)
    as (s' & room' & player & _ & _ & Hr' & Hp & _ & _ & Hn & _ & _ & _ & _ & _
        & _ & _ & _ & _ & Hs & _).
  - vm_compute. reflexivity.
  - reflexivity.
  - vm_compute. reflexivity.
  - reflexivity.
  - vm_compute. reflexivity.
  - apply Nat.ltb_lt. vm_compute. reflexivity.
  - exists s', room', player.
    split; [exact Hr' | split; [|split]].
    + rewrite Hp. apply lookup_insert_eq.
    + rewrite Hn. vm_compute. reflexivity.
    + rewrite Hs, Hn. vm_compute. reflexivity.
Defined.

Lemma In_broadcast_msg s rid msg excl w m :
  In (w, m) (broadcast s rid msg excl) -> m = msg.
Proof.
  unfold broadcast. destruct (rooms s !! prop_key rid); [|done].
  rewrite in_map_iff. by intros (k & [= _ <-] & _).
Qed.

Lemma In_sendTo_msg s ws msg w m :
  In (w, m) (sendTo s ws msg) -> m = msg.
Proof.
  unfold sendTo. destruct (find_sock ws (wss_clients s)) as [k|]; [|done].
  destruct (is_open k); [|done]. by intros [[= _ <-]|[]].
Qed.

(** X6.  A [join_room] that is admitted while the session already names a room
    runs [leaveRoom] first, and [leaveRoom] ends with [delete clients[ws]]:
    the player is added to the target room, but afterwards the registry
    resolves no socket to a session, no [player_joined] and no "joined the
    game!" line was delivered to anybody, and the next [chat] of the socket
    raises. *)
Theorem rejoin_drops_session s ws k info rid room mname mcolor e :
  find_sock ws (wss_clients s) = Some k ->
  session s ws = Some info -> truthy (roomId info) = true ->
  rooms s !! rid = Some room ->
  (size (players room) < maxPlayers room)%nat ->
  exists s' out room',
    step s (message ws (parsed (join_room rid mname mcolor)) e) = Ok (s', out) /\
    (forall w, session s' w = None) /\
    rooms s' !! rid = Some room' /\
    is_Some (players room' !! sock_playerId k) /\
    (forall w p, ~ In (w, player_joined p) out) /\
    (forall w nm t, ~ In (w, chat_out (joined_msg nm t)) out) /\
    (forall mtext e',
        step s' (message ws (parsed (chat mtext)) e') =
          Throw "TypeError: Cannot read properties of undefined").
Proof.
  intros Hk Hs Ht Hr Hfree. unfold session in Hs.
  destruct (case_join_room_ok s ws (sock_playerId k) info rid mname mcolor e
              room Hr Hfree) as (room1 & Hr1 & Hj).
  cbv zeta in Hj. rewrite Ht in Hr1, Hj.
  assert (Hnone : clients (leaveRoom s ws (now e)).1 !! "[object Object]" = None).
  { rewrite leaveRoom_clients. apply lookup_delete_eq. }
  rewrite !broadcast_no_session, !app_nil_r in Hj by exact Hnone.
  eexists _, _, _. split.
  { cbn [step]. rewrite Hk. cbn [on_message]. rewrite Hs. exact Hj. }
  split; [intros w; exact Hnone|].
  cbn [rooms]. split; [apply lookup_insert_eq|].
  split; [cbn; rewrite lookup_insert_eq; eauto|].
  assert (Hleave : forall w m, In (w, m) (leaveRoom s ws (now e)).2 ->
            (exists pid, m = player_left pid) \/
            (exists nm t, m = chat_out (left_msg nm t))).
  { intros w m. destruct (leaveRoom_cases s ws (now e))
      as [->|(i & r & p & _ & _ & _ & _ & ->)]; [done|].
    cbn [snd]. rewrite in_app_iff.
    intros [->%In_broadcast_msg| ->%In_broadcast_msg]; eauto. }
  split; [|split].
  - intros w p [Hin|Hin]%in_app_iff.
    + by destruct (Hleave _ _ Hin) as [[? [=]]|(? & ? & [=])].
    + by apply In_sendTo_msg in Hin.
  - intros w nm t [Hin|Hin]%in_app_iff.
    + by destruct (Hleave _ _ Hin) as [[? [=]]|(? & ? & [=])].
    + by apply In_sendTo_msg in Hin.
  - intros mtext e'. cbn [step wss_clients]. rewrite Hk. cbn [on_message clients].
    change (ws_key ws) with "[object Object]". by rewrite Hnone.
Qed.


Lemma rejoin_drops_session_witness :
  exists s' out room',
    step solo_state (message 1 (parsed (join_room "room_2" None None)) env0) =
      Ok (s', out) /\
    session s' 1 = None /\
    rooms s' !! "room_2" = Some room' /\
    is_Some (players room' !! uuid 1) /\
    step s' (message 1 (parsed (chat (Some "hi"))) env0) =
      Throw "TypeError: Cannot read properties of undefined".
Proof.
  edestruct (rejoin_drops_session solo_state 1%nat (mkSock 1 (uuid 1) OPEN)
               (mkInfo (uuid 1) (Some "room_1") (default_name 1)) "room_2")
    with (mname := @None string) (mcolor := @None string) (e := env0)
    as (s' & out & room' & Hstep & Hs & Hr' & Hp & _ & _ & Hchat).
  - vm_compute. reflexivity.
  - vm_compute. reflexivity.
  - reflexivity.
  - vm_compute. reflexivity.
  - apply Nat.ltb_lt. vm_compute. reflexivity.
  - exists s', out, room'.
    split; [exact Hstep | split; [apply Hs | split; [exact Hr' | split]]].
    + exact Hp.
    + apply Hchat.
Defined.

(** X13.  When the registry holds no entry for the socket, [move], [chat],
    [place_block], [script_run] and [save_map] raise on [info.roomId], and
    so does a [join_room] to a room with a free place; [ping] is still
    answered and unknown types and unparseable payloads are still
    dropped. *)
Theorem messages_without_session s ws k e :
  find_sock ws (wss_clients s) = Some k -> session s ws = None ->
  let undefined_info := "TypeError: Cannot read properties of undefined" in
  (forall x y z rotY,
      step s (message ws (parsed (move x y z rotY)) e) = Throw undefined_info) /\
  (forall mtext,
      step s (message ws (parsed (chat mtext)) e) = Throw undefined_info) /\
  (forall x y z blockType,
      step s (message ws (parsed (place_block x y z blockType)) e) =
        Throw undefined_info) /\
  (forall code,
      step s (message ws (parsed (script_run code)) e) = Throw undefined_info) /\
  (forall md,
      step s (message ws (parsed (save_map md)) e) = Throw undefined_info) /\
  (forall rid room mname mcolor,
      rooms s !! rid = Some room ->
      (size (players room) < maxPlayers room)%nat ->
      step s (message ws (parsed (join_room rid mname mcolor)) e) =
        Throw undefined_info) /\
  step s (message ws (parsed ping) e) =
    Ok (s, if is_open k then [(ws, pong (now e))] else []) /\
  step s (message ws (parsed other_type) e) = Ok (s, []) /\
  step s (message ws unparseable e) = Ok (s, []).
Proof.
  intros Hk Hs. unfold session in Hs. cbv zeta.
  repeat split; intros; cbn [step]; rewrite Hk; cbn [on_message];
    rewrite ?Hs; try reflexivity.
  - unfold case_join_room.
    match goal with H : rooms s !! _ = Some _ |- _ => rewrite H end.
    match goal with H : (_ < _)%nat |- _ => apply Nat.leb_gt in H; rewrite H end.
    reflexivity.
  - unfold sendTo. by rewrite Hk.
Qed.

Lemma messages_without_session_witness :
  step lost_state (message 2 (parsed (move 1 2 3 0)) env0) =
    Throw "TypeError: Cannot read properties of undefined" /\
  step lost_state (message 2 (parsed ping) env0) =
    Ok (lost_state, [(2%nat, pong 1000)]).
Proof.
  destruct (messages_without_session lost_state 2%nat
              (mkSock 2 (uuid 2) OPEN) env0)
    as (Hmove & _ & _ & _ & _ & _ & Hping & _).
  - vm_compute. reflexivity.
  - vm_compute. reflexivity.
  - split; [apply Hmove | exact Hping].
Defined.

Lemma disconnect_events_once_witness :
  exists s1 out1 s2,
    step solo_state (close 1 2000) = Ok (s1, out1) /\
    step s1 (error 1 2001) = Ok (s2, []) /\ rooms s2 = rooms s1.
Proof.
  destruct (disconnect_events_once solo_state 1%nat 2000 2001
              (state_of (step solo_state (close 1 2000)))
              (sent_of (step solo_state (close 1 2000))))
    as [(s2 & H1 & H2 & _) _].
  - left. vm_compute. reflexivity.
  - exists (state_of (step solo_state (close 1 2000))),
           (sent_of (step solo_state (close 1 2000))), s2.
    split; [vm_compute; reflexivity | split; [exact H1 | exact H2]].
Defined.

(** X11.  [leaveRoom(ws)] always removes the registry entry and never touches
    the socket list.  Every room keeps its id, name, capacity and map.  A
    room either stays exactly as it was, or it is the room named by the
    session and held the session's player: then that one player is removed,
    the count drops by one, the "left the game." line is appended and
    [player_left] followed by that line goes to the open sockets registered
    in the room. *)
Theorem leaveRoom_effect s ws t rid room :
  rooms s !! rid = Some room ->
  let s1 := (leaveRoom s ws t).1 in
  let out := (leaveRoom s ws t).2 in
  (forall w, session s1 w = None) /\
  wss_clients s1 = wss_clients s /\
  exists room1,
    rooms s1 !! rid = Some room1 /\
    r_id room1 = r_id room /\ r_name room1 = r_name room /\
    maxPlayers room1 = maxPlayers room /\ mapData room1 = mapData room /\
    ((room1 = room /\
      (out = [] \/ exists info, session s ws = Some info /\
                                roomId info <> Some rid)) \/
     (exists info,
        session s ws = Some info /\ roomId info = Some rid /\
        is_Some (players room !! playerId info) /\
        players room1 = delete (playerId info) (players room) /\
        S (size (players room1)) = size (players room) /\
        chatHistory room1 = chatHistory room ++ [left_msg (name info) t] /\
        out = map (fun w => (w, player_left (playerId info))) (recipients s rid)
              ++ map (fun w => (w, chat_out (left_msg (name info) t)))
                     (recipients s rid))).
Proof.
  intros Hr s1 out. subst s1 out.
  split; [|split; [apply leaveRoom_sockets|]].
  { intros w. unfold session. rewrite leaveRoom_clients. apply lookup_delete_eq. }
  destruct (leaveRoom_cases s ws t)
    as [->|(info & room0 & p & Hc & Ht & Hr0 & Hp & ->)].
  { exists room. cbn. repeat (split; [done|]). left. split; [done | by left]. }
  apply truthy_Some in Ht as (r & Hrid & Hne). rewrite Hrid in *.
  cbn [prop_key fst snd set_clients set_rooms rooms] in *.
  destruct (decide (r = rid)) as [->|Hneq].
  - rewrite lookup_insert_eq. eexists. split; [reflexivity|].
    assert (room0 = room) as -> by congruence.
    cbn. repeat (split; [done|]). right. exists info.
    split; [exact Hc|]. split; [done|]. split; [eauto|]. split; [done|].
    split; [|split; [done|]].
    + rewrite map_size_delete, Hp.
      assert (size (players room) <> 0%nat); [|lia].
      apply map_size_ne_0_lookup. eauto.
    + rewrite !broadcast_recipients by (cbn; rewrite lookup_insert_eq; eauto).
      done.
  - rewrite lookup_insert_ne by done. exists room.
    repeat (split; [done|]). left. split; [done|]. right. exists info.
    split; [done|]. congruence.
Qed.

Lemma leaveRoom_effect_witness :
  exists room1,
    rooms (leaveRoom solo_state 1 2000).1 !! "room_1" = Some room1 /\
    maxPlayers room1 = 20%nat /\
    session (leaveRoom solo_state 1 2000).1 1 = None.
Proof.
  edestruct (leaveRoom_effect solo_state 1%nat 2000 "room_1")
    as (Hs & _ & room1 & Hr1 & _ & _ & Hmax & _).
  - vm_compute. reflexivity.
  - exists room1. split; [exact Hr1 | split; [|apply Hs]].
    rewrite Hmax. reflexivity.
Defined.


Lemma move_effect_witness :
  exists s' out room' p',
    step solo_state (message 1 (parsed (move 1 2 3 0)) env0) = Ok (s', out) /\
    rooms s' !! "room_1" = Some room' /\
    players room' !! uuid 1 = Some p' /\
    p_x p' = 1%Q /\ p_name p' = default_name 1.
Proof.
  edestruct (move_effect solo_state 1%nat (mkSock 1 (uuid 1) OPEN)
               (mkInfo (uuid 1) (Some "room_1") (default_name 1)) "room_1")
    with (x := 1%Q) (y := 2%Q) (z := 3%Q) (rotY := 0%Q) (e := env0)
    as (s' & out & room' & p' & Hstep & Hr' & Hp' & Hx & _ & _ & _ & _ & Hn & _).
  - vm_compute. reflexivity.
  - vm_compute. reflexivity.
  - reflexivity.
  - vm_compute. reflexivity.
  - vm_compute. reflexivity.
  - exists s', out, room', p'.
    split; [exact Hstep | split; [exact Hr' | split; [exact Hp' | split]]].
    + exact Hx.
    + rewrite Hn. vm_compute. reflexivity.
Defined.

Lemma save_map_effect_witness :
  exists s' room',
    step solo_state (message 1 (parsed (save_map None)) env0) =
      Ok (s', [(1%nat, map_reload None);
               (1%nat, info_out "Map saved and synced to all players!")]) /\
    rooms s' !! "room_1" = Some room' /\ mapData room' = None /\
    step s' (message 1 (parsed (place_block 0 0 0 "stone")) env0) =
      Throw "TypeError: room.mapData.filter is not a function".
Proof.
  edestruct (save_map_effect solo_state 1%nat (mkSock 1 (uuid 1) OPEN)
               (mkInfo (uuid 1) (Some "room_1") (default_name 1)) "room_1")
    with (md := @None (list Block)) (e := env0)
    as (s' & room' & Hstep & Hr' & Hmd & _ & _ & _ & _ & Hplace).
  - vm_compute. reflexivity.
  - vm_compute. reflexivity.
  - reflexivity.
  - vm_compute. reflexivity.
  - replace (recipients solo_state "room_1") with [1%nat] in Hstep
      by (vm_compute; reflexivity).
    exists s', room'.
    split; [exact Hstep | split; [exact Hr' | split; [exact Hmd|]]].
    by apply Hplace.
Defined.

Lemma join_errors_change_nothing_witness :
  step fresh_state (message 1 (parsed (join_room "lobby" None None)) env0) =
    Ok (fresh_state, [(1%nat, error_out "Room not found")]).
Proof.
  destruct (join_errors_change_nothing fresh_state 1%nat
              (mkSock 1 (uuid 1) OPEN) "lobby" None None env0) as [Hnone _].
  - vm_compute. reflexivity.
  - reflexivity.
  - apply Hnone; vm_compute; reflexivity.
Defined.

End ServerJsExtras.

(** * Further properties of the variant with a [Map] registry *)

Module ServerMapExtras.
Import ServerMap ServerMapProofs.

Lemma room_id_truthy rid : In rid room_ids -> truthy (Some rid) = true.
Proof. intros [<-|[<-|[<-|[<-|[]]]]]; reflexivity. Qed.

Lemma consistent_truthy s ws info :
  consistent s -> clients s !! ws = Some info ->
  truthy (roomId info) = true ->
  exists rid room, roomId info = Some rid /\ rooms s !! rid = Some room /\
                   is_Some (players room !! playerId info).
Proof.
  intros Hc Hs Ht. destruct (roomId info) as [rid|] eqn:Hrid; [|done].
  destruct (sessions_placed s Hc ws info rid Hs Hrid) as (room & Hr & Hp).
  eauto.
Qed.

Lemma consistent_falsy s ws info :
  consistent s -> clients s !! ws = Some info ->
  truthy (roomId info) = false -> roomId info = None.
Proof.
  intros Hc Hs Ht. destruct (roomId info) as [rid|] eqn:Hrid; [|done].
  destruct (sessions_placed s Hc ws info rid Hs Hrid) as (room & Hr & _).
  apply (rooms_wf s Hc) in Hr as (_ & Hin & _).
  apply room_id_truthy in Hin. congruence.
Qed.

(** A room is replaced by one with the same players' ids. *)
Lemma consistent_update s rid room room' :
  consistent s -> rooms s !! rid = Some room ->
  r_id room' = r_id room -> maxPlayers room' = maxPlayers room ->
  (forall q, is_Some (players room' !! q) <-> is_Some (players room !! q)) ->
  size (players room') = size (players room) ->
  is_Some (mapData room') ->
  consistent (set_rooms s (<[rid := room']> (rooms s))).
Proof.
  intros Hc Hr Hid Hmax Hdom Hsz Hmap. split; cbn [set_rooms rooms clients wss_clients].
  - apply (ids_inj s Hc).
  - intros ws info r Hs Hrid.
    destruct (sessions_placed s Hc ws info r Hs Hrid) as (room0 & Hr0 & Hp).
    destruct (decide (r = rid)) as [->|Hne].
    + rewrite lookup_insert_eq. exists room'. split; [done|].
      apply Hdom. congruence.
    + rewrite lookup_insert_ne by done. eauto.
  - intros r room0 pid Hr0 Hp. destruct (decide (r = rid)) as [->|Hne].
    + rewrite lookup_insert_eq in Hr0. injection Hr0 as <-.
      apply Hdom in Hp. by apply (players_owned s Hc rid room).
    + rewrite lookup_insert_ne in Hr0 by done.
      by apply (players_owned s Hc r room0).
  - intros r room0 Hr0. destruct (decide (r = rid)) as [->|Hne].
    + rewrite lookup_insert_eq in Hr0. injection Hr0 as <-.
      destruct (rooms_wf s Hc rid room Hr) as (H1 & H2 & H3 & H4).
      rewrite Hid, Hmax, Hsz. done.
    + rewrite lookup_insert_ne in Hr0 by done. by apply (rooms_wf s Hc).
  - intros r Hin. destruct (decide (r = rid)) as [->|Hne].
    + rewrite lookup_insert_eq. eauto.
    + rewrite lookup_insert_ne by done. by apply (roster_full s Hc).
  - apply (sessions_connected s Hc).
Qed.

(** The session of [ws] leaves its room. *)
Lemma consistent_leave s ws info rid room h :
  consistent s -> clients s !! ws = Some info -> roomId info = Some rid ->
  rooms s !! rid = Some room ->
  consistent
    (mkServer
       (<[rid := set_chatHistory
                   (set_players room (delete (playerId info) (players room)))
                   h]> (rooms s))
       (<[ws := mkInfo (playerId info) None (name info)]> (clients s))
       (wss_clients s)).
Proof.
  intros Hc Hs Hrid Hr. split; cbn [rooms clients wss_clients].
  - intros w1 w2 i1 i2 H1 H2 Hpid.
    destruct (decide (w1 = ws)) as [->|N1]; destruct (decide (w2 = ws)) as [->|N2];
      [done | | |].
    + rewrite lookup_insert_eq in H1. rewrite lookup_insert_ne in H2 by done.
      injection H1 as <-. cbn in Hpid. symmetry.
      by eapply (ids_inj s Hc).
    + rewrite lookup_insert_eq in H2. rewrite lookup_insert_ne in H1 by done.
      injection H2 as <-. cbn in Hpid. by eapply (ids_inj s Hc).
    + rewrite lookup_insert_ne in H1, H2 by done. by eapply (ids_inj s Hc).
  - intros w i r Hw Hri. destruct (decide (w = ws)) as [->|Nw].
    { rewrite lookup_insert_eq in Hw. by injection Hw as <-. }
    rewrite lookup_insert_ne in Hw by done.
    destruct (sessions_placed s Hc w i r Hw Hri) as (room0 & Hr0 & Hp).
    destruct (decide (r = rid)) as [->|Hne].
    + rewrite lookup_insert_eq. eexists. split; [done|]. cbn.
      assert (room0 = room) as -> by congruence.
      rewrite lookup_delete_ne; [done|]. intros Heq.
      apply Nw. symmetry. by eapply (ids_inj s Hc).
    + rewrite lookup_insert_ne by done. eauto.
  - intros r room0 pid Hr0 Hp.
    assert (Hold : exists room1, rooms s !! r = Some room1 /\
              is_Some (players room1 !! pid) /\
              (r = rid -> pid <> playerId info)).
    { destruct (decide (r = rid)) as [->|Hne].
      - rewrite lookup_insert_eq in Hr0. injection Hr0 as <-. cbn in Hp.
        exists room. split; [done|].
        destruct (decide (pid = playerId info)) as [->|Hq].
        + rewrite lookup_delete_eq in Hp. by destruct Hp.
        + rewrite lookup_delete_ne in Hp by done. done.
      - rewrite lookup_insert_ne in Hr0 by done. exists room0. done. }
    destruct Hold as (room1 & Hr1 & Hp1 & Hq).
    destruct (players_owned s Hc r room1 pid Hr1 Hp1) as (w & i & Hw & Hpi & Hri).
    assert (w <> ws).
    { intros ->. assert (i = info) as -> by congruence.
      apply Hq; congruence. }
    exists w, i. by rewrite lookup_insert_ne.
  - intros r room0 Hr0. destruct (decide (r = rid)) as [->|Hne].
    + rewrite lookup_insert_eq in Hr0. injection Hr0 as <-. cbn.
      destruct (rooms_wf s Hc rid room Hr) as (H1 & H2 & H3 & H4).
      repeat split; [done..| |done].
      pose proof (map_size_delete (playerId info) (players room)) as Hsz.
      destruct (players room !! playerId info); cbn in Hsz; lia.
    + rewrite lookup_insert_ne in Hr0 by done. by apply (rooms_wf s Hc).
  - intros r Hin. destruct (decide (r = rid)) as [->|Hne].
    + rewrite lookup_insert_eq. eauto.
    + rewrite lookup_insert_ne by done. by apply (roster_full s Hc).
  - intros w Hw. apply (sessions_connected s Hc).
    destruct (decide (w = ws)) as [->|Nw]; [eauto|].
    by rewrite lookup_insert_ne in Hw.
Qed.

(** The session of [ws], which names no room, enters a room. *)
Lemma consistent_enter s ws info rid room p h nm :
  consistent s -> clients s !! ws = Some info -> roomId info = None ->
  rooms s !! rid = Some room ->
  (size (players room) < maxPlayers room)%nat ->
  consistent
    (mkServer
       (<[rid := set_chatHistory
                   (set_players room (<[playerId info := p]> (players room)))
                   h]> (rooms s))
       (<[ws := mkInfo (playerId info) (Some rid) nm]> (clients s))
       (wss_clients s)).
Proof.
  intros Hc Hs Hrid Hr Hfree. split; cbn [rooms clients wss_clients].
  - intros w1 w2 i1 i2 H1 H2 Hpid.
    destruct (decide (w1 = ws)) as [->|N1]; destruct (decide (w2 = ws)) as [->|N2];
      [done | | |].
    + rewrite lookup_insert_eq in H1. rewrite lookup_insert_ne in H2 by done.
      injection H1 as <-. cbn in Hpid. symmetry.
      by eapply (ids_inj s Hc).
    + rewrite lookup_insert_eq in H2. rewrite lookup_insert_ne in H1 by done.
      injection H2 as <-. cbn in Hpid. by eapply (ids_inj s Hc).
    + rewrite lookup_insert_ne in H1, H2 by done. by eapply (ids_inj s Hc).
  - intros w i r Hw Hri. destruct (decide (w = ws)) as [->|Nw].
    { rewrite lookup_insert_eq in Hw. injection Hw as <-. cbn in *.
      injection Hri as <-. rewrite lookup_insert_eq. eexists. split; [done|].
      cbn. rewrite lookup_insert_eq. eauto. }
    rewrite lookup_insert_ne in Hw by done.
    destruct (sessions_placed s Hc w i r Hw Hri) as (room0 & Hr0 & Hp).
    destruct (decide (r = rid)) as [->|Hne].
    + rewrite lookup_insert_eq. eexists. split; [done|]. cbn.
      assert (room0 = room) as -> by congruence.
      destruct (decide (playerId i = playerId info)) as [->|Hq].
      * rewrite lookup_insert_eq. eauto.
      * by rewrite lookup_insert_ne.
    + rewrite lookup_insert_ne by done. eauto.
  - intros r room0 pid Hr0 Hp.
    destruct (decide (r = rid /\ pid = playerId info)) as [[-> ->]|Hno].
    { exists ws. eexists. rewrite lookup_insert_eq. done. }
    assert (Hold : exists room1, rooms s !! r = Some room1 /\
              is_Some (players room1 !! pid)).
    { destruct (decide (r = rid)) as [->|Hne].
      - rewrite lookup_insert_eq in Hr0. injection Hr0 as <-. cbn in Hp.
        exists room. split; [done|].
        rewrite lookup_insert_ne in Hp; [done|]. intros Heq. apply Hno. done.
      - rewrite lookup_insert_ne in Hr0 by done. exists room0. done. }
    destruct Hold as (room1 & Hr1 & Hp1).
    destruct (players_owned s Hc r room1 pid Hr1 Hp1) as (w & i & Hw & Hpi & Hri).
    assert (w <> ws).
    { intros ->. assert (i = info) as -> by congruence. congruence. }
    exists w, i. by rewrite lookup_insert_ne.
  - intros r room0 Hr0. destruct (decide (r = rid)) as [->|Hne].
    + rewrite lookup_insert_eq in Hr0. injection Hr0 as <-. cbn.
      destruct (rooms_wf s Hc rid room Hr) as (H1 & H2 & H3 & H4).
      repeat split; [done..| |done].
      pose proof (map_size_insert (playerId info) p (players room)) as Hsz.
      destruct (players room !! playerId info); cbn in Hsz; lia.
    + rewrite lookup_insert_ne in Hr0 by done. by apply (rooms_wf s Hc).
  - intros r Hin. destruct (decide (r = rid)) as [->|Hne].
    + rewrite lookup_insert_eq. eauto.
    + rewrite lookup_insert_ne by done. by apply (roster_full s Hc).
  - intros w Hw. apply (sessions_connected s Hc).
    destruct (decide (w = ws)) as [->|Nw]; [eauto|].
    by rewrite lookup_insert_ne in Hw.
Qed.


(** A session that names no room is dropped. *)
Lemma consistent_forget s ws :
  consistent s ->
  (forall info, clients s !! ws = Some info -> roomId info = None) ->
  consistent (set_clients s (delete ws (clients s))).
Proof.
  intros Hc Hnone. split; cbn [set_clients rooms clients wss_clients].
  - intros w1 w2 i1 i2 [_ H1]%lookup_delete_Some [_ H2]%lookup_delete_Some.
    by apply (ids_inj s Hc).
  - intros w i r [_ Hw]%lookup_delete_Some Hri.
    by apply (sessions_placed s Hc w i r).
  - intros r room pid Hr Hp.
    destruct (players_owned s Hc r room pid Hr Hp) as (w & i & Hw & Hpi & Hri).
    exists w, i. split; [|done]. apply lookup_delete_Some. split; [|done].
    intros <-. apply Hnone in Hw. congruence.
  - apply (rooms_wf s Hc).
  - apply (roster_full s Hc).
  - intros w [i [_ Hw]%lookup_delete_Some]. apply (sessions_connected s Hc). eauto.
Qed.

Lemma consistent_sockets s l :
  consistent s ->
  (forall ws, is_Some (find_sock ws (wss_clients s)) -> is_Some (find_sock ws l)) ->
  consistent (set_sockets s l).
Proof.
  intros Hc Hl. split; cbn [set_sockets rooms clients wss_clients];
    try apply Hc.
  intros w Hw. by apply Hl, (sessions_connected s Hc).
Qed.

Lemma find_sock_set_ready_Some st ws w l :
  is_Some (find_sock w l) -> is_Some (find_sock w (set_ready st ws l)).
Proof.
  unfold find_sock, set_ready. induction l as [|a l IH]; [done|]. cbn.
  destruct (Nat.eqb (ws_of a) w) eqn:E.
  - intros _. destruct (Nat.eqb (ws_of a) ws); cbn; rewrite E; eauto.
  - intros H. destruct (Nat.eqb (ws_of a) ws); cbn; rewrite E; by apply IH.
Qed.

Lemma find_sock_app_Some w l l' :
  is_Some (find_sock w l) -> is_Some (find_sock w (l ++ l')).
Proof.
  unfold find_sock. induction l as [|a l IH]; cbn; [by intros [? ?]|].
  destruct (Nat.eqb (ws_of a) w); [eauto | apply IH].
Qed.

Lemma find_sock_last w l k :
  ws_of k = w -> is_Some (find_sock w (l ++ [k])).
Proof.
  intros <-. unfold find_sock. induction l as [|a l IH]; cbn.
  - rewrite Nat.eqb_refl. eauto.
  - destruct (Nat.eqb (ws_of a) (ws_of k)); [eauto | apply IH].
Qed.

(** A new socket connects with a player id no session has. *)
Lemma consistent_connect s ws u :
  consistent s -> find_sock ws (wss_clients s) = None ->
  (forall w i, clients s !! w = Some i -> playerId i <> u) ->
  consistent
    (mkServer (rooms s) (<[ws := mkInfo u None "Player"]> (clients s))
       (wss_clients s ++ [mkSock ws u OPEN])).
Proof.
  intros Hc Hk Hfresh.
  assert (Hnone : clients s !! ws = None).
  { destruct (clients s !! ws) eqn:E; [|done].
    destruct (sessions_connected s Hc ws) as [k' Hk']; [eauto | congruence]. }
  split; cbn [rooms clients wss_clients].
  - intros w1 w2 i1 i2 H1 H2 Hpid.
    destruct (decide (w1 = ws)) as [->|N1]; destruct (decide (w2 = ws)) as [->|N2];
      [done | | |].
    + rewrite lookup_insert_eq in H1. rewrite lookup_insert_ne in H2 by done.
      injection H1 as <-. cbn in Hpid. by destruct (Hfresh w2 i2 H2).
    + rewrite lookup_insert_eq in H2. rewrite lookup_insert_ne in H1 by done.
      injection H2 as <-. cbn in Hpid. by destruct (Hfresh w1 i1 H1).
    + rewrite lookup_insert_ne in H1, H2 by done. by eapply (ids_inj s Hc).
  - intros w i r Hw Hri. destruct (decide (w = ws)) as [->|Nw].
    { rewrite lookup_insert_eq in Hw. by injection Hw as <-. }
    rewrite lookup_insert_ne in Hw by done. by apply (sessions_placed s Hc w).
  - intros r room pid Hr Hp.
    destruct (players_owned s Hc r room pid Hr Hp) as (w & i & Hw & Hpi & Hri).
    exists w, i. rewrite lookup_insert_ne; [done|]. intros <-. congruence.
  - apply (rooms_wf s Hc).
  - apply (roster_full s Hc).
  - intros w Hw. destruct (decide (w = ws)) as [->|Nw].
    + by apply find_sock_last.
    + rewrite lookup_insert_ne in Hw by done.
      by apply find_sock_app_Some, (sessions_connected s Hc).
Qed.

(** [doLeave] on the stored session of a consistent state. *)
Lemma doLeave_consistent s ws info t :
  consistent s -> clients s !! ws = Some info ->
  let s1 := (doLeave s ws (Some info) t).1 in
  consistent s1 /\ wss_clients s1 = wss_clients s /\
  (exists info1, clients s1 !! ws = Some info1 /\
                 playerId info1 = playerId info /\ roomId info1 = None /\
                 name info1 = name info) /\
  (forall w, w <> ws -> clients s1 !! w = clients s !! w) /\
  (forall rid room,
      rooms s !! rid = Some room ->
      exists room1, rooms s1 !! rid = Some room1 /\
        (size (players room1) <= size (players room))%nat /\
        maxPlayers room1 = maxPlayers room /\ r_id room1 = r_id room /\
        r_name room1 = r_name room /\ mapData room1 = mapData room).
Proof.
  intros Hc Hs. cbn zeta. unfold doLeave.
  destruct (truthy (roomId info)) eqn:Ht; cbn [negb].
  - destruct (consistent_truthy s ws info Hc Hs Ht) as (rid & room & Hrid & Hr & Hp).
    rewrite Hrid. cbn [prop_key]. rewrite Hr. cbn [fst].
    split; [by apply (consistent_leave s ws info rid room)|].
    split; [done|]. split.
    { eexists. cbn. rewrite lookup_insert_eq. done. }
    split; [intros w Hw; cbn; by rewrite lookup_insert_ne|].
    intros r room0 Hr0. cbn. destruct (decide (r = rid)) as [->|Hne].
    + rewrite lookup_insert_eq. eexists. split; [done|].
      assert (room0 = room) as -> by congruence. cbn.
      repeat split.
      pose proof (map_size_delete (playerId info) (players room)) as Hsz.
      destruct (players room !! playerId info); cbn in Hsz; lia.
    + rewrite lookup_insert_ne by done. exists room0. done.
  - cbn [fst]. split; [done|]. split; [done|]. split.
    { exists info. repeat split; [done|]. by eapply consistent_falsy. }
    split; [done|]. intros r room0 Hr0. exists room0. done.
Qed.

Lemma step_consistent s ev s' out :
  consistent s ->
  (forall ws u, ev = connection ws u ->
     forall w i, clients s !! w = Some i -> playerId i <> u) ->
  step s ev = Ok (s', out) -> consistent s'.
Proof.
  intros Hc Hfresh.
  destruct ev as [ws uuid|ws raw e|ws t|ws t]; cbn [step];
    destruct (find_sock ws (wss_clients s)) as [sk|] eqn:Hk;
    try (by intros [= <- _]).
  - intros [= <- _]. apply consistent_connect; [done..|]. by eapply Hfresh.
  - unfold on_message. destruct raw as [| |m]; [by intros [= <- _] | |].
    { destruct (clients s !! ws); [done | by intros [= <- _]]. }
    destruct (clients s !! ws) as [info|] eqn:Hs; [|by intros [= <- _]].
    destruct m; try (by intros [= <- _]).
    + unfold case_join_room.
      destruct (rooms s !! mroomId) as [room|] eqn:Er;
        [|destruct (inherited mroomId); [done | by intros [= <- _]]].
      destruct (maxPlayers room <=? size (players room))%nat eqn:Hfull;
        [by intros [= <- _]|].
      apply Nat.leb_gt in Hfull.
      destruct (doLeave_consistent s ws info (now e) Hc Hs)
        as (Hc1 & Hw1 & (info1 & Hs1 & Hp1 & Hn1 & _) & _ & Hrooms1).
      destruct (Hrooms1 _ _ Er) as (room1 & Er1 & Hsz1 & Hmax1 & _).
      assert (Hex : exists s1 i1 r1,
                consistent s1 /\ clients s1 !! ws = Some i1 /\
                playerId i1 = playerId info /\ roomId i1 = None /\
                rooms s1 !! mroomId = Some r1 /\
                (size (players r1) < maxPlayers r1)%nat /\
                (if truthy (roomId info) then doLeave s ws (Some info) (now e)
                 else (s, [])).1 = s1).
      { destruct (truthy (roomId info)) eqn:Ht.
        - exists (doLeave s ws (Some info) (now e)).1, info1, room1.
          split; [exact Hc1|]. split; [exact Hs1|]. split; [exact Hp1|].
          split; [exact Hn1|]. split; [exact Er1|]. split; [lia | done].
        - exists s, info, room.
          split; [exact Hc|]. split; [exact Hs|]. split; [done|].
          split; [exact (consistent_falsy s ws info Hc Hs Ht)|].
          split; [exact Er|].
          split; [lia | done]. }
      destruct Hex as (s1 & i1 & r1 & Hcs1 & Hi1 & Hpi1 & Hri1 & Hr1 & Hfree1 & Es1).
      destruct (if truthy (roomId info) then doLeave s ws (Some info) (now e)
                else (s, [])) as [s1' out1]. cbn [fst] in Es1. subst s1'.
      intros [= <- _]. unfold deref, set_rooms, set_clients.
      cbn [rooms clients wss_clients]. rewrite Hr1.
      cbn [default from_option id]. rewrite insert_insert_eq.
      rewrite <- Hpi1.
      apply (consistent_enter s1 ws i1 mroomId r1); done.
    + unfold case_move. destruct (truthy (roomId info)); cbn [negb];
        [|by intros [= <- _]].
      destruct (rooms s !! prop_key (roomId info)) as [room|] eqn:Er;
        [|by intros [= <- _]].
      destruct (players room !! playerId info) as [p|] eqn:Ep;
        [|by intros [= <- _]].
      intros [= <- _]. eapply consistent_update; try done.
      * intros q. cbn. destruct (decide (q = playerId info)) as [->|Hq].
        -- rewrite lookup_insert_eq, Ep. split; eauto.
        -- by rewrite lookup_insert_ne.
      * cbn. pose proof (map_size_insert (playerId info)
                           (set_position p mx my mz mrotY) (players room)) as Hsz.
        rewrite Ep in Hsz. exact Hsz.
      * by apply (rooms_wf s Hc) in Er as (_ & _ & _ & ?).
    + unfold case_chat. destruct (truthy (roomId info)); cbn [negb];
        [|by intros [= <- _]].
      destruct (rooms s !! prop_key (roomId info)) as [room|] eqn:Er; [|done].
      intros [= <- _]. eapply consistent_update; try done.
      by apply (rooms_wf s Hc) in Er as (_ & _ & _ & ?).
    + unfold case_place_block. destruct (truthy (roomId info)); cbn [negb];
        [|by intros [= <- _]].
      destruct (rooms s !! prop_key (roomId info)) as [room|] eqn:Er; [|done].
      destruct (mapData room); [|done].
      intros [= <- _]. eapply consistent_update; done.
    + unfold case_save_map.
      destruct (truthy (roomId info)); cbn [negb orb]; [|by intros [= <- _]].
      case_bool_decide as Hmd; cbn [negb]; [|by intros [= <- _]].
      destruct (rooms s !! prop_key (roomId info)) as [room|] eqn:Er; [|done].
      intros [= <- _]. eapply consistent_update; try done.
  - intros [= H]. apply (f_equal fst) in H. cbn [fst] in H. subst s'.
    unfold on_close.
    set (s0 := set_sockets s (set_ready CLOSED ws (wss_clients s))).
    assert (Hc0 : consistent s0).
    { apply (consistent_sockets s); [done|]. intros w.
      apply find_sock_set_ready_Some. }
    change (clients s0 !! ws) with (clients s !! ws).
    destruct (clients s !! ws) as [info|] eqn:Hs.
    + destruct (doLeave_consistent s0 ws info t Hc0 Hs)
        as (Hc1 & _ & (info1 & Hs1 & _ & Hn1 & _) & _).
      destruct (doLeave s0 ws (Some info) t) as [s1 out1]. cbn [fst] in *.
      apply consistent_forget; [done|]. intros i Hi. congruence.
    + cbn [doLeave fst]. apply (consistent_forget s0); [done|]. intros i Hi.
      change (clients s0 !! ws) with (clients s !! ws) in Hi. congruence.
  - intros [= <- _]. apply consistent_sockets; [done|]. intros w.
    apply find_sock_set_ready_Some.
Qed.


Lemma step_ids s ev s' out w i' :
  consistent s -> step s ev = Ok (s', out) -> clients s' !! w = Some i' ->
  (exists i, clients s !! w = Some i /\ playerId i' = playerId i) \/
  (exists u, ev = connection w u /\ playerId i' = u).
Proof.
  intros Hc.
  destruct ev as [ws uuid|ws raw e|ws t|ws t]; cbn [step];
    destruct (find_sock ws (wss_clients s)) as [sk|] eqn:Hk;
    try (intros [= <- _]; by eauto).
  - intros [= <- _]. cbn [clients]. destruct (decide (w = ws)) as [->|Hne].
    + rewrite lookup_insert_eq. intros [= <-]. right. eauto.
    + rewrite lookup_insert_ne by done. eauto.
  - unfold on_message. destruct raw as [| |m]; [intros [= <- _]; by eauto | |].
    { destruct (clients s !! ws); [done | intros [= <- _]; by eauto]. }
    destruct (clients s !! ws) as [info|] eqn:Hs; [|intros [= <- _]; by eauto].
    destruct m; try (intros [= <- _]; by eauto).
    + unfold case_join_room.
      destruct (rooms s !! mroomId) as [room|] eqn:Er;
        [|destruct (inherited mroomId); [done | intros [= <- _]; by eauto]].
      destruct (maxPlayers room <=? size (players room))%nat;
        [intros [= <- _]; by eauto|].
      assert (Hother : forall w, w <> ws ->
                clients (if truthy (roomId info)
                         then doLeave s ws (Some info) (now e)
                         else (s, [])).1 !! w = clients s !! w).
      { destruct (truthy (roomId info)); [|done].
        by destruct (doLeave_consistent s ws info (now e) Hc Hs)
          as (_ & _ & _ & ? & _). }
      destruct (if truthy (roomId info) then doLeave s ws (Some info) (now e)
                else (s, [])) as [s1 out1]. cbn [fst] in Hother.
      intros [= <- _]. cbn [set_rooms set_clients clients].
      destruct (decide (w = ws)) as [->|Hne].
      * rewrite lookup_insert_eq. intros [= <-]. left. eauto.
      * rewrite lookup_insert_ne, Hother by done. eauto.
    + unfold case_move. destruct (truthy (roomId info)); cbn [negb];
        [|intros [= <- _]; by eauto].
      destruct (rooms s !! prop_key (roomId info)) as [room|];
        [|intros [= <- _]; by eauto].
      destruct (players room !! playerId info); intros [= <- _]; by eauto.
    + unfold case_chat. destruct (truthy (roomId info)); cbn [negb];
        [|intros [= <- _]; by eauto].
      destruct (rooms s !! prop_key (roomId info)) as [room|]; [|done].
      intros [= <- _]; by eauto.
    + unfold case_place_block. destruct (truthy (roomId info)); cbn [negb];
        [|intros [= <- _]; by eauto].
      destruct (rooms s !! prop_key (roomId info)) as [room|]; [|done].
      destruct (mapData room); [|done]. intros [= <- _]; by eauto.
    + unfold case_save_map.
      destruct (negb (truthy (roomId info)) || negb (bool_decide (is_Some mmapData)));
        [intros [= <- _]; by eauto|].
      destruct (rooms s !! prop_key (roomId info)) as [room|]; [|done].
      intros [= <- _]; by eauto.
  - intros [= H]. apply (f_equal fst) in H. cbn [fst] in H. subst s'.
    unfold on_close.
    set (s0 := set_sockets s (set_ready CLOSED ws (wss_clients s))).
    assert (Hc0 : consistent s0).
    { apply (consistent_sockets s); [done|]. intros w'.
      apply find_sock_set_ready_Some. }
    change (clients s0 !! ws) with (clients s !! ws).
    assert (Hother : forall w, w <> ws ->
              clients (doLeave s0 ws (clients s !! ws) t).1 !! w = clients s !! w).
    { intros w' Hw'. destruct (clients s !! ws) as [info|] eqn:Hs; [|done].
      destruct (doLeave_consistent s0 ws info t Hc0 Hs) as (_ & _ & _ & Ho & _).
      by rewrite Ho. }
    destruct (doLeave s0 ws (clients s !! ws) t) as [s1 out1]. cbn [fst] in *.
    cbn [set_clients clients].
    intros [Hne Hw]%lookup_delete_Some. rewrite Hother in Hw by done. eauto.
Qed.

Lemma map_seed_rooms_unfold rnd :
  seed_rooms rnd =
    <["room_1" := makeRoom "room_1" "Main World" 20 (fun k => rnd (60 * 0 + k)%nat)]>
   (<["room_2" := makeRoom "room_2" "PvP Arena" 20 (fun k => rnd (60 * 1 + k)%nat)]>
   (<["room_3" := makeRoom "room_3" "Builder Zone" 20 (fun k => rnd (60 * 2 + k)%nat)]>
   (<["room_4" := makeRoom "room_4" "Roleplay City" 20 (fun k => rnd (60 * 3 + k)%nat)]>
      ∅))).
Proof. reflexivity. Qed.

Lemma init_consistent rnd : consistent (init rnd).
Proof.
  assert (Hroom : forall rid room,
            rooms (init rnd) !! rid = Some room ->
            r_id room = rid /\ In rid room_ids /\ players room = ∅ /\
            maxPlayers room = 20%nat /\ is_Some (mapData room)).
  { intros rid room. cbn [init rooms]. rewrite map_seed_rooms_unfold.
    repeat (rewrite lookup_insert; case_decide;
            [subst rid; intros [= <-]; cbn; repeat split; eauto 10|]).
    by rewrite lookup_empty. }
  split; cbn [init clients].
  - intros w1 w2 i1 i2. by rewrite lookup_empty.
  - intros w i r. by rewrite lookup_empty.
  - intros r room pid Hr Hp. apply Hroom in Hr as (_ & _ & Hpl & _).
    rewrite Hpl, lookup_empty in Hp. by destruct Hp.
  - intros r room Hr. apply Hroom in Hr as (? & ? & Hpl & Hmax & ?).
    rewrite Hpl, Hmax, map_size_empty. repeat split; [done..|lia|done].
  - intros r Hin. cbn [init rooms]. rewrite map_seed_rooms_unfold.
    destruct Hin as [<-|[<-|[<-|[<-|[]]]]]; by eexists.
  - intros w. rewrite lookup_empty. by intros [? ?].
Qed.

Lemma run_consistent evs : forall s s' out,
  consistent s -> NoDup (connection_ids evs) ->
  (forall w i, clients s !! w = Some i ->
     ~ In (playerId i) (connection_ids evs)) ->
  run s evs = Ok (s', out) -> consistent s'.
Proof.
  induction evs as [|ev evs IH]; intros s s' out Hc Hnd Hfresh; cbn [run].
  - by intros [= <- _].
  - destruct (step s ev) as [[s1 out1]|] eqn:E1; [|done].
    destruct (run s1 evs) as [[s2 out2]|] eqn:E2; [|done].
    intros [= <- _].
    assert (Hids : forall u, In u (connection_ids evs) ->
              In u (connection_ids (ev :: evs))).
    { intros u Hu. unfold connection_ids in *. cbn [omap].
      destruct ev; cbn; auto. }
    apply (IH s1 s2 out2); [| | |done].
    + eapply step_consistent; [exact Hc| |exact E1].
      intros ws u -> w i Hw Heq. apply (Hfresh w i Hw). rewrite Heq.
      unfold connection_ids. cbn. by left.
    + unfold connection_ids in *. cbn [omap] in Hnd.
      destruct ev; cbn in Hnd; try done. by apply NoDup_cons in Hnd as [_ ?].
    + intros w i' Hw Hin.
      destruct (step_ids s ev s1 out1 w i' Hc E1 Hw)
        as [(i & Hi & Hpid)|(u & -> & Hpid)].
      * apply (Hfresh w i Hi). rewrite <- Hpid. by apply Hids.
      * unfold connection_ids in Hnd. cbn in Hnd.
        apply NoDup_cons in Hnd as [Hnot _]. apply Hnot.
        rewrite <- Hpid. by apply list_elem_of_In.
Qed.

(** X19.  The variant with a [Map] registry keeps registry and rooms in step.
    In every state it reaches, when the player ids drawn by [uuidv4()]
    are pairwise distinct: sessions have distinct player ids and belong to
    connected sockets; a session that names a room has its player in that
    room; every player of a room is the player of a session that names this
    room; and the rooms are the four seeded ones, each within its capacity
    and with an array for a map. *)
Theorem map_registry_consistent rnd evs s out :
  NoDup (connection_ids evs) -> run (init rnd) evs = Ok (s, out) ->
  consistent s.
Proof.
  intros Hnd Hrun. eapply run_consistent; [apply init_consistent|exact Hnd| |exact Hrun].
  intros w i. cbn. by rewrite lookup_empty.
Qed.


Lemma map_registry_consistent_witness : consistent pair_state.
Proof.
  apply (map_registry_consistent half both_join pair_state
           (sent_of (run (init half) both_join))).
  - apply (bool_decide_unpack _). vm_compute. exact I.
  - vm_compute. reflexivity.
Defined.






Lemma map_sessions_separate_witness :
  exists s' out,
    step pair_state (message 1 (parsed (chat (Some "hi"))) env0) = Ok (s', out) /\
    clients s' !! 2%nat = clients pair_state !! 2%nat.
Proof.
  exists (state_of (step pair_state (message 1 (parsed (chat (Some "hi"))) env0))),
         (sent_of (step pair_state (message 1 (parsed (chat (Some "hi"))) env0))).
  split; [vm_compute; reflexivity|].
  apply (map_sessions_separate pair_state
           (message 1 (parsed (chat (Some "hi"))) env0) _
           (sent_of (step pair_state (message 1 (parsed (chat (Some "hi"))) env0)))).
  - vm_compute. reflexivity.
  - intros [=].
Defined.

Lemma map_close_in_room_witness :
  exists s' room',
    step pair_state (close 1 2000) =
      Ok (s', [(2%nat, player_left (uuid 1));
               (2%nat, chat_out (left_msg "Player" 2000))]) /\
    rooms s' !! "room_1" = Some room' /\
    players room' !! uuid 1 = None /\ clients s' !! 1%nat = None.
Proof.
  edestruct (map_close_in_room pair_state 1%nat (mkSock 1 (uuid 1) OPEN)
               (mkInfo (uuid 1) (Some "room_1") "Player") "room_1")
    with (t := 2000)
    as (s' & room' & Hstep & Hr' & _ & Hp' & Hs' & _).
  - vm_compute. reflexivity.
  - vm_compute. reflexivity.
  - reflexivity.
  - intros [=].
  - vm_compute. reflexivity.
  - reflexivity.
  - vm_compute. reflexivity.
  - replace (recipients _ "room_1") with [2%nat] in Hstep
      by (vm_compute; reflexivity).
    exists s', room'.
    split; [exact Hstep | split; [exact Hr' | split; [exact Hp' | exact Hs']]].
Defined.

Lemma map_unjoined_ignored_witness :
  step lone_state (message 2 (parsed (chat (Some "hi"))) env0) =
    Ok (lone_state, []) /\
  step lone_state (message 2 (parsed (place_block 0 0 0 "stone")) env0) =
    Ok (lone_state, []).
Proof.
  destruct (map_unjoined_ignored lone_state 2%nat (mkSock 2 (uuid 2) OPEN)
              (mkInfo (uuid 2) None "Player") env0)
    as (_ & Hchat & Hplace & _).
  - vm_compute. reflexivity.
  - vm_compute. reflexivity.
  - reflexivity.
  - split; [apply Hchat | apply Hplace].
Defined.

End ServerMapExtras.

(** * Properties of the word-game server *)

Module WordGameProofs.
Import WordGame.

Lemma get_chars (n : nat) :
  (n < 32)%nat ->
  exists c, String.get n chars = Some c /\ c ∈ letters chars.
Proof.
  intros Hn.
  do 32 (destruct n as [|n];
         [eexists; split; [reflexivity | cbn; repeat constructor]|]).
  lia.
Qed.

Lemma char_at_in_range (i : Z) :
  0 <= i < 32 -> exists c, char_at i = String c "" /\ c ∈ letters chars.
Proof.
  intros Hi. unfold char_at.
  destruct (i <? 0) eqn:E; [apply Z.ltb_lt in E; lia|].
  destruct (get_chars (Z.to_nat i)) as (c & -> & Hc); [lia|]. eauto.
Qed.

Lemma draw_in_range (r : Q) :
  (0 <= r)%Q -> (r < 1)%Q -> 0 <= Math_floor (r * 32)%Q < 32.
Proof.
  intros H0 H1. unfold Math_floor. split.
  - rewrite <- (Qfloor_Z 0). apply Qfloor_resp_le. unfold inject_Z. lra.
  - rewrite Zlt_Qlt. eapply Qle_lt_trans; [apply Qfloor_le|].
    unfold inject_Z. lra.
Qed.

Lemma makeId_from_shape rnd : forall n i id,
  (forall k, (0 <= rnd k)%Q /\ (rnd k < 1)%Q) ->
  exists tail,
    makeId_from rnd i n id = id +:+ tail /\
    String.length tail = n /\ Forall (fun c => c ∈ letters chars) (letters tail).
Proof.
  induction n as [|n IH]; intros i id Hrnd; cbn [makeId_from].
  - exists "". split; [|split; [done | constructor]].
    induction id as [|c id IHid]; [done|].
    change (String c id +:+ "") with (String c (id +:+ "")). by f_equal.
  - destruct (Hrnd i) as [H0 H1].
    destruct (char_at_in_range _ (draw_in_range _ H0 H1)) as (c & -> & Hc).
    destruct (IH (S i) (id +:+ String c "") Hrnd) as (tail & -> & Hlen & Hall).
    exists (String c tail). split; [|split].
    + clear. induction id as [|d id IHid]; [done|].
      change (String d id +:+ String c "") with (String d (id +:+ String c "")).
      change (String d (id +:+ String c "") +:+ tail)
        with (String d ((id +:+ String c "") +:+ tail)).
      change (String d id +:+ String c tail) with (String d (id +:+ String c tail)).
      by f_equal.
    + cbn. by f_equal.
    + cbn. by constructor.
Qed.

Lemma prototype_keys_have_other_letters :
  Forall (fun k => ~ Forall (fun c => c ∈ letters chars) (letters k))
         Object_prototype_keys.
Proof. apply (bool_decide_unpack _). vm_compute. exact I. Qed.

(** X25.  When every draw of [Math.random()] lies in [[0, 1)], [makeId(len)]
    returns exactly [len] characters, each of them one of the 32
    characters of its alphabet; in particular a generated room id is never
    the name of a property of [Object.prototype]. *)
Theorem makeId_shape (rnd : nat -> Q) (len : nat) :
  (forall k, (0 <= rnd k)%Q /\ (rnd k < 1)%Q) ->
  String.length (makeId rnd len) = len /\
  Forall (fun c => c ∈ letters chars) (letters (makeId rnd len)) /\
  inherited (makeId rnd len) = false.
Proof.
  intros Hrnd. unfold makeId.
  destruct (makeId_from_shape rnd len 0%nat "" Hrnd) as (tail & -> & Hlen & Hall).
  change ("" +:+ tail) with tail. split; [done|]. split; [done|].
  unfold inherited. apply bool_decide_eq_false. intros Hin.
  pose proof prototype_keys_have_other_letters as Hkeys.
  rewrite Forall_forall in Hkeys. by apply (Hkeys tail Hin).
Qed.

Lemma makeId_shape_witness :
  String.length (makeId half 5) = 5%nat /\
  Forall (fun c => c ∈ letters chars) (letters (makeId half 5)) /\
  inherited (makeId half 5) = false.
Proof. apply (makeId_shape half 5). intros k. unfold half. split; lra. Defined.

Lemma truthy_nonempty_word w : w <> "" -> truthy (Some w) = true.
Proof. by destruct w. Qed.

(** *** The scoreboard *)

Lemma ranked_total a b : ranked a b \/ ranked b a.
Proof.
  unfold ranked, compare.
  destruct (e_won a), (e_won b); cbn; lia.
Qed.

Lemma ranked_trans a b c : ranked a b -> ranked b c -> ranked a c.
Proof.
  unfold ranked, compare.
  destruct (e_won a), (e_won b), (e_won c); cbn; lia.
Qed.

Lemma insert_sorted_perm x l : Permutation (insert_sorted x l) (x :: l).
Proof.
  induction l as [|y l IH]; cbn; [done|].
  destruct (compare x y <=? 0); [done|].
  rewrite IH. apply perm_swap.
Qed.

Lemma insert_sorted_sorted x l :
  StronglySorted ranked l -> StronglySorted ranked (insert_sorted x l).
Proof.
  induction l as [|y l IH]; intros Hs; cbn.
  - repeat constructor.
  - apply StronglySorted_inv in Hs as [Hs Hy].
    destruct (compare x y <=? 0) eqn:E.
    + apply Z.leb_le in E. constructor; [by constructor|].
      constructor; [done|]. eapply Forall_impl; [exact Hy|].
      intros z Hz. by eapply ranked_trans.
    + apply Z.leb_gt in E. constructor; [by apply IH|].
      rewrite (insert_sorted_perm x l). constructor; [|done].
      destruct (ranked_total x y) as [H|H]; [unfold ranked in H; lia | done].
Qed.

Lemma sort_perm l : Permutation (sort l) l.
Proof.
  induction l as [|x l IH]; [done|].
  change (sort (x :: l)) with (insert_sorted x (sort l)).
  by rewrite insert_sorted_perm, IH.
Qed.

Lemma sort_sorted l : StronglySorted ranked (sort l).
Proof.
  induction l as [|x l IH]; [constructor|].
  change (sort (x :: l)) with (insert_sorted x (sort l)).
  by apply insert_sorted_sorted.
Qed.

Lemma tied_filter_insert a x l :
  List.filter (tied a) (insert_sorted x l) = List.filter (tied a) (x :: l).
Proof.
  induction l as [|y l IH]; [done|]. cbn [insert_sorted].
  destruct (compare x y <=? 0) eqn:E; [done|]. apply Z.leb_gt in E.
  cbn [List.filter] in *. rewrite IH.
  destruct (tied a x) eqn:Ex, (tied a y) eqn:Ey; try done.
  exfalso. unfold tied in Ex, Ey. apply Z.eqb_eq in Ex, Ey.
  revert E Ex Ey. unfold compare.
  destruct (e_won a), (e_won x), (e_won y); cbn; lia.
Qed.

Lemma sort_stable a l : List.filter (tied a) (sort l) = List.filter (tied a) l.
Proof.
  induction l as [|x l IH]; [done|].
  change (sort (x :: l)) with (insert_sorted x (sort l)).
  rewrite tied_filter_insert. cbn [List.filter]. by rewrite IH.
Qed.

(** X26.  The scoreboard [getPlayerList] returns lists every player of the
    room once, in rank order under the comparator: whoever is listed
    before another player has won if the other has, and, when both have won
    or both have not, has no more guesses than the other, a player without
    guesses counting as 99.  Players the comparator ties keep the order in
    which they joined. *)
Theorem getPlayerList_sorted (room : RaceRoom) :
  Permutation (getPlayerList room) (map entry_of (r_players room)) /\
  StronglySorted ranked (getPlayerList room) /\
  (forall l1 a l2 b l3,
      getPlayerList room = l1 ++ a :: l2 ++ b :: l3 ->
      (e_won b = true -> e_won a = true) /\
      (e_won a = e_won b -> or_99 (e_guesses a) <= or_99 (e_guesses b))) /\
  (forall a,
      List.filter (tied a) (getPlayerList room) =
      List.filter (tied a) (map entry_of (r_players room))).
Proof.
  unfold getPlayerList. split; [apply sort_perm|]. split; [apply sort_sorted|].
  split; [|intros a; apply sort_stable].
  intros l1 a l2 b l3 Heq.
  pose proof (sort_sorted (map entry_of (r_players room))) as Hs.
  rewrite Heq in Hs. clear Heq.
  induction l1 as [|x l1 IH]; [|apply IH; by apply StronglySorted_inv in Hs as [? _]].
  cbn in Hs. apply StronglySorted_inv in Hs as [_ Hall].
  rewrite Forall_app in Hall. destruct Hall as [_ Hall].
  apply Forall_inv in Hall. unfold ranked, compare in Hall.
  split.
  - intros Hb. rewrite Hb in Hall. destruct (e_won a); [done|]. cbn in Hall. lia.
  - intros Hab. rewrite Hab in Hall. destruct (e_won b); cbn in Hall; lia.
Qed.

(** *** Battle mode *)

(** X27.  The first [battle:win] in a room without a winner records the
    sender, whose socket id is a non-empty string, as winner and announces
    it to the room, under the name of player
    1 when the sender is player 1 and under the name of player 2
    otherwise; the players, the language, the other rooms and the race
    tables are unchanged.  Every later [battle:win] in that room, from
    whichever socket, is ignored, until a [battle:restart] clears the
    winner and both words. *)
Theorem battle_win_once s sid roomId room :
  battleRooms s !! roomId = Some room -> truthy (b_winner room) = false ->
  sid <> "" ->
  exists s1 room1,
    battle_win s sid roomId =
      Done s1
        [to_room roomId
           (battle_result sid
              (if String.eqb (bp_id (p1 room)) sid then Some (bp_name (p1 room))
               else bp_name <$> p2 room))] /\
    battleRooms s1 !! roomId = Some room1 /\
    b_winner room1 = Some sid /\
    p1 room1 = p1 room /\ p2 room1 = p2 room /\ b_lang room1 = b_lang room /\
    (forall r, r <> roomId -> battleRooms s1 !! r = battleRooms s !! r) /\
    raceRooms s1 = raceRooms s /\
    (forall sid', battle_win s1 sid' roomId = Done s1 []) /\
    (forall sid' q,
        p2 room = Some q ->
        exists s2 room2,
          battle_restart s1 sid' roomId = Done s2 [to_room roomId battle_enter_word] /\
          battleRooms s2 !! roomId = Some room2 /\ b_winner room2 = None /\
          bp_word (p1 room2) = None /\ (bp_word <$> p2 room2) = Some None).
Proof.
  intros Hr Hw Hsid. eexists _, _. split.
  { unfold battle_win. rewrite Hr, Hw. reflexivity. }
  cbn [set_battle battleRooms raceRooms].
  split; [apply lookup_insert_eq|]. cbn [b_winner p1 p2 b_lang].
  repeat (split; [done|]).
  split; [intros r Hne; by rewrite lookup_insert_ne|]. split; [done|]. split.
  - intros sid'. unfold battle_win. cbn [set_battle battleRooms].
    rewrite lookup_insert_eq. cbn [b_winner].
    by rewrite (truthy_nonempty_word sid Hsid).
  - intros sid' q Hq. eexists _, _. split.
    { unfold battle_restart. cbn [set_battle battleRooms].
      rewrite lookup_insert_eq. cbn [p2]. rewrite Hq. reflexivity. }
    cbn [set_battle battleRooms]. split; [apply lookup_insert_eq|]. done.
Qed.

Lemma battle_win_once_witness :
  exists s1 room1 s2 room2,
    battle_join battle_tables "s2" "QRSTU" "Budi" =
      Done s1 [socket_join "QRSTU"; to_self (battle_joined "QRSTU" "p2" "id");
               to_socket "s1" (battle_opponent_joined "Budi");
               to_room "QRSTU" battle_enter_word] /\
    battleRooms s1 !! "QRSTU" = Some room1 /\
    battle_win s1 "s2" "QRSTU" =
      Done s2 [to_room "QRSTU" (battle_result "s2" (Some "Budi"))] /\
    battleRooms s2 !! "QRSTU" = Some room2 /\ b_winner room2 = Some "s2" /\
    battle_win s2 "s1" "QRSTU" = Done s2 [].
Proof.
  set (s1 := set_battle battle_tables
               (<["QRSTU" := mkBattleRoom (p1 battle_open)
                               (Some (mkBattlePlayer "s2" "Budi" None)) None "id"]>
                  (battleRooms battle_tables))).
  destruct (battle_win_once s1 "s2" "QRSTU"
              (mkBattleRoom (p1 battle_open)
                 (Some (mkBattlePlayer "s2" "Budi" None)) None "id"))
    as (s2 & room2 & Hwin & Hr2 & Hw2 & _ & _ & _ & _ & _ & Hagain & _).
  - vm_compute. reflexivity.
  - reflexivity.
  - intros [=].
  - exists s1, (mkBattleRoom (p1 battle_open)
                  (Some (mkBattlePlayer "s2" "Budi" None)) None "id"), s2, room2.
    split; [vm_compute; reflexivity|]. split; [vm_compute; reflexivity|].
    split; [exact Hwin|]. split; [exact Hr2|]. split; [exact Hw2|]. apply Hagain.
Defined.


(** *** Race mode *)

Lemma obj_get_set {A} k (v : A) l : obj_get k (obj_set k v l) = Some v.
Proof.
  unfold obj_get. induction l as [|kv l IH]; cbn.
  - by rewrite String.eqb_refl.
  - destruct (String.eqb (fst kv) k) eqn:E; cbn.
    + by rewrite String.eqb_refl.
    + by rewrite E.
Qed.

Lemma obj_delete_set {A} k (v : A) l :
  obj_get k l = None -> obj_delete k (obj_set k v l) = l.
Proof.
  unfold obj_get, obj_delete. induction l as [|kv l IH]; cbn.
  - by rewrite String.eqb_refl.
  - destruct (String.eqb (fst kv) k) eqn:E; [done|]. cbn. rewrite E. cbn.
    intros H. by rewrite IH.
Qed.

Lemma obj_single {A} k (v : A) :
  obj_get k [(k, v)] = Some v /\ obj_delete k [(k, v)] = [].
Proof. unfold obj_get, obj_delete. cbn. by rewrite String.eqb_refl. Qed.

Lemma obj_set_length_new {A} k (v : A) l :
  obj_get k l = None -> length (obj_set k v l) = S (length l).
Proof.
  unfold obj_get. induction l as [|kv l IH]; cbn; [done|].
  destruct (String.eqb (fst kv) k); [done|]. cbn. intros H. by rewrite IH.
Qed.

Lemma obj_set_length_old {A} k (v : A) l :
  is_Some (obj_get k l) -> length (obj_set k v l) = length l.
Proof.
  unfold obj_get. induction l as [|kv l IH]; cbn; [by intros [? ?]|].
  destruct (String.eqb (fst kv) k); [done|]. cbn. intros H. by rewrite IH.
Qed.

Lemma obj_set_In {A} k (v : A) l x :
  In x (obj_set k v l) -> x = (k, v) \/ In x l.
Proof.
  induction l as [|kv l IH]; cbn.
  - intros [<-|[]]. by left.
  - destruct (String.eqb (fst kv) k); cbn.
    + intros [<-|H]; [by left | right; by right].
    + intros [->|H]; [right; by left|].
      destruct (IH H) as [->|?]; [by left | right; by right].
Qed.

Lemma In_obj_set {A} k (v : A) l : In (k, v) (obj_set k v l).
Proof.
  induction l as [|kv l IH]; cbn; [by left|].
  destruct (String.eqb (fst kv) k); cbn; [by left | by right].
Qed.

Lemma getPlayerList_length room :
  length (getPlayerList room) = length (r_players room).
Proof.
  unfold getPlayerList. by rewrite (Permutation_length (sort_perm _)), length_map.
Qed.

(** The only entry that has won heads the sorted list. *)
Lemma sort_head_winner l w :
  In w l -> e_won w = true ->
  (forall x, In x l -> e_won x = true -> x = w) ->
  hd_error (sort l) = Some w.
Proof.
  intros Hin Hw Huniq.
  pose proof (sort_sorted l) as Hs. pose proof (sort_perm l) as Hp.
  assert (Hin' : In w (sort l)).
  { apply list_elem_of_In. rewrite Hp. by apply list_elem_of_In. }
  destruct (sort l) as [|a l']; [done|]. cbn. f_equal.
  destruct Hin' as [->|Hin']; [done|].
  apply StronglySorted_inv in Hs as [_ Hall].
  rewrite Forall_forall in Hall.
  assert (Hr : ranked a w) by (apply Hall; by apply list_elem_of_In).
  apply Huniq.
  - apply list_elem_of_In. rewrite <- Hp. by left.
  - unfold ranked, compare in Hr. rewrite Hw in Hr.
    destruct (e_won a); [done|]. cbn in Hr. lia.
Qed.

(** X28.  The first [race:win] of a member of a race room in which nobody has
    won records the winner with the reported number of guesses and sends
    the scoreboard and then the winner to the room.  The winner heads the
    scoreboard, nobody else on it has won, and the room keeps its number
    of players.  Every later [race:win] in that room is ignored. *)
Theorem race_win_first s sid roomId room p guesses :
  raceRooms s !! roomId = Some room -> r_winner room = None ->
  obj_get sid (r_players room) = Some p ->
  (forall kv, In kv (r_players room) -> rp_won (snd kv) = false) ->
  exists s1 room1 board,
    let w := mkRaceWinner sid (rp_name p) guesses in
    race_win s sid roomId guesses =
      Done s1 [to_room roomId (race_players board);
               to_room roomId (race_winner w)] /\
    hd_error board = Some (mkEntry sid (rp_name p) true guesses) /\
    length board = length (r_players room) /\
    (forall e, In e board -> e_id e <> sid -> e_won e = false) /\
    raceRooms s1 !! roomId = Some room1 /\
    r_winner room1 = Some w /\
    obj_get sid (r_players room1) = Some (mkRacePlayer (rp_name p) true guesses) /\
    length (r_players room1) = length (r_players room) /\
    (forall sid' guesses', race_win s1 sid' roomId guesses' = Done s1 []).
Proof.
  intros Hr Hw Hp Hnone.
  set (ps := obj_set sid (mkRacePlayer (rp_name p) true guesses) (r_players room)).
  set (room1 := mkRaceRoom (solution room) (r_lang room)
                  (Some (mkRaceWinner sid (rp_name p) guesses)) (hostId room) ps).
  exists (set_race s (<[roomId := room1]> (raceRooms s))), room1,
         (getPlayerList room1).
  cbv zeta. split.
  { unfold race_win. rewrite Hr, Hw, Hp. reflexivity. }
  split.
  { unfold getPlayerList. cbn [r_players room1].
    apply sort_head_winner; [|done|].
    - apply in_map_iff. exists (sid, mkRacePlayer (rp_name p) true guesses).
      split; [done | apply In_obj_set].
    - intros x [kv [<- Hkv]]%in_map_iff Hx.
      apply obj_set_In in Hkv as [->|Hkv]; [done|].
      apply Hnone in Hkv. cbn in Hx. congruence. }
  split.
  { rewrite getPlayerList_length. cbn [r_players room1].
    apply obj_set_length_old. rewrite Hp. eauto. }
  split.
  { intros e He Hid. unfold getPlayerList in He.
    apply list_elem_of_In in He. rewrite sort_perm in He.
    apply list_elem_of_In, in_map_iff in He as [kv [<- Hkv]].
    cbn [r_players room1] in Hkv.
    apply obj_set_In in Hkv as [->|Hkv]; [done|]. by apply Hnone. }
  cbn [set_race raceRooms]. split; [apply lookup_insert_eq|]. split; [done|].
  split; [apply obj_get_set|]. split.
  { apply obj_set_length_old. rewrite Hp. eauto. }
  intros sid' g'. unfold race_win. cbn [set_race raceRooms].
  by rewrite lookup_insert_eq.
Qed.

Lemma race_win_first_witness :
  exists s1 board,
    race_win race_tables "s2" "ABCD" 4 =
      Done s1 [to_room "ABCD" (race_players board);
               to_room "ABCD" (race_winner (mkRaceWinner "s2" "Budi" 4))] /\
    board = [mkEntry "s2" "Budi" true 4; mkEntry "s1" "Ani" false 3] /\
    race_win s1 "s1" "ABCD" 3 = Done s1 [].
Proof.
  destruct (race_win_first race_tables "s2" "ABCD" race_two
              (mkRacePlayer "Budi" false 0) 4)
    as (s1 & room1 & board & Hwin & Hhd & Hlen & _ & _ & _ & _ & _ & Hagain).
  - vm_compute. reflexivity.
  - reflexivity.
  - reflexivity.
  - intros kv [<-|[<-|[]]]; reflexivity.
  - exists s1, board. split; [exact Hwin|]. split; [|apply Hagain].
    cbv zeta in Hwin. revert Hwin. unfold race_win.
    replace (raceRooms race_tables !! "ABCD") with (Some race_two)
      by (vm_compute; reflexivity).
    cbn. intros [= _ <-]. vm_compute. reflexivity.
Defined.

(** X29.  A socket that joins a race room it was not in and then leaves it
    restores the tables exactly: the scoreboard sent on the join has one
    more line, carrying the new player with no guesses, and the one sent on
    the leave is the original one.  When the socket that leaves is the only
    player of the room, the room is deleted and nothing is sent. *)
Theorem race_join_then_leave s sid roomId nm room :
  raceRooms s !! roomId = Some room ->
  obj_get sid (r_players room) = None ->
  (r_players room <> [] ->
   exists s1 board,
     race_join s sid roomId nm =
       Done s1 [socket_join roomId;
                to_self (race_joined (solution room) (r_lang room));
                to_room roomId (race_players board)] /\
     length board = S (length (r_players room)) /\
     In (mkEntry sid nm false 0) board /\
     race_leave s1 sid roomId =
       Done s [to_room roomId (race_players (getPlayerList room));
               socket_leave roomId]) /\
  (forall q,
      exists s1,
        race_leave (set_race s (<[roomId := set_players room [(sid, q)]]> (raceRooms s)))
          sid roomId = Done s1 [socket_leave roomId] /\
        raceRooms s1 !! roomId = None /\
        (forall r, r <> roomId -> raceRooms s1 !! r = raceRooms s !! r)).
Proof.
  intros Hr Hnew. split.
  - intros Hne.
    set (room' := set_players room
                    (obj_set sid (mkRacePlayer nm false 0) (r_players room))).
    exists (set_race s (<[roomId := room']> (raceRooms s))), (getPlayerList room').
    split; [unfold race_join; by rewrite Hr|]. split.
    { rewrite getPlayerList_length. by apply obj_set_length_new. }
    split.
    { unfold getPlayerList. apply list_elem_of_In. rewrite sort_perm.
      apply list_elem_of_In, in_map_iff.
      exists (sid, mkRacePlayer nm false 0). split; [done | apply In_obj_set]. }
    unfold race_leave. cbn [set_race raceRooms]. rewrite lookup_insert_eq.
    cbn [room' set_players r_players]. rewrite obj_get_set.
    rewrite obj_delete_set by done.
    destruct (r_players room) as [|kv l] eqn:El; [done|].
    rewrite insert_insert_eq.
    assert (set_players room' (kv :: l) = room) as ->.
    { destruct room; cbn in *. by subst. }
    rewrite (insert_id (raceRooms s) roomId room Hr). by destruct s.
  - intros q. eexists. split.
    { unfold race_leave. cbn [set_race raceRooms]. rewrite lookup_insert_eq.
      cbn [set_players r_players].
      destruct (obj_single sid q) as [-> ->]. reflexivity. }
    cbn [set_race raceRooms]. split; [apply lookup_delete_eq|].
    intros r Hne. by rewrite lookup_delete_ne, lookup_insert_ne.
Qed.

Lemma race_join_then_leave_witness :
  exists s1 board,
    race_join race_tables "s3" "ABCD" "Cici" =
      Done s1 [socket_join "ABCD"; to_self (race_joined "kapal" "id");
               to_room "ABCD" (race_players board)] /\
    length board = 3%nat /\
    race_leave s1 "s3" "ABCD" =
      Done race_tables [to_room "ABCD" (race_players (getPlayerList race_two));
                        socket_leave "ABCD"].
Proof.
  destruct (race_join_then_leave race_tables "s3" "ABCD" "Cici" race_two)
    as [Hround _].
  - vm_compute. reflexivity.
  - reflexivity.
  - destruct Hround as (s1 & board & Hjoin & Hlen & _ & Hleave); [intros [=]|].
    exists s1, board. split; [exact Hjoin | split; [exact Hlen | exact Hleave]].
Defined.

(** X30.  The inputs on which a handler raises an uncaught [TypeError]:
    [battle:restart] in a room whose second player has not joined,
    [race:win] from a socket that is not a player of the room, and, for a
    room id that names a property of [Object.prototype], [battle:join],
    [battle:restart], [race:join], [race:guess], [race:leave] and
    [race:lose].  For any other id that is in neither table no handler
    changes anything: the two joins answer with the error "Room tidak
    ditemukan!", the two leaves only call [socket.leave], and the others
    return silently. *)
Theorem crash_inputs s sid :
  (forall roomId room,
      battleRooms s !! roomId = Some room -> p2 room = None ->
      battle_restart s sid roomId = Raise write_null) /\
  (forall roomId room guesses,
      raceRooms s !! roomId = Some room -> r_winner room = None ->
      obj_get sid (r_players room) = None ->
      race_win s sid roomId guesses = Raise write_undefined) /\
  (forall roomId nm,
      battleRooms s !! roomId = None -> raceRooms s !! roomId = None ->
      inherited roomId = true ->
      battle_join s sid roomId nm = Raise read_undefined /\
      battle_restart s sid roomId = Raise write_undefined /\
      race_join s sid roomId nm = Raise write_undefined /\
      race_guess s sid roomId = Raise read_undefined /\
      race_leave s sid roomId = Raise read_undefined /\
      race_lose s sid roomId = Raise read_undefined) /\
  (forall roomId nm word sol guesses,
      battleRooms s !! roomId = None -> raceRooms s !! roomId = None ->
      inherited roomId = false ->
      battle_join s sid roomId nm =
        Done s [to_self (battle_error "Room tidak ditemukan!")] /\
      battle_set_word s sid roomId word = Done s [] /\
      battle_win s sid roomId = Done s [] /\
      battle_restart s sid roomId = Done s [] /\
      battle_leave s sid roomId = Done s [socket_leave roomId] /\
      race_join s sid roomId nm =
        Done s [to_self (race_error "Room tidak ditemukan!")] /\
      race_guess s sid roomId = Done s [] /\
      race_win s sid roomId guesses = Done s [] /\
      race_restart s sid roomId sol = Done s [] /\
      race_leave s sid roomId = Done s [socket_leave roomId] /\
      race_lose s sid roomId = Done s []).
Proof.
  split; [|split; [|split]].
  - intros roomId room Hr Hp. unfold battle_restart. by rewrite Hr, Hp.
  - intros roomId room g Hr Hw Hp. unfold race_win. by rewrite Hr, Hw, Hp.
  - intros roomId nm Hb Hr Hi.
    unfold battle_join, battle_restart, race_join, race_guess, race_leave,
      race_lose. by rewrite Hb, Hr, Hi.
  - intros roomId nm word sol g Hb Hr Hi.
    unfold battle_join, battle_set_word, battle_win, battle_restart,
      battle_leave, race_join, race_guess, race_win, race_restart, race_leave,
      race_lose. by rewrite Hb, Hr, Hi.
Qed.

Lemma crash_inputs_witness :
  battle_restart battle_tables "s1" "QRSTU" = Raise write_null /\
  race_win race_tables "s9" "ABCD" 2 = Raise write_undefined /\
  race_join race_tables "s9" "constructor" "Dedi" = Raise write_undefined.
Proof.
  destruct (crash_inputs battle_tables "s1") as (Hrestart & _).
  destruct (crash_inputs race_tables "s9") as (_ & Hwin & Hproto & _).
  split; [|split].
  - apply (Hrestart "QRSTU" battle_open); [vm_compute|]; reflexivity.
  - apply (Hwin "ABCD" race_two 2); [vm_compute| |]; reflexivity.
  - apply (Hproto "constructor" "Dedi"); vm_compute; reflexivity.
Defined.

End WordGameProofs.
